(** * webscanner: the scan pipeline and its scoring engine

    A shallow embedding of the scan function of the repository (the edge
    function whose entry point is [processScan]): the six analyzers, the
    orchestrator [performScan], the two aggregation steps
    [extractTopIssues] and [calculateOverallScore], and the flattening of
    the results into the row written to the store.

    Conventions of the embedding.
    - A JavaScript string is a [string] of ASCII characters.
    - Counts and integer scores are [Z]; the weighted mean of
      [calculateOverallScore] is computed on binary64 numbers ([float]),
      as the source does, and rounded with [Math_round].
    - An object with optional fields is a record of [option]s; a missing
      field is [None].
    - [await], exceptions and the network are a state-and-exception monad
      [M] over a [world] that holds the answers of the network. *)

From Stdlib Require Import ZArith List String Ascii Bool Floats QArith Qround Lia.
From Stdlib Require Import DecimalString Setoid.
Import ListNotations.

Local Open Scope Z_scope.
Local Open Scope string_scope.
Local Open Scope list_scope.

Set Warnings "-inexact-float".

(** ** JavaScript helpers *)

Module JS.

(** The double quote, which no string literal of this file contains. *)
Definition dq : ascii := "034"%char.
Definition sq : ascii := "'"%char.

Definition code (c : ascii) : nat := nat_of_ascii c.

Definition between (lo hi : nat) (c : ascii) : bool :=
  (lo <=? code c)%nat && (code c <=? hi)%nat.

(** WhiteSpace and LineTerminator of the language, in the ASCII range:
    TAB, LF, VT, FF, CR and SPACE. *)
Definition is_space (c : ascii) : bool :=
  between 9 13 c || (code c =? 32)%nat.

Definition is_digit (c : ascii) : bool := between 48 57 c.

(** The word characters of [\b]: letters, digits and underscore. *)
Definition is_word (c : ascii) : bool :=
  between 97 122 c || between 65 90 c || is_digit c || (code c =? 95)%nat.

Definition toUpper (c : ascii) : ascii :=
  if between 97 122 c then ascii_of_nat (code c - 32) else c.

Definition toLower (c : ascii) : ascii :=
  if between 65 90 c then ascii_of_nat (code c + 32) else c.

(** [s.includes(t)] *)
Fixpoint includes (s t : string) : bool :=
  prefix t s ||
  match s with
  | EmptyString => false
  | String _ s' => includes s' t
  end.

(** [s.startsWith(t)] *)
Definition startsWith (s t : string) : bool := prefix t s.

(** [s.trimStart()], [s.trimEnd()] and [s.trim()] *)
Fixpoint trimStart (s : string) : string :=
  match s with
  | EmptyString => EmptyString
  | String c s' => if is_space c then trimStart s' else s
  end.

Fixpoint trimEnd (s : string) : string :=
  match s with
  | EmptyString => EmptyString
  | String c s' =>
      match trimEnd s' with
      | EmptyString => if is_space c then EmptyString else String c EmptyString
      | t => String c t
      end
  end.

Definition trim (s : string) : string := trimEnd (trimStart s).

(** [s.split(sep)] for a one-character separator. *)
Fixpoint split (sep : ascii) (s : string) : list string :=
  match s with
  | EmptyString => [EmptyString]
  | String c s' =>
      if Ascii.eqb c sep then EmptyString :: split sep s'
      else match split sep s' with
           | [] => [String c EmptyString]
           | w :: ws => String c w :: ws
           end
  end.

(** Truthiness of a possibly missing string, and [a || b] on strings. *)
Definition truthy (o : option string) : bool :=
  match o with
  | Some s => negb (String.eqb s "")
  | None => false
  end.

Definition or_str (o : option string) (d : string) : string :=
  match o with
  | Some s => if String.eqb s "" then d else s
  | None => d
  end.

(** [a || b] on numbers: [0] and a missing value are falsy. *)
Definition or_num (o : option Z) (d : Z) : Z :=
  match o with
  | Some z => if Z.eqb z 0 then d else z
  | None => d
  end.

(** [a || []] on arrays: every array is truthy. *)
Definition or_nil {A} (o : option (list A)) : list A :=
  match o with
  | Some l => l
  | None => []
  end.

(** [arr.slice(0, n)] *)
Definition slice0 {A} (n : nat) (l : list A) : list A := firstn n l.

(** Number to string, for integers. *)
Definition toString (z : Z) : string := NilZero.string_of_int (Z.to_int z).

(** [arr.sort(cmp)]: the sort of the language is stable; it is embedded
    as the insertion sort that places an element before the first one it
    does not compare greater than. *)
Fixpoint insert {A} (cmp : A -> A -> Z) (x : A) (l : list A) : list A :=
  match l with
  | [] => [x]
  | y :: l' => if (cmp x y <=? 0)%Z then x :: l else y :: insert cmp x l'
  end.

Fixpoint sort {A} (cmp : A -> A -> Z) (l : list A) : list A :=
  match l with
  | [] => []
  | x :: l' => insert cmp x (sort cmp l')
  end.

(** The integer [z] as a binary64 number (exact below 2^53). *)
Definition of_Z (z : Z) : float :=
  match z with
  | Z0 => 0%float
  | Zpos _ => PrimFloat.of_uint63 (Uint63.of_Z z)
  | Zneg p => PrimFloat.opp (PrimFloat.of_uint63 (Uint63.of_Z (Zpos p)))
  end.

(** [Math.round]: the integer nearest to the exact value of the binary64
    number, ties towards +infinity, that is [floor (x + 1/2)] computed on
    the exact value [m * 2^e].  The three values that are not finite are
    sent to 0: no integer score of the embedding can hold them. *)
Definition Math_round (f : float) : Z :=
  match Prim2SF f with
  | S754_finite s m e =>
      let v := if s then Z.neg m else Z.pos m in
      if (0 <=? e)%Z then Z.shiftl v e
      else Z.shiftr (2 * v + Z.shiftl 1 (- e)) (1 - e)
  | _ => 0
  end.

(** [x || 0] on a possibly missing binary64 number: a missing value, a
    zero and NaN are falsy. *)
Definition or_zero (o : option float) : float :=
  match o with
  | Some f => if PrimFloat.eqb f f && negb (PrimFloat.eqb f 0) then f else 0%float
  | None => 0%float
  end.

(** [Math.round] of an exact rational, for measured durations. *)
Definition Qround_half_up (q : Q) : Z := Qfloor (q + (1 # 2)).

End JS.

(** ** Regular expressions

    The patterns of the source use literals, character classes, greedy and
    lazy repetition of one class, alternation, groups, [\b] and one
    negative lookahead.  The matcher is the backtracking matcher of the
    language written in continuation-passing style: alternatives are
    tried from left to right and the first success is the result. *)

Module Regex.

Import JS.

Inductive item : Type :=
| Ch (c : ascii)          (* one character *)
| Range (lo hi : ascii)   (* lo-hi *)
| Space                   (* \s *)
| NotSpace                (* \S *)
| Digit.                  (* \d *)

Inductive regex : Type :=
| Eps
| Lit (c : ascii)
| Class (neg : bool) (its : list item)
| Seq (r1 r2 : regex)
| Alt (r1 r2 : regex)
| Star (greedy : bool) (neg : bool) (its : list item)
| Group (n : nat) (r : regex)
| WordB
| NotAhead (r : regex).

(** Under the flag [i] two characters are compared after
    canonicalisation (to upper case). *)
Definition char_eq (ic : bool) (a b : ascii) : bool :=
  if ic then Ascii.eqb (toUpper a) (toUpper b) else Ascii.eqb a b.

Definition in_range (lo hi c : ascii) : bool :=
  (code lo <=? code c)%nat && (code c <=? code hi)%nat.

Definition item_mem (ic : bool) (c : ascii) (i : item) : bool :=
  match i with
  | Ch a => char_eq ic a c
  | Range lo hi =>
      in_range lo hi c ||
      (ic && (in_range lo hi (toUpper c) || in_range lo hi (toLower c)))
  | Space => is_space c
  | NotSpace => negb (is_space c)
  | Digit => is_digit c
  end.

Definition mem (ic neg : bool) (its : list item) (c : ascii) : bool :=
  xorb neg (existsb (item_mem ic c) its).

(** The state of a match: what is left of the input, the character before
    it, the number of characters consumed, and the captures made. *)
Record mstate : Type := MState {
  rest : string;
  prev : option ascii;
  pos : nat;
  caps : list (nat * string)
}.

Definition word_at (o : option ascii) : bool :=
  match o with
  | Some c => is_word c
  | None => false
  end.

Definition peek (s : string) : option ascii :=
  match s with
  | EmptyString => None
  | String c _ => Some c
  end.

Fixpoint run (ic : bool) (r : regex) (A : Type) (k : mstate -> option A)
  (st : mstate) {struct r} : option A :=
  match r with
  | Eps => k st
  | Lit c =>
      match rest st with
      | String d t =>
          if char_eq ic c d then k (MState t (Some d) (S (pos st)) (caps st))
          else None
      | EmptyString => None
      end
  | Class neg its =>
      match rest st with
      | String d t =>
          if mem ic neg its d then k (MState t (Some d) (S (pos st)) (caps st))
          else None
      | EmptyString => None
      end
  | Seq r1 r2 => run ic r1 A (run ic r2 A k) st
  | Alt r1 r2 =>
      match run ic r1 A k st with
      | Some a => Some a
      | None => run ic r2 A k st
      end
  | Star greedy neg its =>
      (fix loop (s : string) (p : option ascii) (n : nat) {struct s} : option A :=
         match s with
         | String d t =>
             if mem ic neg its d then
               if greedy then
                 match loop t (Some d) (S n) with
                 | Some a => Some a
                 | None => k (MState s p n (caps st))
                 end
               else
                 match k (MState s p n (caps st)) with
                 | Some a => Some a
                 | None => loop t (Some d) (S n)
                 end
             else k (MState s p n (caps st))
         | EmptyString => k (MState s p n (caps st))
         end) (rest st) (prev st) (pos st)
  | Group n r1 =>
      run ic r1 A
        (fun st' =>
           k (MState (rest st') (prev st') (pos st')
                ((n, substring 0 (pos st' - pos st) (rest st)) :: caps st')))
        st
  | WordB =>
      if xorb (word_at (prev st)) (word_at (peek (rest st))) then k st else None
  | NotAhead r1 =>
      match run ic r1 unit (fun _ => Some tt) st with
      | Some _ => None
      | None => k st
      end
  end.

(** One attempt at the current position. *)
Definition match_at (ic : bool) (r : regex) (s : string) (p : option ascii)
  : option mstate :=
  run ic r mstate Some (MState s p 0 []).

(** [re.exec(s)] without the flag [g]: the leftmost match. *)
Fixpoint exec_from (ic : bool) (r : regex) (s : string) (p : option ascii)
  : option mstate :=
  match match_at ic r s p with
  | Some st => Some st
  | None =>
      match s with
      | EmptyString => None
      | String c t => exec_from ic r t (Some c)
      end
  end.

Definition exec (ic : bool) (r : regex) (s : string) : option mstate :=
  exec_from ic r s None.

(** [re.test(s)], and the truthiness of [s.match(re)]. *)
Definition test (ic : bool) (r : regex) (s : string) : bool :=
  match exec ic r s with
  | Some _ => true
  | None => false
  end.

(** [s.match(re)?.[n]] *)
Fixpoint lookup (n : nat) (l : list (nat * string)) : option string :=
  match l with
  | [] => None
  | (m, v) :: l' => if (n =? m)%nat then Some v else lookup n l'
  end.

Definition group (ic : bool) (r : regex) (n : nat) (s : string) : option string :=
  match exec ic r s with
  | Some st => lookup n (caps st)
  | None => None
  end.

(** [s.match(re) || []] with the flag [g]: the matches from left to
    right, each search resuming where the last match ended (one
    character further after an empty match).  [skip] counts the
    characters still covered by the last match. *)
Fixpoint matchAll_from (ic : bool) (r : regex) (s : string) (p : option ascii)
  (skip : nat) {struct s} : list string :=
  match skip with
  | S skip' =>
      match s with
      | EmptyString => []
      | String c t => matchAll_from ic r t (Some c) skip'
      end
  | O =>
      match match_at ic r s p with
      | Some st =>
          substring 0 (pos st) s ::
          match s with
          | EmptyString => []
          | String c t => matchAll_from ic r t (Some c) (Nat.pred (pos st))
          end
      | None =>
          match s with
          | EmptyString => []
          | String c t => matchAll_from ic r t (Some c) 0
          end
      end
  end.

Definition matchAll (ic : bool) (r : regex) (s : string) : list string :=
  matchAll_from ic r s None 0.

(** [s.replace(re, '')] with the flag [g]. *)
Fixpoint remove_from (ic : bool) (r : regex) (s : string) (p : option ascii)
  (skip : nat) {struct s} : string :=
  match skip with
  | S skip' =>
      match s with
      | EmptyString => EmptyString
      | String c t => remove_from ic r t (Some c) skip'
      end
  | O =>
      match s with
      | EmptyString => EmptyString
      | String c t =>
          match match_at ic r s p with
          | Some st =>
              match pos st with
              | O => String c (remove_from ic r t (Some c) 0)
              | S n => remove_from ic r t (Some c) n
              end
          | None => String c (remove_from ic r t (Some c) 0)
          end
      end
  end.

Definition removeAll (ic : bool) (r : regex) (s : string) : string :=
  remove_from ic r s None 0.

(** Combinators to write the patterns of the source. *)
Fixpoint str (s : string) : regex :=
  match s with
  | EmptyString => Eps
  | String c EmptyString => Lit c
  | String c s' => Seq (Lit c) (str s')
  end.

Fixpoint cat (l : list regex) : regex :=
  match l with
  | [] => Eps
  | [r] => r
  | r :: l' => Seq r (cat l')
  end.

Fixpoint alt (l : list regex) : regex :=
  match l with
  | [] => Eps
  | [r] => r
  | r :: l' => Alt r (alt l')
  end.

Definition chars (s : string) : list item := map Ch (list_ascii_of_string s).

(** [[^...]*], [[...]*], [[...]+], [r?] *)
Definition star_not (its : list item) : regex := Star true true its.
Definition star_of (its : list item) : regex := Star true false its.
Definition plus_not (its : list item) : regex := Seq (Class true its) (Star true true its).
Definition plus_of (its : list item) : regex := Seq (Class false its) (Star true false its).
Definition opt (r : regex) : regex := Alt r Eps.

(** [["']] and [[^"']] *)
Definition quotes : list item := [Ch dq; Ch sq].
Definition quote : regex := Class false quotes.

End Regex.

(** ** The runtime: network, clock, environment

    Every analyzer fetches the target itself.  The world holds the
    answers of the network in the order in which the requests are made;
    a request that finds no answer fails like a refused connection.  An
    answer that takes longer than the deadline of the request is cut at
    the deadline by the abort signal. *)

Definition exn : Type := string.

(** What [response.json()] yields for the page-speed service.  Of the
    audits the fields read into [load_time_ms], [image_count],
    [compression_enabled] and [caching_enabled] are kept:
    [metrics.details.items[0].observedLoad], the number of items of
    [uses-optimized-images], and the scores of [uses-text-compression]
    and of [uses-long-cache-ttl], each of which can be missing.  The
    detail fields [core_web_vitals], [opportunities] and [diagnostics]
    are read by no aggregation step and are left out of the section; the
    two functions that compute the opportunities and the diagnostics are
    embedded on their own further down. *)
Record LighthouseCategories : Type := {
  cat_performance : option float;
  cat_accessibility : option float;
  cat_best_practices : option float;
  cat_seo : option float
}.

Record LighthouseAudits : Type := {
  observedLoad : option float;
  optimizedImages : option Z;
  textCompression : option float;
  longCacheTtl : option float
}.

Record LighthouseResult : Type := {
  categories : option LighthouseCategories;
  audits : option LighthouseAudits
}.

Record PageSpeedData : Type := {
  lighthouseResult : option LighthouseResult
}.

Record Response : Type := {
  resp_status : Z;
  resp_headers : list (string * string);
  resp_text : exn + string;
  resp_json : exn + PageSpeedData
}.

Record Exchange : Type := {
  elapsed : Q;
  answer : exn + Response
}.

(** What the structured parse of a page exposes to the markup analyzer:
    the text content of every [button], and the number of [a[href]] and
    of [form] elements. *)
Record Document : Type := {
  doc_buttons : list string;
  doc_anchors : nat;
  doc_forms : nat
}.

Record world : Type := {
  env : list (string * string);
  domParser : option (string -> Document);
  network : list Exchange;
  clock : Q
}.

Definition M (A : Type) : Type := world -> (exn + A) * world.

Definition ret {A} (a : A) : M A := fun w => (inr a, w).

Definition throw {A} (e : exn) : M A := fun w => (inl e, w).

Definition bind {A B} (m : M A) (k : A -> M B) : M B :=
  fun w =>
    match m w with
    | (inr a, w') => k a w'
    | (inl e, w') => (inl e, w')
    end.

Definition try_catch {A} (m : M A) (h : exn -> M A) : M A :=
  fun w =>
    match m w with
    | (inr a, w') => (inr a, w')
    | (inl e, w') => h e w'
    end.

Notation "x <- m ;; k" := (bind m (fun x => k))
  (at level 61, m at next level, right associativity).

Definition Qgt_bool (a b : Q) : bool := negb (Qle_bool a b).

Definition fetch (url : string) (timeout_ms : Z) : M Response :=
  fun w =>
    match network w with
    | [] => (inl "error sending request", w)
    | x :: rest =>
        if Qgt_bool (elapsed x) (inject_Z timeout_ms) then
          (inl "The signal has been aborted",
           {| env := env w; domParser := domParser w; network := rest;
              clock := clock w + inject_Z timeout_ms |})
        else
          (match answer x with
           | inl e => inl e
           | inr r => inr r
           end,
           {| env := env w; domParser := domParser w; network := rest;
              clock := clock w + elapsed x |})
    end.

(** [performance.now()] *)
Definition now : M Q := fun w => (inr (clock w), w).

Fixpoint assoc (k : string) (l : list (string * string)) : option string :=
  match l with
  | [] => None
  | (k', v) :: l' => if String.eqb k k' then Some v else assoc k l'
  end.

(** [Deno.env.get(name)] *)
Definition getenv (name : string) : M (option string) :=
  fun w => (inr (assoc name (env w)), w).

(** [await response.text()] and [await response.json()] *)
Definition text (r : Response) : M string :=
  match resp_text r with
  | inl e => throw e
  | inr s => ret s
  end.

Definition json (r : Response) : M PageSpeedData :=
  match resp_json r with
  | inl e => throw e
  | inr d => ret d
  end.

(** [response.ok] *)
Definition ok (r : Response) : bool :=
  (200 <=? resp_status r)%Z && (resp_status r <=? 299)%Z.

Fixpoint lower (s : string) : string :=
  match s with
  | EmptyString => EmptyString
  | String c s' => String (JS.toLower c) (lower s')
  end.

(** [headers.get(name)]: header names compare without case.  The list
    holds the headers as the [Headers] object of an answer does, one
    entry for each name, the values of a repeated header already joined;
    the entry of the name is the one read. *)
Fixpoint headers_get (h : list (string * string)) (name : string) : option string :=
  match h with
  | [] => None
  | (k, v) :: h' =>
      if String.eqb (lower k) (lower name) then Some v else headers_get h' name
  end.

(** [new DOMParser().parseFromString(html, 'text/html')]: the constructor
    is missing in some runtimes, and then the expression throws. *)
Definition parseFromString (html : string) : M Document :=
  fun w =>
    match domParser w with
    | Some parse => (inr (parse html), w)
    | None => (inl "DOMParser is not defined", w)
    end.

(** ** The data model *)

Inductive Status : Type := pending | completed | failed.

Definition Status_eqb (a b : Status) : bool :=
  match a, b with
  | pending, pending | completed, completed | failed, failed => true
  | _, _ => false
  end.

Record E2ESection : Type := {
  e2e_status : Status;
  e2e_error : option string;
  buttons_found : option Z;
  links_found : option Z;
  forms_found : option Z;
  primary_actions : option (list string)
}.

Record Endpoint : Type := {
  ep_method : string;
  ep_path : string;
  ep_status : Z
}.

Record APISection : Type := {
  api_status : Status;
  api_error : option string;
  endpoints_detected : option Z;
  endpoints : option (list Endpoint)
}.

Record SecurityIssue : Type := {
  si_severity : string;
  si_category : option string;
  si_description : option string;
  si_message : option string
}.

Record SecuritySection : Type := {
  security_status : Status;
  security_error : option string;
  security_issues : option (list SecurityIssue);
  checks_performed : option Z;
  checks_passed : option Z;
  https_enabled : option bool
}.

Record LighthouseScores : Type := {
  ls_performance : option Z;
  ls_accessibility : option Z;
  ls_bestPractices : option Z;
  ls_seo : option Z
}.

Record PerformanceSection : Type := {
  performance_status : Status;
  performance_error : option string;
  score : option Z;
  load_time_ms : option Z;
  image_count : option Z;
  scripts_count : option Z;
  stylesheets_count : option Z;
  compression_enabled : option bool;
  caching_enabled : option bool;
  lighthouse_scores : option LighthouseScores;
  source : option string
}.

Record AccessibilityIssue : Type := {
  ai_severity : string;
  ai_count : option Z;
  ai_message : option string;
  ai_wcag : option string
}.

Record AccessibilitySection : Type := {
  accessibility_status : Status;
  accessibility_error : option string;
  accessibility_issues : option (list AccessibilityIssue);
  total_issues : option Z;
  accessibility_score : option Z;
  wcag_level : option string
}.

Record Technology : Type := {
  tech_name : string;
  tech_confidence : string;
  tech_version : option string;
  tech_category : string
}.

Record TechStackSection : Type := {
  techStack_status : Status;
  techStack_error : option string;
  detected : option (list Technology);
  total_detected : option Z
}.

Record PipelineResults : Type := {
  e2e : option E2ESection;
  api : option APISection;
  security : option SecuritySection;
  performance : option PerformanceSection;
  accessibility : option AccessibilitySection;
  techStack : option TechStackSection
}.

Record TopIssue : Type := {
  ti_category : string;
  ti_severity : string;
  ti_description : string
}.

(** The section that holds nothing but a status and an error message:
    what [performScan] starts from and what its own handlers store. *)
Definition bareE2E (s : Status) (e : option string) : E2ESection :=
  {| e2e_status := s; e2e_error := e; buttons_found := None; links_found := None;
     forms_found := None; primary_actions := None |}.

Definition bareAPI (s : Status) (e : option string) : APISection :=
  {| api_status := s; api_error := e; endpoints_detected := None; endpoints := None |}.

Definition bareSecurity (s : Status) (e : option string) : SecuritySection :=
  {| security_status := s; security_error := e; security_issues := None;
     checks_performed := None; checks_passed := None; https_enabled := None |}.

Definition barePerformance (s : Status) (e : option string) : PerformanceSection :=
  {| performance_status := s; performance_error := e; score := None;
     load_time_ms := None; image_count := None; scripts_count := None;
     stylesheets_count := None; compression_enabled := None;
     caching_enabled := None; lighthouse_scores := None; source := None |}.

Definition bareAccessibility (s : Status) (e : option string) : AccessibilitySection :=
  {| accessibility_status := s; accessibility_error := e;
     accessibility_issues := None; total_issues := None;
     accessibility_score := None; wcag_level := None |}.

Definition bareTechStack (s : Status) (e : option string) : TechStackSection :=
  {| techStack_status := s; techStack_error := e; detected := None;
     total_detected := None |}.

Definition len {A} (l : list A) : Z := Z.of_nat (List.length l).

(** ** The patterns of the source

    In the comments [q] stands for the class of the two quote characters
    and [nq] for its complement. *)

Module Patterns.

Import JS Regex.

Definition gt : list item := chars ">".

(** An opening tag: [<name[^>]*>] *)
Definition tag (name : string) : regex :=
  cat [str "<"; str name; star_not gt; str ">"].

(** [<button[^>]*>([\s\S]*?)</button>], flags gi *)
Definition button_pair : regex :=
  cat [str "<button"; star_not gt; str ">";
       Group 1 (Star false false [Space; NotSpace]); str "</button>"].

(** [<a[^>]*href=q( nq* )q[^>]*>], flags gi *)
Definition anchor_href : regex :=
  cat [str "<a"; star_not gt; str "href="; quote; Group 1 (star_not quotes);
       quote; star_not gt; str ">"].

(** [<[^>]*>], flag g *)
Definition any_tag : regex := cat [str "<"; star_not gt; str ">"].

(** [fetch\(q(nq+)q|axios\.[a-z]+\(q(nq+)q|\$\.ajax\(q(nq+)q], flag g *)
Definition call_site : regex :=
  alt [cat [str "fetch("; quote; Group 1 (plus_not quotes); quote];
       cat [str "axios."; plus_of [Range "a" "z"]; str "("; quote;
            Group 2 (plus_not quotes); quote];
       cat [str "$.ajax("; quote; Group 3 (plus_not quotes); quote]].

(** [q(nq+)q] *)
Definition quoted : regex := cat [quote; Group 1 (plus_not quotes); quote].

(** [document\.cookie\s*=], flags gi *)
Definition cookie_write : regex :=
  cat [str "document.cookie"; star_of [Space]; str "="].

(** [<link[^>]*rel=qstylesheetq[^>]*>], flags gi *)
Definition stylesheet_link : regex :=
  cat [str "<link"; star_not gt; str "rel="; quote; str "stylesheet"; quote;
       star_not gt; str ">"].

(** [<img(?![^>]*alt=)[^>]*>], flags gi *)
Definition img_without_alt : regex :=
  cat [str "<img"; NotAhead (cat [star_not gt; str "alt="]); star_not gt; str ">"].

(** [<html[^>]*lang=], flag i *)
Definition html_lang : regex := cat [str "<html"; star_not gt; str "lang="].

(** [<button[^>]*>\s*</button>], flags gi *)
Definition empty_button : regex :=
  cat [str "<button"; star_not gt; str ">"; star_of [Space]; str "</button>"].

(** [<h[1-6][^>]*>], flags gi *)
Definition heading : regex :=
  cat [str "<h"; Class false [Range "1" "6"]; star_not gt; str ">"].

(** [<a[^>]*href=[^>]*>\s*</a>], flags gi *)
Definition empty_link : regex :=
  cat [str "<a"; star_not gt; str "href="; star_not gt; str ">"; star_of [Space];
       str "</a>"].

(** [<a[^>]*href=q#(main|content|skip)q[^>]*>], flag i *)
Definition skip_link : regex :=
  cat [str "<a"; star_not gt; str "href="; quote; str "#";
       Group 1 (alt [str "main"; str "content"; str "skip"]); quote;
       star_not gt; str ">"].

(** [tabindex=q-\d+q], flags gi *)
Definition negative_tabindex : regex :=
  cat [str "tabindex="; quote; str "-"; plus_of [Digit]; quote].

(** The pattern of the build identifier: the key [buildId] and its value,
    each between double quotes, with a colon between them. *)
Definition build_id : regex :=
  cat [Lit dq; str "buildId"; Lit dq; str ":"; Lit dq;
       Group 1 (plus_not [Ch dq]); Lit dq].

(** [react[.-]?dom] and [vue[.-]?js], flag i *)
Definition react_dom : regex :=
  cat [str "react"; opt (Class false (chars ".-")); str "dom"].

Definition vue_js : regex :=
  cat [str "vue"; opt (Class false (chars ".-")); str "js"].

(** [<[^>]*ng-[^>]*>], flag i *)
Definition ng_attribute : regex :=
  cat [str "<"; star_not gt; str "ng-"; star_not gt; str ">"].

(** [ng-version=] followed by the version between double quotes. *)
Definition ng_version : regex :=
  cat [str "ng-version="; Lit dq; Group 1 (plus_not [Ch dq]); Lit dq].

(** [wp-content/themes/[^/]+/([0-9.]+)] *)
Definition wp_theme_version : regex :=
  cat [str "wp-content/themes/"; plus_not (chars "/"); str "/";
       Group 1 (plus_of [Range "0" "9"; Ch "."])].

(** [sites\/(default|all)\/modules], flag i *)
Definition drupal_modules : regex :=
  cat [str "sites/"; Group 1 (alt [str "default"; str "all"]); str "/modules"].

(** [<script[^>]*src=q nq* svelte nq* q], flag i *)
Definition svelte_script : regex :=
  cat [str "<script"; star_not gt; str "src="; quote; star_not quotes;
       str "svelte"; star_not quotes; quote].

(** [\d+\.\d+\.\d+] *)
Definition semver : regex :=
  cat [plus_of [Digit]; str "."; plus_of [Digit]; str "."; plus_of [Digit]].

(** [jquery[.-]?(\d+\.\d+\.\d+)?] and [jquery[.-]?(\d+\.\d+\.\d+)], flag i *)
Definition jquery_any : regex :=
  cat [str "jquery"; opt (Class false (chars ".-")); opt (Group 1 semver)].

Definition jquery_version : regex :=
  cat [str "jquery"; opt (Class false (chars ".-")); Group 1 semver].

(** [class=q nq* \b(flex|grid|bg-|text-|p-|m-|w-|h-) nq* q] *)
Definition tailwind_class : regex :=
  cat [str "class="; quote; star_not quotes; WordB;
       Group 1 (alt [str "flex"; str "grid"; str "bg-"; str "text-"; str "p-";
                     str "m-"; str "w-"; str "h-"]);
       star_not quotes; quote].

(** [class=q nq* \b(container|row|col-|btn|navbar) nq* q] *)
Definition bootstrap_class : regex :=
  cat [str "class="; quote; star_not quotes; WordB;
       Group 1 (alt [str "container"; str "row"; str "col-"; str "btn";
                     str "navbar"]);
       star_not quotes; quote].

End Patterns.

(** ** The analyzers *)

Import JS.

(** [if (c) arr.push(x)] *)
Definition pushIf {A} (c : bool) (x : A) (l : list A) : list A :=
  if c then l ++ [x] else l.

Definition nonempty (s : string) : bool := negb (String.eqb s "").

(** [(html.match(re) || []).length] with the flags gi *)
Definition count (r : Regex.regex) (html : string) : Z :=
  len (Regex.matchAll true r html).

Definition performE2EScan (url : string) : M E2ESection :=
  try_catch
    (response <- fetch url 10000 ;;
     if negb (ok response) then
       ret {| e2e_error := Some ("HTTP " ++ toString (resp_status response))%string;
              e2e_status := failed;
              buttons_found := Some 0;
              links_found := Some 0;
              forms_found := Some 0;
              primary_actions := Some [] |}
     else
       html <- text response ;;
       try_catch
         (doc <- parseFromString html ;;
          let buttons := doc_buttons doc in
          let primaryActions :=
            slice0 5 (filter nonempty
                        (map (fun b => trim (or_str (Some b) "")) buttons)) in
          ret {| buttons_found := Some (len buttons);
                 links_found := Some (Z.of_nat (doc_anchors doc));
                 forms_found := Some (Z.of_nat (doc_forms doc));
                 primary_actions := Some primaryActions;
                 e2e_status := completed;
                 e2e_error := None |})
         (fun _ =>
            let buttonMatches := Regex.matchAll true Patterns.button_pair html in
            let linkMatches := Regex.matchAll true Patterns.anchor_href html in
            let formMatches := Regex.matchAll true (Patterns.tag "form") html in
            ret {| buttons_found := Some (len buttonMatches);
                   links_found := Some (len linkMatches);
                   forms_found := Some (len formMatches);
                   primary_actions :=
                     Some (filter nonempty
                             (map (fun btn =>
                                     trim (Regex.removeAll false Patterns.any_tag btn))
                                  (slice0 5 buttonMatches)));
                   e2e_status := completed;
                   e2e_error := None |}))
    (fun error =>
       ret {| e2e_error := Some error;
              e2e_status := failed;
              buttons_found := Some 0;
              links_found := Some 0;
              forms_found := Some 0;
              primary_actions := Some [] |}).

Definition endpoint_of (m : string) : list Endpoint :=
  match Regex.group false Patterns.quoted 1 m with
  | Some path =>
      if nonempty path && startsWith path "/"
      then [{| ep_method := "GET"; ep_path := path; ep_status := 0 |}]
      else []
  | None => []
  end.

Definition performAPIScan (url : string) : M APISection :=
  try_catch
    (response <- fetch url 10000 ;;
     html <- text response ;;
     let scriptMatches := Regex.matchAll false Patterns.call_site html in
     let endpoints := flat_map endpoint_of scriptMatches in
     ret {| endpoints_detected := Some (len endpoints);
            endpoints := Some (slice0 10 endpoints);
            api_status := completed;
            api_error := None |})
    (fun error =>
       ret {| api_error := Some error;
              endpoints_detected := Some 0;
              endpoints := Some [];
              api_status := failed |}).

Definition securityIssue (severity description : string) : SecurityIssue :=
  {| si_severity := severity; si_category := Some "Security";
     si_description := Some description; si_message := None |}.

Definition missing (headers : list (string * string)) (name : string) : bool :=
  negb (truthy (headers_get headers name)).

Definition performSecurityScan (url : string) : M SecuritySection :=
  try_catch
    (response <- fetch url 10000 ;;
     let headers := resp_headers response in
     let issues := [] in
     let issues :=
       pushIf (missing headers "strict-transport-security")
         (securityIssue "high"
            "Missing HSTS header - site vulnerable to protocol downgrade attacks")
         issues in
     let issues :=
       pushIf (missing headers "x-content-type-options")
         (securityIssue "medium"
            "Missing X-Content-Type-Options header - vulnerable to MIME sniffing")
         issues in
     let issues :=
       pushIf (missing headers "x-frame-options"
               && missing headers "content-security-policy")
         (securityIssue "high"
            "Missing X-Frame-Options/CSP - vulnerable to clickjacking attacks")
         issues in
     let csp := headers_get headers "content-security-policy" in
     let issues :=
       pushIf (negb (truthy csp))
         (securityIssue "medium"
            "No Content-Security-Policy - vulnerable to XSS attacks")
         issues in
     let issues :=
       pushIf (missing headers "x-xss-protection")
         (securityIssue "low" "Missing X-XSS-Protection header")
         issues in
     html <- text response ;;
     let cookieMatches := Regex.matchAll true Patterns.cookie_write html in
     let issues :=
       pushIf ((0 <? len cookieMatches)%Z)
         (securityIssue "high"
            "JavaScript cookie manipulation detected - potential XSS vector")
         issues in
     ret {| security_issues := Some issues;
            checks_performed := Some 7;
            checks_passed := Some (7 - len issues);
            https_enabled := Some (startsWith url "https");
            security_status := completed;
            security_error := None |})
    (fun error =>
       ret {| security_error := Some error;
              security_issues := Some [];
              checks_performed := Some 0;
              checks_passed := Some 0;
              https_enabled := Some false;
              security_status := failed |}).

(** [headers.get(name)?.includes(a) || headers.get(name)?.includes(b)] *)
Definition includes_either (v : option string) (a b : string) : option bool :=
  match v with
  | Some s => Some (includes s a || includes s b)
  | None => None
  end.

Definition truthy_flag (o : option bool) : bool :=
  match o with
  | Some b => b
  | None => false
  end.

Definition performBasicPerformanceScan (url : string) : M PerformanceSection :=
  startTime <- now ;;
  response <- fetch url 15000 ;;
  endTime <- now ;;
  let loadTime := (endTime - startTime)%Q in
  html <- text response ;;
  let headers := resp_headers response in
  let imageCount := count (Patterns.tag "img") html in
  let scriptCount := count (Patterns.tag "script") html in
  let stylesheetCount := count Patterns.stylesheet_link html in
  let hasGzip := includes_either (headers_get headers "content-encoding") "gzip" "br" in
  let hasCaching := truthy (headers_get headers "cache-control") in
  let score := 100 in
  let score :=
    if Qgt_bool loadTime 3000 then score - 30
    else if Qgt_bool loadTime 1500 then score - 15
    else score in
  let score := if (imageCount >? 20)%Z then score - 10 else score in
  let score := if (scriptCount >? 15)%Z then score - 10 else score in
  let score := if (stylesheetCount >? 5)%Z then score - 5 else score in
  let score := if negb (truthy_flag hasGzip) then score - 15 else score in
  let score := if negb hasCaching then score - 10 else score in
  let score := Z.max 0 score in
  ret {| score := Some score;
         load_time_ms := Some (Qround_half_up loadTime);
         image_count := Some imageCount;
         scripts_count := Some scriptCount;
         stylesheets_count := Some stylesheetCount;
         compression_enabled := hasGzip;
         caching_enabled := Some hasCaching;
         lighthouse_scores :=
           Some {| ls_performance := Some score;
                   ls_seo := Some (Z.max 0 (score - 10));
                   ls_accessibility := None;
                   ls_bestPractices := None |};
         source := Some "basic-scan";
         performance_status := completed;
         performance_error := None |}.

(** [Math.round((category?.score || 0) * 100)] *)
Definition percent (category_score : option float) : Z :=
  Math_round (or_zero category_score * 100)%float.

(** [score === 1] and [score > 0.5] on a possibly missing number. *)
Definition is_one (o : option float) : bool :=
  match o with
  | Some f => PrimFloat.eqb f 1
  | None => false
  end.

Definition above_half (o : option float) : bool :=
  match o with
  | Some f => PrimFloat.ltb 0.5 f
  | None => false
  end.

(** [obj.field] on a possibly missing object: a [TypeError] when the
    object is missing. *)
Definition member {A} (o : option A) (what : string) : M A :=
  match o with
  | Some a => ret a
  | None => throw ("Cannot read properties of undefined (reading '" ++ what ++ "')")%string
  end.

(** The body of the [try] block of [performGooglePageSpeedScan].  The
    address of the request carries the encoded target and the key; the
    world answers requests by their order, not by their address.  The
    audits of the answer are bound to [metrics]. *)
Definition googlePageSpeedRequest (url apiKey : string) : M PerformanceSection :=
  let pagespeedUrl :=
    ("https://www.googleapis.com/pagespeedonline/v5/runPagespeed?url=" ++ url
     ++ "&key=" ++ apiKey
     ++ "&category=performance&category=accessibility&category=best-practices&category=seo")%string in
  response <- fetch pagespeedUrl 60000 ;;
  if negb (ok response) then
    throw ("PageSpeed API error: " ++ toString (resp_status response))%string
  else
    data <- json response ;;
    lighthouse <- member (lighthouseResult data) "categories" ;;
    cats <- member (categories lighthouse) "performance" ;;
    let performanceScore := percent (cat_performance cats) in
    let accessibilityScore := percent (cat_accessibility cats) in
    let bestPracticesScore := percent (cat_best_practices cats) in
    let seoScore := percent (cat_seo cats) in
    metrics <- member (audits lighthouse) "metrics" ;;
    ret {| score := Some performanceScore;
           load_time_ms := Some (Math_round (or_zero (observedLoad metrics)));
           lighthouse_scores :=
             Some {| ls_performance := Some performanceScore;
                     ls_accessibility := Some accessibilityScore;
                     ls_bestPractices := Some bestPracticesScore;
                     ls_seo := Some seoScore |};
           image_count := Some (or_num (optimizedImages metrics) 0);
           scripts_count := None;
           stylesheets_count := None;
           compression_enabled := Some (is_one (textCompression metrics));
           caching_enabled := Some (above_half (longCacheTtl metrics));
           source := Some "google-pagespeed";
           performance_status := completed;
           performance_error := None |}.

Definition performGooglePageSpeedScan (url apiKey : string) : M PerformanceSection :=
  try_catch (googlePageSpeedRequest url apiKey)
    (fun _ => performBasicPerformanceScan url).

Definition performPerformanceScan (url : string) : M PerformanceSection :=
  try_catch
    (k1 <- getenv "GOOGLE_PAGESPEED_API_KEY" ;;
     k2 <- getenv "PAGE_PAGESPEED_INSIGHTS_API_KEY" ;;
     let pagespeedApiKey := if truthy k1 then k1 else k2 in
     if truthy pagespeedApiKey then
       performGooglePageSpeedScan url (or_str pagespeedApiKey "")
     else
       performBasicPerformanceScan url)
    (fun error =>
       ret {| performance_error := Some error;
              score := Some 0;
              load_time_ms := Some 0;
              performance_status := failed;
              image_count := None;
              scripts_count := None;
              stylesheets_count := None;
              compression_enabled := None;
              caching_enabled := None;
              lighthouse_scores := None;
              source := None |}).

Definition accessibilityIssue (severity : string) (count : option Z)
  (message wcag : string) : AccessibilityIssue :=
  {| ai_severity := severity; ai_count := count; ai_message := Some message;
     ai_wcag := Some wcag |}.

(** [severityPoints[severity] || 10] *)
Definition severityPoints : list (string * Z) :=
  [("critical", 25); ("high", 15); ("medium", 8); ("low", 3)].

Fixpoint table_get (t : list (string * Z)) (k : string) : option Z :=
  match t with
  | [] => None
  | (k', v) :: t' => if String.eqb k k' then Some v else table_get t' k
  end.

Definition deduction (issue : AccessibilityIssue) : Z :=
  or_num (table_get severityPoints (ai_severity issue)) 10.

(** [issues.reduce((sum, issue) => sum + deduction(issue), 0)] *)
Definition totalDeduction (issues : list AccessibilityIssue) : Z :=
  fold_left (fun sum issue => sum + deduction issue) issues 0.

Definition fails_level_A (i : AccessibilityIssue) : bool :=
  String.eqb (ai_severity i) "critical" || String.eqb (ai_severity i) "high".

Definition performAccessibilityScan (url : string) : M AccessibilitySection :=
  try_catch
    (response <- fetch url 10000 ;;
     html <- text response ;;
     let issues := [] in
     let imgWithoutAlt := count Patterns.img_without_alt html in
     let issues :=
       pushIf ((imgWithoutAlt >? 0)%Z)
         (accessibilityIssue "critical" (Some imgWithoutAlt)
         (toString imgWithoutAlt ++
          " images missing alt text - screen readers cannot describe images")%string
         "WCAG 2.1 Level A (1.1.1)")
         issues in
     let hasLang := Regex.test true Patterns.html_lang html in
     let issues :=
       pushIf (negb hasLang)
         (accessibilityIssue "high" None
            "Missing lang attribute on html element - affects screen reader pronunciation"
            "WCAG 2.1 Level A (3.1.1)")
         issues in
     let buttonWithoutText := count Patterns.empty_button html in
     let issues :=
       pushIf ((buttonWithoutText >? 0)%Z)
         (accessibilityIssue "critical" (Some buttonWithoutText)
         (toString buttonWithoutText ++
          " buttons without accessible text - screen readers cannot announce purpose")%string
         "WCAG 2.1 Level A (4.1.2)")
         issues in
     let inputCount := count (Patterns.tag "input") html in
     let labelCount := count (Patterns.tag "label") html in
     let issues :=
       pushIf ((inputCount >? labelCount + 2)%Z)
         (accessibilityIssue "high" (Some (inputCount - labelCount))
         (toString (inputCount - labelCount) ++
          " form inputs possibly without labels - difficult for screen reader users")%string
         "WCAG 2.1 Level A (1.3.1, 3.3.2)")
         issues in
     let headingsMatch := Regex.matchAll true Patterns.heading html in
     let h1Count := count (Patterns.tag "h1") html in
     let issues :=
       if (h1Count =? 0)%Z && (len headingsMatch >? 0)%Z
       then issues ++ [accessibilityIssue "medium" None
         "Page has no H1 heading - impacts document structure and navigation"
         "WCAG 2.1 Level A (1.3.1)"]
       else if (h1Count >? 1)%Z
       then issues ++ [accessibilityIssue "medium" None
         ("Page has " ++ toString h1Count ++
          " H1 headings - should typically have only one")%string
         "WCAG 2.1 Best Practice"]
       else issues in
     let linksWithoutText := count Patterns.empty_link html in
     let issues :=
       pushIf ((linksWithoutText >? 0)%Z)
         (accessibilityIssue "high" (Some linksWithoutText)
         (toString linksWithoutText ++
          " links without text - screen readers cannot announce destination")%string
         "WCAG 2.1 Level A (2.4.4)")
         issues in
     let hasSkipLink := Regex.test true Patterns.skip_link html in
     let issues :=
       pushIf (negb hasSkipLink)
         (accessibilityIssue "low" None
            "No skip navigation link found - keyboard users must tab through all navigation"
            "WCAG 2.1 Level A (2.4.1)")
         issues in
     let tabindexNegative := count Patterns.negative_tabindex html in
     let issues :=
       pushIf ((tabindexNegative >? 0)%Z)
         (accessibilityIssue "medium" (Some tabindexNegative)
         (toString tabindexNegative ++
          " elements with negative tabindex - removes from keyboard navigation")%string
         "WCAG 2.1 Level A (2.1.1)")
         issues in
     ret {| accessibility_issues := Some issues;
            total_issues := Some (len issues);
            accessibility_score := Some (Z.max 0 (100 - totalDeduction issues));
            wcag_level :=
              Some (if existsb fails_level_A issues
                    then "Fails Level A"
                    else "Passes Level A (potential AA issues)");
            accessibility_status := completed;
            accessibility_error := None |})
    (fun error =>
       ret {| accessibility_error := Some error;
              accessibility_status := failed;
              accessibility_issues := Some [];
              total_issues := Some 0;
              accessibility_score := Some 0;
              wcag_level := Some "Unable to determine" |}).

Definition technology (name confidence : string) (version : option string)
  (category : string) : Technology :=
  {| tech_name := name; tech_confidence := confidence; tech_version := version;
     tech_category := category |}.

(** [s.match(re)] as a condition, without and with the flag [i]. *)
Definition matches (r : Regex.regex) (s : string) : bool := Regex.test false r s.
Definition matches_i (r : Regex.regex) (s : string) : bool := Regex.test true r s.

Definition detectTechStack (url : string) : M TechStackSection :=
  try_catch
    (response <- fetch url 10000 ;;
     html <- text response ;;
     let headers := resp_headers response in
     let detected := [] in
     let detected :=
       if includes html "__NEXT_DATA__" || includes html "_next/static"
       then
         let versionMatch := Regex.group false Patterns.build_id 1 html in
         detected ++ [technology "Next.js" "high"
                        (if truthy versionMatch then Some "detected" else None)
                        "Framework"]
       else if includes html "react" || includes html "React"
               || includes html "_react" || matches_i Patterns.react_dom html
       then detected ++ [technology "React" "medium" None "Library"]
       else detected in
     let detected :=
       if includes html "__nuxt" || includes html "_nuxt/"
       then detected ++ [technology "Nuxt.js" "high" None "Framework"]
       else if includes html "vue" || includes html "Vue"
               || matches_i Patterns.vue_js html
       then detected ++ [technology "Vue.js" "medium" None "Framework"]
       else detected in
     let detected :=
       pushIf (includes html "ng-version" || matches_i Patterns.ng_attribute html)
         (let versionMatch := Regex.group false Patterns.ng_version 1 html in
          technology "Angular" "high" versionMatch "Framework")
         detected in
     let detected :=
       pushIf (includes html "wp-content" || includes html "wp-includes"
               || includes html "/wordpress/")
         (let versionMatch := Regex.group false Patterns.wp_theme_version 1 html in
          technology "WordPress" "high" versionMatch "CMS")
         detected in
     let detected :=
       pushIf (includes html "Drupal" || matches_i Patterns.drupal_modules html)
         (technology "Drupal" "high" None "CMS")
         detected in
     let detected :=
       pushIf (includes html "__svelte" || matches_i Patterns.svelte_script html)
         (technology "Svelte" "medium" None "Framework")
         detected in
     let detected :=
       pushIf (matches_i Patterns.jquery_any html)
         (let versionMatch := Regex.group true Patterns.jquery_version 1 html in
          technology "jQuery" "high" versionMatch "Library")
         detected in
     let detected :=
       pushIf (includes html "tailwind" || matches Patterns.tailwind_class html)
         (technology "Tailwind CSS" "medium" None "CSS Framework")
         detected in
     let detected :=
       pushIf (matches Patterns.bootstrap_class html && negb (includes html "tailwind"))
         (technology "Bootstrap" "low" None "CSS Framework")
         detected in
     let poweredBy := headers_get headers "x-powered-by" in
     let detected :=
       pushIf (truthy poweredBy)
         (technology (or_str poweredBy "") "high" None "Server")
         detected in
     let server := headers_get headers "server" in
     let detected :=
       pushIf (truthy server)
         (let parts := split "/" (or_str server "") in
          technology (nth 0 parts "") "high" (nth_error parts 1) "Web Server")
         detected in
     let detected :=
       pushIf (truthy (headers_get headers "x-aspnet-version")
               || truthy (headers_get headers "x-aspnetmvc-version"))
         (let v := headers_get headers "x-aspnet-version" in
          technology "ASP.NET" "high" (if truthy v then v else None) "Framework")
         detected in
     ret {| detected := Some detected;
            total_detected := Some (len detected);
            techStack_status := completed;
            techStack_error := None |})
    (fun error =>
       ret {| techStack_error := Some error;
              detected := Some [];
              total_detected := Some 0;
              techStack_status := failed |}).

(** ** The orchestrator

    [performScan] runs the six analyzers in a fixed order, each inside a
    handler of its own.  The orchestrator is written once over six
    arbitrary analyzers, so that what its handlers guarantee can be
    stated for analyzers that do throw; [performScan] is its instance at
    the analyzers of the source. *)

Section Orchestrator.

Variable runE2E : string -> M E2ESection.
Variable runAPI : string -> M APISection.
Variable runSecurity : string -> M SecuritySection.
Variable runPerformance : string -> M PerformanceSection.
Variable runAccessibility : string -> M AccessibilitySection.
Variable runTechStack : string -> M TechStackSection.

Definition set_e2e (r : PipelineResults) (v : E2ESection) : PipelineResults :=
  {| e2e := Some v; api := api r; security := security r;
     performance := performance r; accessibility := accessibility r;
     techStack := techStack r |}.

Definition set_api (r : PipelineResults) (v : APISection) : PipelineResults :=
  {| e2e := e2e r; api := Some v; security := security r;
     performance := performance r; accessibility := accessibility r;
     techStack := techStack r |}.

Definition set_security (r : PipelineResults) (v : SecuritySection) : PipelineResults :=
  {| e2e := e2e r; api := api r; security := Some v;
     performance := performance r; accessibility := accessibility r;
     techStack := techStack r |}.

Definition set_performance (r : PipelineResults) (v : PerformanceSection) : PipelineResults :=
  {| e2e := e2e r; api := api r; security := security r;
     performance := Some v; accessibility := accessibility r;
     techStack := techStack r |}.

Definition set_accessibility (r : PipelineResults) (v : AccessibilitySection) : PipelineResults :=
  {| e2e := e2e r; api := api r; security := security r;
     performance := performance r; accessibility := Some v;
     techStack := techStack r |}.

Definition set_techStack (r : PipelineResults) (v : TechStackSection) : PipelineResults :=
  {| e2e := e2e r; api := api r; security := security r;
     performance := performance r; accessibility := accessibility r;
     techStack := Some v |}.

Definition allPending : PipelineResults :=
  {| e2e := Some (bareE2E pending None);
     api := Some (bareAPI pending None);
     security := Some (bareSecurity pending None);
     performance := Some (barePerformance pending None);
     accessibility := Some (bareAccessibility pending None);
     techStack := Some (bareTechStack pending None) |}.

Definition orchestrate (url : string) : M PipelineResults :=
  let results := allPending in
  results <- try_catch
    (v <- runE2E url ;; ret (set_e2e results v))
    (fun _ => ret (set_e2e results (bareE2E failed (Some "E2E scan failed")))) ;;
  results <- try_catch
    (v <- runAPI url ;; ret (set_api results v))
    (fun _ => ret (set_api results (bareAPI failed (Some "API scan failed")))) ;;
  results <- try_catch
    (v <- runSecurity url ;; ret (set_security results v))
    (fun _ => ret (set_security results
                     (bareSecurity failed (Some "Security scan failed")))) ;;
  results <- try_catch
    (v <- runPerformance url ;; ret (set_performance results v))
    (fun _ => ret (set_performance results
                     (barePerformance failed (Some "Performance scan failed")))) ;;
  results <- try_catch
    (v <- runAccessibility url ;; ret (set_accessibility results v))
    (fun _ => ret (set_accessibility results
                     (bareAccessibility failed (Some "Accessibility scan failed")))) ;;
  results <- try_catch
    (v <- runTechStack url ;; ret (set_techStack results v))
    (fun _ => ret (set_techStack results
                     (bareTechStack failed (Some "Tech detection failed")))) ;;
  ret results.

End Orchestrator.

Definition performScan (url : string) : M PipelineResults :=
  orchestrate performE2EScan performAPIScan performSecurityScan
    performPerformanceScan performAccessibilityScan detectTechStack url.

(** ** Aggregation *)

(** [obj?.field] *)
Definition field {A B} (o : option A) (f : A -> option B) : option B :=
  match o with
  | Some a => f a
  | None => None
  end.

Definition sortOrder : list (string * Z) :=
  [("critical", 0); ("high", 1); ("medium", 2); ("low", 3)].

(** [sortOrder[issue.severity] || 99] *)
Definition sortKey (i : TopIssue) : Z :=
  or_num (table_get sortOrder (ti_severity i)) 99.

Definition topOfSecurity (issue : SecurityIssue) : TopIssue :=
  {| ti_category := or_str (si_category issue) "Security";
     ti_severity := or_str (Some (si_severity issue)) "low";
     ti_description := or_str (si_description issue) (or_str (si_message issue) "") |}.

Definition topOfAccessibility (issue : AccessibilityIssue) : TopIssue :=
  {| ti_category := "Accessibility";
     ti_severity := or_str (Some (ai_severity issue)) "low";
     ti_description := or_str (ai_message issue) "" |}.

Definition poorPerformance (score : Z) : TopIssue :=
  {| ti_category := "Performance";
     ti_severity := "high";
     ti_description :=
       ("Poor performance score (" ++ toString score ++ "/100) - site loads slowly")%string |}.

Definition collectIssues (scanResults : PipelineResults) : list TopIssue :=
  let issues := [] in
  let issues :=
    match field (security scanResults) security_issues with
    | Some l => issues ++ map topOfSecurity l
    | None => issues
    end in
  let issues :=
    match field (accessibility scanResults) accessibility_issues with
    | Some l => issues ++ map topOfAccessibility l
    | None => issues
    end in
  let issues :=
    match field (performance scanResults) score with
    | Some s => if (s <? 50)%Z then issues ++ [poorPerformance s] else issues
    | None => issues
    end in
  issues.

Definition extractTopIssues (scanResults : PipelineResults) : list TopIssue :=
  let issues := collectIssues scanResults in
  let issues := sort (fun a b => sortKey a - sortKey b) issues in
  slice0 10 issues.

(** [section?.status === 'completed'] *)
Definition is_completed (o : option Status) : bool :=
  match o with
  | Some completed => true
  | _ => false
  end.

Definition w_security : float := 0.3.
Definition w_performance : float := 0.25.
Definition w_accessibility : float := 0.25.
Definition w_e2e : float := 0.1.
Definition w_api : float := 0.1.

Definition calculateOverallScore (scanResults : PipelineResults) : Z :=
  let totalScore := 0%float in
  let totalWeight := 0%float in
  let '(totalScore, totalWeight) :=
    if is_completed (option_map security_status (security scanResults)) then
      let secScore :=
        (of_Z (or_num (field (security scanResults) checks_passed) 0)
         / of_Z (or_num (field (security scanResults) checks_performed) 1)
         * 100)%float in
      ((totalScore + secScore * w_security)%float, (totalWeight + w_security)%float)
    else (totalScore, totalWeight) in
  let '(totalScore, totalWeight) :=
    if is_completed (option_map performance_status (performance scanResults)) then
      ((totalScore
        + of_Z (or_num (field (performance scanResults) score) 0) * w_performance)%float,
       (totalWeight + w_performance)%float)
    else (totalScore, totalWeight) in
  let '(totalScore, totalWeight) :=
    if is_completed (option_map accessibility_status (accessibility scanResults)) then
      ((totalScore
        + of_Z (or_num (field (accessibility scanResults) accessibility_score) 0)
          * w_accessibility)%float,
       (totalWeight + w_accessibility)%float)
    else (totalScore, totalWeight) in
  let '(totalScore, totalWeight) :=
    if is_completed (option_map e2e_status (e2e scanResults)) then
      let e2eScore :=
        if (or_num (field (e2e scanResults) buttons_found) 0 >? 0)%Z
        then 80%float else 50%float in
      ((totalScore + e2eScore * w_e2e)%float, (totalWeight + w_e2e)%float)
    else (totalScore, totalWeight) in
  let '(totalScore, totalWeight) :=
    if is_completed (option_map api_status (api scanResults)) then
      let apiScore := 70%float in
      ((totalScore + apiScore * w_api)%float, (totalWeight + w_api)%float)
    else (totalScore, totalWeight) in
  if PrimFloat.ltb 0 totalWeight then Math_round (totalScore / totalWeight) else 0.

(** ** The row handed to the store

    [processScan] from the call of [performScan] on, without the two
    fields of the summary.  The bookkeeping before it (the status update
    and the rate limit of the store) and the summary step are embedded
    further down, in the module [Service]. *)

Record ScanRow : Type := {
  scan_status : string;
  overall_score : Z;
  e2e_results : option E2ESection;
  api_results : option APISection;
  security_results : option SecuritySection;
  performance_results : option PerformanceSection;
  accessibility_results : option AccessibilitySection;
  tech_stack : option TechStackSection;
  top_issues : list TopIssue;
  performance_score : Z;
  seo_score : Z;
  accessibility_issue_count : Z;
  security_checks_passed : Z;
  security_checks_total : Z;
  technologies : list string;
  exposed_endpoints : list string
}.

Definition processScan (url : string) : M ScanRow :=
  scanResults <- performScan url ;;
  let topIssues := extractTopIssues scanResults in
  let overallScore := calculateOverallScore scanResults in
  let performanceScore :=
    or_num (field (performance scanResults) score)
      (or_num (field (field (performance scanResults) lighthouse_scores)
                 ls_performance) 0) in
  let seoScore :=
    or_num (field (field (performance scanResults) lighthouse_scores) ls_seo) 0 in
  let accessibilityIssueCount :=
    or_num (field (accessibility scanResults) total_issues) 0 in
  let securityIssues := or_nil (field (security scanResults) security_issues) in
  let securityChecksPassed := Z.max 0 (7 - len securityIssues) in
  let technologies :=
    or_nil (option_map (map tech_name) (field (techStack scanResults) detected)) in
  let exposedEndpoints :=
    or_nil (option_map (map ep_path) (field (api scanResults) endpoints)) in
  ret {| scan_status := "completed";
         overall_score := overallScore;
         e2e_results := e2e scanResults;
         api_results := api scanResults;
         security_results := security scanResults;
         performance_results := performance scanResults;
         accessibility_results := accessibility scanResults;
         tech_stack := techStack scanResults;
         top_issues := topIssues;
         performance_score := performanceScore;
         seo_score := seoScore;
         accessibility_issue_count := accessibilityIssueCount;
         security_checks_passed := securityChecksPassed;
         security_checks_total := 7;
         technologies := technologies;
         exposed_endpoints := exposedEndpoints |}.

(** ** Vocabulary of the statements *)

(** The page an analyzer works on: its request and the reading of the
    body, with what they leave of the world. *)
Definition fetch_page (url : string) (timeout_ms : Z) : M (Response * string) :=
  response <- fetch url timeout_ms ;;
  html <- text response ;;
  ret (response, html).

Definition optional {A} (c : bool) (x : A) : list A := if c then [x] else [].

(** The severities of the findings of the six checks of the security
    analyzer that can report, in the order of the checks. *)
Definition securityFindings (headers : list (string * string)) (html : string)
  : list string :=
  optional (missing headers "strict-transport-security") "high"
  ++ optional (missing headers "x-content-type-options") "medium"
  ++ optional (missing headers "x-frame-options"
               && missing headers "content-security-policy") "high"
  ++ optional (missing headers "content-security-policy") "medium"
  ++ optional (missing headers "x-xss-protection") "low"
  ++ optional (Regex.test true Patterns.cookie_write html) "high".

(** The deduction of a severity, as the specification words it. *)
Definition pointsOf (severity : string) : Z :=
  if String.eqb severity "critical" then 25
  else if String.eqb severity "high" then 15
  else if String.eqb severity "medium" then 8
  else if String.eqb severity "low" then 3
  else 10.

Definition sumZ (l : list Z) : Z := fold_right Z.add 0 l.

(** The deductions of the basic performance scan, as the specification
    words them. *)
Definition basicDeductions (loadTime : Q) (headers : list (string * string))
  (html : string) : Z :=
  (if Qgt_bool loadTime 3000 then 30 else if Qgt_bool loadTime 1500 then 15 else 0)
  + (if (count (Patterns.tag "img") html >? 20)%Z then 10 else 0)
  + (if (count (Patterns.tag "script") html >? 15)%Z then 10 else 0)
  + (if (count Patterns.stylesheet_link html >? 5)%Z then 5 else 0)
  + (match headers_get headers "content-encoding" with
     | Some v => if includes v "gzip" || includes v "br" then 0 else 15
     | None => 15
     end)
  + (if truthy (headers_get headers "cache-control") then 0 else 10).

(** The severities of the findings of the eight heuristics of the
    accessibility analyzer, in the order of the heuristics. *)
Definition accessibilityFindings (html : string) : list string :=
  optional (count Patterns.img_without_alt html >? 0)%Z "critical"
  ++ optional (negb (Regex.test true Patterns.html_lang html)) "high"
  ++ optional (count Patterns.empty_button html >? 0)%Z "critical"
  ++ optional (count (Patterns.tag "input") html
               >? count (Patterns.tag "label") html + 2)%Z "high"
  ++ optional (((count (Patterns.tag "h1") html =? 0)%Z
                && (count Patterns.heading html >? 0)%Z)
               || (count (Patterns.tag "h1") html >? 1)%Z) "medium"
  ++ optional (count Patterns.empty_link html >? 0)%Z "high"
  ++ optional (negb (Regex.test true Patterns.skip_link html)) "low"
  ++ optional (count Patterns.negative_tabindex html >? 0)%Z "medium".

(** What a handler of the orchestrator leaves in a slot: the section of
    the analyzer, or the bare failed section when the analyzer threw. *)
Definition settle {S : Type} (bare : S) (o : exn + S) : S :=
  match o with
  | inl _ => bare
  | inr v => v
  end.

Definition settled (s : Status) : Prop := s = completed \/ s = failed.

(** What the markup analyzer reports when it fails. *)
Definition e2e_zeroed (s : E2ESection) : Prop :=
  e2e_status s = failed /\
  buttons_found s = Some 0 /\ links_found s = Some 0 /\ forms_found s = Some 0 /\
  primary_actions s = Some [].

(** What the primary actions of a completed markup scan are. *)
Definition primaryActionsOk (l : list string) : Prop :=
  (List.length l <= 5)%nat /\ Forall (fun a => a <> "" /\ trim a = a) l.

(** The results of the orchestrator when its six analyzers end with the
    outcomes [o1] to [o6]. *)
Definition slotsOf (o1 : exn + E2ESection) (o2 : exn + APISection)
  (o3 : exn + SecuritySection) (o4 : exn + PerformanceSection)
  (o5 : exn + AccessibilitySection) (o6 : exn + TechStackSection)
  : PipelineResults :=
  {| e2e := Some (settle (bareE2E failed (Some "E2E scan failed")) o1);
     api := Some (settle (bareAPI failed (Some "API scan failed")) o2);
     security := Some (settle (bareSecurity failed (Some "Security scan failed")) o3);
     performance :=
       Some (settle (barePerformance failed (Some "Performance scan failed")) o4);
     accessibility :=
       Some (settle (bareAccessibility failed (Some "Accessibility scan failed")) o5);
     techStack := Some (settle (bareTechStack failed (Some "Tech detection failed")) o6) |}.


(** The sort key of an issue as a function of the severity it was
    reported with. *)
Definition severityKey (severity : string) : Z :=
  or_num (table_get sortOrder (or_str (Some severity) "low")) 99.

(** No page-speed key is configured. *)
Definition no_pagespeed_key (w : world) : bool :=
  negb (truthy (assoc "GOOGLE_PAGESPEED_API_KEY" (env w)))
  && negb (truthy (assoc "PAGE_PAGESPEED_INSIGHTS_API_KEY" (env w))).

(** The key that is configured. *)
Definition pagespeed_key (w : world) : option string :=
  if truthy (assoc "GOOGLE_PAGESPEED_API_KEY" (env w))
  then assoc "GOOGLE_PAGESPEED_API_KEY" (env w)
  else assoc "PAGE_PAGESPEED_INSIGHTS_API_KEY" (env w).

(** The basic scan is reached from [w] in the world [w_b]: no key is
    configured, or a key is configured and the request to the page-speed
    service threw. *)
Definition fallsBack (url : string) (w w_b : world) : Prop :=
  (no_pagespeed_key w = true /\ w_b = w) \/
  (exists key e,
     pagespeed_key w = Some key /\ key <> "" /\
     googlePageSpeedRequest url key w = (inl e, w_b)).

(** The scores a basic scan synthesizes from its score. *)
Definition synthesized (z : Z) : LighthouseScores :=
  {| ls_performance := Some z; ls_accessibility := None; ls_bestPractices := None;
     ls_seo := Some (Z.max 0 (z - 10)) |}.

(** The two entries of the style-sheet frameworks. *)
Definition tailwindEntry : Technology :=
  technology "Tailwind CSS" "medium" None "CSS Framework".

Definition bootstrapEntry : Technology :=
  technology "Bootstrap" "low" None "CSS Framework".

(** The rank of a severity, as the specification words it. *)
Definition severityRank (severity : string) : Z :=
  if String.eqb severity "critical" then 0
  else if String.eqb severity "high" then 1
  else if String.eqb severity "medium" then 2
  else 3.

Fixpoint sortedBy {A} (key : A -> Z) (l : list A) : bool :=
  match l with
  | [] => true
  | x :: l' =>
      match l' with
      | [] => true
      | y :: _ => (key x <=? key y)%Z && sortedBy key l'
      end
  end.

(** The weighted mean of the specification, on exact rationals: the
    weight and the sub-score of every analyzer that completed.  A number
    that is missing counts as 0. *)
Definition numberOf (o : option Z) : Q :=
  match o with
  | Some z => inject_Z z
  | None => 0%Q
  end.

Definition someButton (o : option Z) : bool :=
  match o with
  | Some n => (n >? 0)%Z
  | None => false
  end.

Definition weightedParts (r : PipelineResults) : list (Q * Q) :=
  (if is_completed (option_map security_status (security r))
   then [(3 # 10,
          numberOf (field (security r) checks_passed)
          / numberOf (field (security r) checks_performed) * 100)%Q]
   else [])
  ++ (if is_completed (option_map performance_status (performance r))
      then [(1 # 4, numberOf (field (performance r) score))%Q]
      else [])
  ++ (if is_completed (option_map accessibility_status (accessibility r))
      then [(1 # 4, numberOf (field (accessibility r) accessibility_score))%Q]
      else [])
  ++ (if is_completed (option_map e2e_status (e2e r))
      then [(1 # 10,
             if someButton (field (e2e r) buttons_found) then 80 else 50)%Q]
      else [])
  ++ (if is_completed (option_map api_status (api r))
      then [(1 # 10, 70)%Q]
      else []).

Definition sumQ (l : list Q) : Q := fold_right Qplus 0%Q l.

Definition weightedMean (parts : list (Q * Q)) : Q :=
  (sumQ (map (fun p => fst p * snd p) parts) / sumQ (map fst parts))%Q.

Definition roundedWeightedMean (r : PipelineResults) : Z :=
  match weightedParts r with
  | [] => 0
  | parts => Qround_half_up (weightedMean parts)
  end.

(** The ranges the analyzers keep their scores in: a completed security
    section has 7 checks of which 1 to 7 passed, and the completed
    performance and accessibility sections have a score from 0 to 100. *)
Definition between_opt (lo hi : Z) (o : option Z) : bool :=
  match o with
  | Some z => (lo <=? z)%Z && (z <=? hi)%Z
  | None => false
  end.

Definition scoresInRange (r : PipelineResults) : bool :=
  (negb (is_completed (option_map security_status (security r)))
   || (between_opt 7 7 (field (security r) checks_performed)
       && between_opt 1 7 (field (security r) checks_passed)))
  && (negb (is_completed (option_map performance_status (performance r)))
      || between_opt 0 100 (field (performance r) score))
  && (negb (is_completed (option_map accessibility_status (accessibility r)))
      || between_opt 0 100 (field (accessibility r) accessibility_score)).

(** What [calculateOverallScore] reads of the results: whether each of
    the five weighted analyzers completed and, if it did, the numbers its
    sub-score is computed from (for the security analyzer the checks
    passed and performed, for the markup analyzer whether a button was
    found). *)
Record Reading : Type := {
  rd_security : option (Z * Z);
  rd_performance : option Z;
  rd_accessibility : option Z;
  rd_e2e : option bool;
  rd_api : bool
}.

Definition reading (r : PipelineResults) : Reading :=
  {| rd_security :=
       if is_completed (option_map security_status (security r))
       then Some (or_num (field (security r) checks_passed) 0,
                  or_num (field (security r) checks_performed) 1)
       else None;
     rd_performance :=
       if is_completed (option_map performance_status (performance r))
       then Some (or_num (field (performance r) score) 0)
       else None;
     rd_accessibility :=
       if is_completed (option_map accessibility_status (accessibility r))
       then Some (or_num (field (accessibility r) accessibility_score) 0)
       else None;
     rd_e2e :=
       if is_completed (option_map e2e_status (e2e r))
       then Some (or_num (field (e2e r) buttons_found) 0 >? 0)%Z
       else None;
     rd_api := is_completed (option_map api_status (api r)) |}.

(** The computation of [calculateOverallScore] on a reading. *)
Definition scoreOf (x : Reading) : Z :=
  let totalScore := 0%float in
  let totalWeight := 0%float in
  let '(totalScore, totalWeight) :=
    match rd_security x with
    | Some (passed, performed) =>
        ((totalScore + (of_Z passed / of_Z performed * 100) * w_security)%float,
         (totalWeight + w_security)%float)
    | None => (totalScore, totalWeight)
    end in
  let '(totalScore, totalWeight) :=
    match rd_performance x with
    | Some p =>
        ((totalScore + of_Z p * w_performance)%float,
         (totalWeight + w_performance)%float)
    | None => (totalScore, totalWeight)
    end in
  let '(totalScore, totalWeight) :=
    match rd_accessibility x with
    | Some a =>
        ((totalScore + of_Z a * w_accessibility)%float,
         (totalWeight + w_accessibility)%float)
    | None => (totalScore, totalWeight)
    end in
  let '(totalScore, totalWeight) :=
    match rd_e2e x with
    | Some b =>
        ((totalScore + (if b then 80 else 50) * w_e2e)%float,
         (totalWeight + w_e2e)%float)
    | None => (totalScore, totalWeight)
    end in
  let '(totalScore, totalWeight) :=
    if rd_api x
    then ((totalScore + 70 * w_api)%float, (totalWeight + w_api)%float)
    else (totalScore, totalWeight) in
  if PrimFloat.ltb 0 totalWeight then Math_round (totalScore / totalWeight) else 0.

(** The weighted parts of the specification on a reading. *)
Definition partsOf (x : Reading) : list (Q * Q) :=
  (match rd_security x with
   | Some (passed, performed) =>
       [(3 # 10, inject_Z passed / inject_Z performed * 100)%Q]
   | None => []
   end)
  ++ (match rd_performance x with
      | Some p => [(1 # 4, inject_Z p)%Q]
      | None => []
      end)
  ++ (match rd_accessibility x with
      | Some a => [(1 # 4, inject_Z a)%Q]
      | None => []
      end)
  ++ (match rd_e2e x with
      | Some b => [(1 # 10, if b then 80 else 50)%Q]
      | None => []
      end)
  ++ (if rd_api x then [(1 # 10, 70)%Q] else []).

(** The rounded weighted mean of a reading with 7 checks performed, in
    integers: with the weights 6, 5, 5, 2, 2 (in twentieths) and the
    sub-scores multiplied by 7, the mean is [num / (7 * den)] and its
    rounding is the quotient of [2 * num + 7 * den] by [14 * den]. *)
Definition meanNum (x : Reading) : Z :=
  (match rd_security x with Some (passed, _) => 6 * (passed * 100) | None => 0 end)
  + 7 * ((match rd_performance x with Some p => 5 * p | None => 0 end)
         + (match rd_accessibility x with Some a => 5 * a | None => 0 end)
         + (match rd_e2e x with Some b => 2 * (if b then 80 else 50) | None => 0 end)
         + (if rd_api x then 2 * 70 else 0)).

Definition meanDen (x : Reading) : Z :=
  (match rd_security x with Some _ => 6 | None => 0 end)
  + (match rd_performance x with Some _ => 5 | None => 0 end)
  + (match rd_accessibility x with Some _ => 5 | None => 0 end)
  + (match rd_e2e x with Some _ => 2 | None => 0 end)
  + (if rd_api x then 2 else 0).

Definition meanFormula (x : Reading) : Z :=
  if (0 <? meanDen x)%Z
  then (2 * meanNum x + 7 * meanDen x) / (14 * meanDen x)
  else 0.

(** The readings of the results whose scores are in range. *)
Definition upTo (lo : Z) (n : nat) : list Z := map (fun k => lo + Z.of_nat k)%Z (seq 0 n).

Definition orNone {A} (l : list A) : list (option A) := None :: map Some l.

Definition securityReadings : list (option (Z * Z)) :=
  orNone (map (fun c => (c, 7%Z)) (upTo 1 7)).

Definition scoreReadings : list (option Z) := orNone (upTo 0 101).

Definition readingOk (x : Reading) : bool :=
  let s := scoreOf x in
  (s =? meanFormula x)%Z && (0 <=? s)%Z && (s <=? 100)%Z.

Definition readingAt (s : option (Z * Z)) (p a : option Z) (e : option bool)
  (i : bool) : bool :=
  readingOk {| rd_security := s; rd_performance := p; rd_accessibility := a;
               rd_e2e := e; rd_api := i |}.

(** [f] holds on all of the product of five lists. *)
Definition forallb5 {A B C D E} (f : A -> B -> C -> D -> E -> bool)
  (la : list A) (lb : list B) (lc : list C) (ld : list D) (le : list E) : bool :=
  forallb (fun a =>
  forallb (fun b =>
  forallb (fun c =>
  forallb (fun d =>
  forallb (fun e => f a b c d e) le) ld) lc) lb) la.

(** ** Sample scans *)

Definition page (st : Z) (h : list (string * string)) (body : string) : Exchange :=
  {| elapsed := 120;
     answer := inr {| resp_status := st; resp_headers := h; resp_text := inr body;
                      resp_json := inl "Unexpected token" |} |}.

(** A site that gives the same answer to each of the six analyzers, seen
    from a runtime without page-speed key and without structured parser. *)
Definition site (x : Exchange) : world :=
  {| env := []; domParser := None; network := [x; x; x; x; x; x]; clock := 0 |}.

(** A world in which no request is answered. *)
Definition offline : world :=
  {| env := []; domParser := None; network := []; clock := 0 |}.

Definition sampleUrl : string := "https://example.com".

Definition sampleHtml : string :=
  "<html><body><img src='a.png'><img src='b.png'><button class='btn'> Go </button><a href='/x'></a><div class='container flex'>x</div><script>fetch('/api/items'); document.cookie = 'a=b'</script></body></html>".

Definition sampleWorld : world := site (page 200 [] sampleHtml).

(** A page that names Tailwind and uses classes of both frameworks. *)
Definition tailwindHtml : string :=
  "<html lang='en'><head><link rel='stylesheet' href='/css/tailwind.min.css'></head><body><div class='container flex'>x</div></body></html>".

(** The world after the first request of [w] has been answered. *)
Definition afterOne (w : world) : world := snd (fetch sampleUrl 10000 w).

(** A page on which the accessibility analyzer reports seven issues, one
    of them critical. *)
Definition crowdedHtml : string :=
  "<html><body><h1>a</h1><h1>b</h1><img src='a.png'><input><input><input><a href='/x'></a><p tabindex='-1'>t</p></body></html>".

(** ** The audits of the page-speed service

    The two detail lists a page-speed scan attaches to its section are
    computed from the audits of the service by
    [extractPageSpeedOpportunities] and [extractPageSpeedDiagnostics].
    An audit is looked up by its identifier; the lookup of an identifier
    the service did not send is [None]. *)

Record AuditDetails : Type := {
  overallSavingsMs : option float
}.

Record PageSpeedAudit : Type := {
  audit_title : option string;
  audit_description : option string;
  audit_score : option float;
  audit_details : option AuditDetails
}.

Definition PageSpeedAudits : Type := string -> option PageSpeedAudit.

Record Opportunity : Type := {
  opp_title : string;
  opp_description : option string;
  opp_score : float;
  opp_savings : float
}.

Record Diagnostic : Type := {
  diag_title : string;
  diag_description : option string;
  diag_score : float
}.

Definition opportunityAudits : list string :=
  ["render-blocking-resources"; "unused-css-rules"; "unused-javascript";
   "modern-image-formats"; "offscreen-images"; "minify-css"; "minify-javascript";
   "reduce-unused-code"].

Definition diagnosticAudits : list string :=
  ["dom-size"; "total-byte-weight"; "mainthread-work-breakdown"; "bootup-time";
   "duplicated-javascript"].

(** [typeof audit.score === 'number' && audit.score < 1] *)
Definition below_one (score : option float) : bool :=
  match score with
  | Some f => PrimFloat.ltb f 1
  | None => false
  end.

Definition extractPageSpeedOpportunities (audits : PageSpeedAudits)
  : list Opportunity :=
  let opportunities :=
    fold_left
      (fun opportunities auditId =>
         match audits auditId with
         | Some audit =>
             match audit_score audit with
             | Some score =>
                 if below_one (Some score) then
                   let savings :=
                     match audit_details audit with
                     | Some details =>
                         match overallSavingsMs details with
                         | Some ms => ms
                         | None => 0%float
                         end
                     | None => 0%float
                     end in
                   opportunities
                   ++ [{| opp_title := or_str (audit_title audit) auditId;
                          opp_description := audit_description audit;
                          opp_score := score;
                          opp_savings := savings |}]
                 else opportunities
             | None => opportunities
             end
         | None => opportunities
         end)
      opportunityAudits [] in
  slice0 5 opportunities.

Definition extractPageSpeedDiagnostics (audits : PageSpeedAudits)
  : list Diagnostic :=
  let diagnostics :=
    fold_left
      (fun diagnostics auditId =>
         match audits auditId with
         | Some audit =>
             match audit_score audit with
             | Some score =>
                 if below_one (Some score) then
                   diagnostics
                   ++ [{| diag_title := or_str (audit_title audit) auditId;
                          diag_description := audit_description audit;
                          diag_score := score |}]
                 else diagnostics
             | None => diagnostics
             end
         | None => diagnostics
         end)
      diagnosticAudits [] in
  slice0 5 diagnostics.

(** ** The written summary

    [generateAIAnalysis] asks a language model for a summary and a list
    of recommendations.  Its request carries no abort signal.  What the
    reply holds is read through two functions of the runtime:
    [replyText] stands for [await response.json()] followed by the chain
    of optional reads down to the text of the first candidate, and
    [JSON_parse] for [JSON.parse] followed by the reads of the two fields
    of its result; each of them can throw. *)

Record AIAnalysis : Type := {
  summary : option string;
  recommendations : list string
}.

Record ParsedReply : Type := {
  parsed_summary : option string;
  parsed_recommendations : option (list string)
}.

(** A request without deadline (the body sent is not looked at by the
    world, which answers requests by their order). *)
Definition post (url body : string) : M Response :=
  fun w =>
    match network w with
    | [] => (inl "error sending request", w)
    | x :: rest =>
        (match answer x with
         | inl e => inl e
         | inr r => inr r
         end,
         {| env := env w; domParser := domParser w; network := rest;
            clock := clock w + elapsed x |})
    end.

Definition newline : string := String "010"%char EmptyString.

(** The three backquotes that open and close a fenced block. *)
Definition fence : string := "```".

(** [s.replace(re, '')] for a pattern anchored at the start of the input
    and for a pattern anchored at its end, both without the flag [g].
    The anchor at the end is the continuation that accepts a state only
    when nothing is left of the input; the search tries the positions
    from left to right and cuts the input at the first one that
    matches. *)
Definition removeAtStart (r : Regex.regex) (s : string) : string :=
  match Regex.match_at false r s None with
  | Some st => Regex.rest st
  | None => s
  end.

Definition at_end (st : Regex.mstate) : option unit :=
  match Regex.rest st with
  | EmptyString => Some tt
  | String _ _ => None
  end.

Definition matches_to_end (r : Regex.regex) (s : string) (p : option ascii) : bool :=
  match Regex.run false r unit at_end (Regex.MState s p 0 []) with
  | Some _ => true
  | None => false
  end.

Fixpoint removeAtEnd_from (r : Regex.regex) (s : string) (p : option ascii)
  : string :=
  if matches_to_end r s p then EmptyString
  else match s with
       | EmptyString => EmptyString
       | String c t => String c (removeAtEnd_from r t (Some c))
       end.

Definition removeAtEnd (r : Regex.regex) (s : string) : string :=
  removeAtEnd_from r s None.

(** The pattern of an opening fence with its tag, followed by white
    space, and the pattern of white space followed by a closing fence. *)
Definition opening_fence (tag : string) : Regex.regex :=
  Regex.cat [Regex.str (fence ++ tag); Regex.star_of [Regex.Space]].

Definition closing_fence : Regex.regex :=
  Regex.cat [Regex.star_of [Regex.Space]; Regex.str fence].

(** The text handed to [JSON.parse]. *)
Definition jsonText (content : string) : string :=
  let jsonStr := trim content in
  if startsWith jsonStr (fence ++ "json") then
    removeAtEnd closing_fence (removeAtStart (opening_fence "json") jsonStr)
  else if startsWith jsonStr fence then
    removeAtEnd closing_fence (removeAtStart (opening_fence "") jsonStr)
  else jsonStr.

Definition issueLine (issue : TopIssue) : string :=
  "- [" ++ ti_severity issue ++ "] " ++ ti_category issue ++ ": "
  ++ ti_description issue.

Definition analysisPrompt (url : string) (scanResults : PipelineResults)
  (topIssues : list TopIssue) (overallScore : Z) : string :=
  "Analyze this website scan for " ++ url ++ ":" ++ newline ++ newline
  ++ "Overall Score: " ++ toString overallScore ++ "/100" ++ newline ++ newline
  ++ "Security Issues: "
  ++ toString (or_num (option_map len (field (security scanResults) security_issues)) 0)
  ++ newline
  ++ "Accessibility Issues: "
  ++ toString (or_num (field (accessibility scanResults) total_issues) 0)
  ++ newline
  ++ "Performance Score: "
  ++ toString (or_num (field (performance scanResults) score) 0) ++ "/100"
  ++ newline ++ newline
  ++ "Top Issues:" ++ newline
  ++ String.concat newline (map issueLine topIssues) ++ newline ++ newline
  ++ "You are a web security and performance expert. Provide concise, actionable technical analysis."
  ++ newline ++ newline
  ++ "Provide:" ++ newline
  ++ "1. A brief 2-3 sentence technical summary" ++ newline
  ++ "2. Top 3-5 actionable recommendations" ++ newline ++ newline
  ++ "Format as JSON: {" ++ String dq "summary" ++ String dq ": "
  ++ String dq "..." ++ String dq ", " ++ String dq "recommendations"
  ++ String dq ": [" ++ String dq "..." ++ String dq ", " ++ String dq "..."
  ++ String dq "]}".

Definition noAnalysis : AIAnalysis := {| summary := None; recommendations := [] |}.

(** [await] of a step of the runtime that can throw. *)
Definition raise {A} (o : exn + A) : M A :=
  match o with
  | inl e => throw e
  | inr a => ret a
  end.

Section Analysis.

Variable replyText : Response -> exn + option string.
Variable JSON_parse : string -> exn + ParsedReply.

Definition generateAIAnalysis (url : string) (scanResults : PipelineResults)
  (topIssues : list TopIssue) (overallScore : Z) : M AIAnalysis :=
  geminiKey <- getenv "GEMINI_API_KEY" ;;
  if negb (truthy geminiKey) then ret noAnalysis
  else
    try_catch
      (let prompt := analysisPrompt url scanResults topIssues overallScore in
       response <-
         post ("https://generativelanguage.googleapis.com/v1beta/models/gemini-2.0-flash:generateContent?key="
               ++ or_str geminiKey "") prompt ;;
       if negb (ok response) then
         txt <- try_catch (text response) (fun _ => ret "") ;;
         ret noAnalysis
       else
         content <- raise (replyText response) ;;
         if negb (truthy content) then ret noAnalysis
         else
           let content := or_str content "" in
           try_catch
             (let jsonStr := jsonText content in
              parsed <- raise (JSON_parse jsonStr) ;;
              ret {| summary :=
                       if truthy (parsed_summary parsed)
                       then parsed_summary parsed else None;
                     recommendations := or_nil (parsed_recommendations parsed) |})
             (fun parseError =>
                ret {| summary := Some content; recommendations := [] |}))
      (fun error => ret noAnalysis).

(** [parseAISummary] of the report function, which reads the summary
    back from the stored row with the same unwrapping. *)
Definition parseAISummary (raw : option string) : AIAnalysis :=
  if negb (truthy raw) then noAnalysis
  else
    let raw := or_str raw "" in
    match JSON_parse (jsonText raw) with
    | inr parsed =>
        {| summary :=
             if truthy (parsed_summary parsed)
             then parsed_summary parsed else None;
           recommendations := or_nil (parsed_recommendations parsed) |}
    | inl _ => {| summary := Some raw; recommendations := [] |}
    end.

End Analysis.

(** ** The service: the store, the rate limit and the entry point

    [processScan] in full, and the handler that starts it.  The store is
    embedded by what the function does with it: the table of the rate
    limits, with one row a host name, and the journal of the updates sent
    to the table of the scans.  The calls of the store client do not
    throw; the one answer the function looks at is the error of the
    update that carries the row.  The clock of the bookkeeping is read
    once a scan ([date_now], in milliseconds). *)

Definition flatten (scanResults : PipelineResults) (topIssues : list TopIssue)
  (overallScore : Z) : ScanRow :=
  let performanceScore :=
    or_num (field (performance scanResults) score)
      (or_num (field (field (performance scanResults) lighthouse_scores)
                 ls_performance) 0) in
  let seoScore :=
    or_num (field (field (performance scanResults) lighthouse_scores) ls_seo) 0 in
  let accessibilityIssueCount :=
    or_num (field (accessibility scanResults) total_issues) 0 in
  let securityIssues := or_nil (field (security scanResults) security_issues) in
  let securityChecksPassed := Z.max 0 (7 - len securityIssues) in
  let technologies :=
    or_nil (option_map (map tech_name) (field (techStack scanResults) detected)) in
  let exposedEndpoints :=
    or_nil (option_map (map ep_path) (field (api scanResults) endpoints)) in
  {| scan_status := "completed";
     overall_score := overallScore;
     e2e_results := e2e scanResults;
     api_results := api scanResults;
     security_results := security scanResults;
     performance_results := performance scanResults;
     accessibility_results := accessibility scanResults;
     tech_stack := techStack scanResults;
     top_issues := topIssues;
     performance_score := performanceScore;
     seo_score := seoScore;
     accessibility_issue_count := accessibilityIssueCount;
     security_checks_passed := securityChecksPassed;
     security_checks_total := 7;
     technologies := technologies;
     exposed_endpoints := exposedEndpoints |}.

Module Service.

Record RateLimit : Type := {
  scan_count : Z;
  window_start : Z;
  last_scan_at : Z
}.

Record StoredRow : Type := {
  row : ScanRow;
  ai_summary : option string;
  ai_recommendations : list string
}.

Inductive Write : Type :=
| SetStatus (scanId status : string)
| SetRow (scanId : string) (r : StoredRow).

Record Server : Type := {
  rate_limits : string -> option RateLimit;
  journal : list Write;
  updateError : option exn;
  net : world
}.

Definition Op (A : Type) : Type := Server -> (exn + A) * Server.

Definition pure {A} (a : A) : Op A := fun s => (inr a, s).

Definition fail {A} (e : exn) : Op A := fun s => (inl e, s).

Definition andThen {A B} (m : Op A) (k : A -> Op B) : Op B :=
  fun s =>
    match m s with
    | (inr a, s') => k a s'
    | (inl e, s') => (inl e, s')
    end.

Definition handle {A} (m : Op A) (h : exn -> Op A) : Op A :=
  fun s =>
    match m s with
    | (inr a, s') => (inr a, s')
    | (inl e, s') => h e s'
    end.

Notation "x <~ m ;; k" := (andThen m (fun x => k))
  (at level 61, m at next level, right associativity).

(** A computation of the analyzers, run on the network of the server. *)
Definition lift {A} (m : M A) : Op A :=
  fun s =>
    let (r, w) := m (net s) in
    (r, {| rate_limits := rate_limits s; journal := journal s;
           updateError := updateError s; net := w |}).

(** [from(scan_results).update({scan_status}).eq(id, scanId)] *)
Definition update_status (scanId status : string) : Op unit :=
  fun s =>
    (inr tt, {| rate_limits := rate_limits s;
                journal := journal s ++ [SetStatus scanId status];
                updateError := updateError s; net := net s |}).

(** [from(scan_results).update(row).eq(id, scanId)], with its error *)
Definition update_row (scanId : string) (r : StoredRow) : Op (option exn) :=
  fun s =>
    (inr (updateError s),
     {| rate_limits := rate_limits s;
        journal := journal s ++ [SetRow scanId r];
        updateError := updateError s; net := net s |}).

(** [from(rate_limits).select().eq(domain, domain).maybeSingle()] *)
Definition select_rate_limit (domain : string) : Op (option RateLimit) :=
  fun s => (inr (rate_limits s domain), s).

Definition with_rate_limits (t : string -> option RateLimit) (s : Server) : Server :=
  {| rate_limits := t; journal := journal s; updateError := updateError s;
     net := net s |}.

(** [from(rate_limits).update({scan_count, last_scan_at}).eq(domain, domain)]:
    the two fields of the row of the host are replaced; without such a
    row nothing is changed. *)
Definition update_rate_limit (domain : string) (count last : Z) : Op unit :=
  fun s =>
    (inr tt,
     with_rate_limits
       (fun d =>
          if String.eqb d domain then
            match rate_limits s d with
            | Some r => Some {| scan_count := count;
                                window_start := window_start r;
                                last_scan_at := last |}
            | None => None
            end
          else rate_limits s d) s).

(** [from(rate_limits).insert(row)] *)
Definition insert_rate_limit (domain : string) (r : RateLimit) : Op unit :=
  fun s =>
    (inr tt,
     with_rate_limits
       (fun d => if String.eqb d domain then Some r else rate_limits s d) s).

Record HttpReply : Type := {
  reply_status : Z;
  reply_message : string
}.

Record Request : Type := {
  method : string;
  body : exn + (string * string)
}.

Definition rateLimitExceeded : HttpReply :=
  {| reply_status := 429; reply_message := "Rate limit exceeded for this domain" |}.

Section Scan.

(** [new URL(url).hostname], which throws on a string that is no URL. *)
Variable hostname : string -> exn + string.

(** The summary step; [processScan] calls it inside a handler. *)
Variable analyse : string -> PipelineResults -> list TopIssue -> Z -> M AIAnalysis.

Variable date_now : Z.

Definition processScan (scanId url : string) : Op (option HttpReply) :=
  handle
    (_ <~ update_status scanId "processing" ;;
     domain <~ (match hostname url with
                | inl e => fail e
                | inr h => pure h
                end) ;;
     rateLimit <~ select_rate_limit domain ;;
     let hourAgo := date_now - 60 * 60 * 1000 in
     let exceeded :=
       match rateLimit with
       | Some limit => (window_start limit >? hourAgo)%Z && (scan_count limit >=? 5)%Z
       | None => false
       end in
     if exceeded then
       _ <~ update_status scanId "failed" ;;
       pure (Some rateLimitExceeded)
     else
       _ <~ match rateLimit with
            | Some limit =>
                update_rate_limit domain (scan_count limit + 1) date_now
            | None =>
                insert_rate_limit domain
                  {| scan_count := 1; window_start := date_now;
                     last_scan_at := date_now |}
            end ;;
       scanResults <~ lift (performScan url) ;;
       let topIssues := extractTopIssues scanResults in
       let overallScore := calculateOverallScore scanResults in
       aiAnalysis <~ handle
         (a <~ lift (analyse url scanResults topIssues overallScore) ;;
          pure (summary a, recommendations a))
         (fun aiError => pure (None, [])) ;;
       let (aiSummary, aiRecommendations) := aiAnalysis in
       updateError <~ update_row scanId
         {| row := flatten scanResults topIssues overallScore;
            ai_summary := aiSummary;
            ai_recommendations := aiRecommendations |} ;;
       match updateError with
       | Some e => fail e
       | None => pure None
       end)
    (fun error =>
       _ <~ handle (update_status scanId "failed") (fun updateErr => pure tt) ;;
       pure None).

(** The handler of the function: the scan is started and the reply does
    not wait for it; what [processScan] returns or throws is dropped. *)
Definition serve (req : Request) : Op HttpReply :=
  if String.eqb (method req) "OPTIONS" then
    pure {| reply_status := 200; reply_message := "" |}
  else
    handle
      (b <~ (match body req with
             | inl e => fail e
             | inr b => pure b
             end) ;;
       let (scanId, url) := b in
       _ <~ handle (_ <~ processScan scanId url ;; pure tt)
                   (fun error => pure tt) ;;
       pure {| reply_status := 200; reply_message := "Scan started" |})
      (fun error => pure {| reply_status := 400; reply_message := error |}).

End Scan.

End Service.

(** ** Vocabulary of the further properties *)

(** [w'] is [w] after [n] more requests were made: the environment and
    the parser are the same and [n] answers of the network are used up
    (when fewer are left, all of them). *)
Definition requests (n : nat) (w w' : world) : Prop :=
  env w' = env w /\ domParser w' = domParser w
  /\ network w' = skipn n (network w).

(** The severities that fail level A. *)
Definition failing (severity : string) : bool :=
  String.eqb severity "critical" || String.eqb severity "high".

Definition passesLevelA : string := "Passes Level A (potential AA issues)".

(** A page that sends the four headers the security analyzer asks for. *)
Definition hardenedHeaders : list (string * string) :=
  [("Strict-Transport-Security", "max-age=63072000");
   ("X-Content-Type-Options", "nosniff");
   ("Content-Security-Policy", "default-src 'self'");
   ("X-XSS-Protection", "0")].

Definition hardenedWorld : world :=
  site (page 200 hardenedHeaders "<html lang='en'><body><h1>a</h1></body></html>").


(** The entry of the list of technologies with a given name and
    category is present. *)
Definition listed (name category : string) (l : list Technology) : bool :=
  existsb (fun t => String.eqb (tech_name t) name
                    && String.eqb (tech_category t) category) l.

(** A page of a Next.js site that also carries the markers of React, of
    Nuxt.js and of Vue.js. *)
Definition frameworksHtml : string :=
  "<html lang='en'><body><script src='/_next/static/main.js'></script><div id='__nuxt'>react vue</div></body></html>".

(** The markers of the four script frameworks. *)
Definition nextMarkers (html : string) : bool :=
  includes html "__NEXT_DATA__" || includes html "_next/static".

Definition reactMarkers (html : string) : bool :=
  includes html "react" || includes html "React" || includes html "_react"
  || matches_i Patterns.react_dom html.

Definition nuxtMarkers (html : string) : bool :=
  includes html "__nuxt" || includes html "_nuxt/".

Definition vueMarkers (html : string) : bool :=
  includes html "vue" || includes html "Vue" || matches_i Patterns.vue_js html.


(** The audit of an identifier is reported: it was sent and its score is
    a number below 1. *)
Definition qualifies (audits : PageSpeedAudits) (auditId : string) : bool :=
  match audits auditId with
  | Some audit => below_one (audit_score audit)
  | None => false
  end.

(** The title reported for an identifier: that of its audit, or the
    identifier when the audit has none. *)
Definition titleOf (audits : PageSpeedAudits) (auditId : string) : string :=
  match audits auditId with
  | Some audit => or_str (audit_title audit) auditId
  | None => auditId
  end.

(** The savings of an audit: those of its details, or 0. *)
Definition savingsOf (audit : PageSpeedAudit) : float :=
  match audit_details audit with
  | Some {| overallSavingsMs := Some ms |} => ms
  | _ => 0%float
  end.

(** A page-speed answer in which three of the listed opportunities and
    one diagnostic score below 1. *)
Definition sampleAudits : PageSpeedAudits :=
  fun auditId =>
    if String.eqb auditId "unused-javascript" then
      Some {| audit_title := Some "Reduce unused JavaScript";
              audit_description := None; audit_score := Some 0.5%float;
              audit_details := Some {| overallSavingsMs := Some 450%float |} |}
    else if String.eqb auditId "minify-css" then
      Some {| audit_title := None; audit_description := None;
              audit_score := Some 0%float; audit_details := None |}
    else if String.eqb auditId "offscreen-images" then
      Some {| audit_title := Some "Defer offscreen images";
              audit_description := None; audit_score := Some 1%float;
              audit_details := None |}
    else if String.eqb auditId "dom-size" then
      Some {| audit_title := Some "Avoid an excessive DOM size";
              audit_description := None; audit_score := Some 0.25%float;
              audit_details := None |}
    else if String.eqb auditId "largest-contentful-paint" then
      Some {| audit_title := Some "Largest Contentful Paint";
              audit_description := None; audit_score := Some 0.1%float;
              audit_details := None |}
    else None.

(** A string of white space. *)
Fixpoint blank (s : string) : bool :=
  match s with
  | EmptyString => true
  | String c s' => is_space c && blank s'
  end.

(** A reply of the model that wraps its object in a fenced block. *)
Definition fencedReply : string :=
  " ```json" ++ newline ++ "{'summary': 'ok', 'recommendations': []}" ++ newline
  ++ "``` ".

(** A runtime with the key of the model, and its answer to the one
    request of the summary step. *)
Definition modelWorld (x : Exchange) : world :=
  {| env := [("GEMINI_API_KEY", "k")]; domParser := None; network := [x];
     clock := 0 |}.

(** The rate limit applies: the host has a row whose window started less
    than an hour ago and that counts 5 scans or more. *)
Definition rateLimited (date_now : Z) (o : option Service.RateLimit) : bool :=
  match o with
  | Some limit =>
      (Service.window_start limit >? date_now - 3600000)%Z
      && (Service.scan_count limit >=? 5)%Z
  | None => false
  end.

(** The row of a host after one more scan was accepted. *)
Definition nextLimit (date_now : Z) (o : option Service.RateLimit)
  : Service.RateLimit :=
  match o with
  | Some limit =>
      {| Service.scan_count := Service.scan_count limit + 1;
         Service.window_start := Service.window_start limit;
         Service.last_scan_at := date_now |}
  | None =>
      {| Service.scan_count := 1; Service.window_start := date_now;
         Service.last_scan_at := date_now |}
  end.

(** The server after the two status updates of a scan that is refused or
    whose address is no URL. *)
Definition closedAsFailed (scanId : string) (s : Service.Server) : Service.Server :=
  {| Service.rate_limits := Service.rate_limits s;
     Service.journal :=
       Service.journal s
       ++ [Service.SetStatus scanId "processing"; Service.SetStatus scanId "failed"];
     Service.updateError := Service.updateError s;
     Service.net := Service.net s |}.

(** The arrival of a request: the reading of the clock when it is
    processed, the identifier of the scan and the address. *)
Record Arrival : Type := {
  at_time : Z;
  scan_id : string;
  scan_url : string
}.

Section Arrivals.

Variable hostname : string -> exn + string.
Variable analyse : string -> PipelineResults -> list TopIssue -> Z -> M AIAnalysis.

(** The scans of a list of requests, one after the other. *)
Fixpoint scans (l : list Arrival) (s : Service.Server) : Service.Server :=
  match l with
  | [] => s
  | a :: l' =>
      scans l'
        (snd (Service.processScan hostname analyse (at_time a) (scan_id a)
                (scan_url a) s))
  end.

(** The request is for the host [domain]. *)
Definition forHost (domain : string) (a : Arrival) : bool :=
  match hostname (scan_url a) with
  | inr h => String.eqb h domain
  | inl _ => false
  end.

End Arrivals.

(** A server on which the host of the sample address has used up its
    five scans in a window that started at the time 0. *)
Definition sampleHost (url : string) : exn + string :=
  if startsWith url "https://" then inr "example.com" else inl "Invalid URL".

Definition noSummary (url : string) (scanResults : PipelineResults)
  (topIssues : list TopIssue) (overallScore : Z) : M AIAnalysis :=
  throw "model unavailable".

Definition freshServer : Service.Server :=
  {| Service.rate_limits := fun _ => None; Service.journal := [];
     Service.updateError := None; Service.net := sampleWorld |}.

Definition busyServer : Service.Server :=
  {| Service.rate_limits :=
       fun d => if String.eqb d "example.com"
                then Some {| Service.scan_count := 5; Service.window_start := 0;
                             Service.last_scan_at := 1000 |}
                else None;
     Service.journal := []; Service.updateError := None;
     Service.net := sampleWorld |}.

(** A request for the sample address that arrives at the time [t]. *)
Definition arrival (t : Z) : Arrival :=
  {| at_time := t; scan_id := "scan"; scan_url := sampleUrl |}.


(** ** The answer of the page-speed service *)

(** The performance score of the category [performance] that an answer
    reports, when the answer is a document with a Lighthouse result and
    its categories.  The score itself can be missing. *)
Definition reportedPerformance (x : Exchange) : option (option float) :=
  match answer x with
  | inr response =>
      match resp_json response with
      | inr data =>
          match lighthouseResult data with
          | Some lighthouse =>
              match categories lighthouse with
              | Some cats => Some (cat_performance cats)
              | None => None
              end
          | None => None
          end
      | inl _ => None
      end
  | inl _ => None
  end.

(** A category score is a number from 0 to 1, or is missing. *)
Definition unitScore (o : option float) : bool :=
  match o with
  | Some f => PrimFloat.leb 0 f && PrimFloat.leb f 1
  | None => true
  end.

Definition exchangeInRange (x : Exchange) : bool :=
  match reportedPerformance x with
  | Some o => unitScore o
  | None => true
  end.

(** The request to the page-speed service is the fourth one of a scan,
    after the page loads of the markup, the API and the security
    analyzers, and it is made when a key is configured.  Its answer is
    in range when the performance score it reports, if any, is. *)
Definition pagespeedInRange (w : world) : bool :=
  no_pagespeed_key w
  || match nth_error (network w) 3 with
     | Some x => exchangeInRange x
     | None => true
     end.

(** The world in which the performance analyzer of a scan starts: the
    one the first three analyzers leave. *)
Definition afterThree (url : string) (w : world) : world :=
  snd (performSecurityScan url (snd (performAPIScan url (snd (performE2EScan url w))))).

(** A computation threw. *)
Definition threw {A} (x : (exn + A) * world) : bool :=
  match fst x with
  | inl _ => true
  | inr _ => false
  end.

(** An answer of the page-speed service that reports the performance
    score [f] and nothing else. *)
Definition pagespeedAnswer (f : float) : Exchange :=
  {| elapsed := 900;
     answer :=
       inr {| resp_status := 200; resp_headers := [];
              resp_text := inl "body stream already read";
              resp_json :=
                inr {| lighthouseResult :=
                         Some {| categories :=
                                   Some {| cat_performance := Some f;
                                           cat_accessibility := None;
                                           cat_best_practices := None;
                                           cat_seo := None |};
                                 audits := Some {| observedLoad := None;
                                                   optimizedImages := None;
                                                   textCompression := None;
                                                   longCacheTtl := None |} |} |} |} |}.

Definition refused : Exchange :=
  {| elapsed := 5; answer := inl "connection refused" |}.

(** A runtime with a page-speed key: the target [x] answers the page
    loads, and the service answers [p] to the fourth request. *)
Definition keyedSite (x p : Exchange) : world :=
  {| env := [("GOOGLE_PAGESPEED_API_KEY", "k")]; domParser := None;
     network := [x; x; x; p; x; x]; clock := 0 |}.

(** The target is unreachable and the service reports a performance
    score of 1.5. *)
Definition overdriven : world := keyedSite refused (pagespeedAnswer 1.5).

(** ** The buttons of a page *)

(** The text of every button of a page as the markup analyzer reads it,
    trimmed: the text content of the [button] elements of the structured
    parse, or, in a runtime without parser, the matches of the button
    pattern with their tags removed. *)
Definition buttonTexts (parser : option (string -> Document)) (html : string)
  : list string :=
  match parser with
  | Some parse =>
      map (fun b => trim (or_str (Some b) "")) (doc_buttons (parse html))
  | None =>
      map (fun btn => trim (Regex.removeAll false Patterns.any_tag btn))
          (Regex.matchAll true Patterns.button_pair html)
  end.

(** The primary actions of a page: with a parser the first five texts
    that are not empty; without one the texts of the first five matches,
    less the empty ones. *)
Definition primaryActionsOf (parser : option (string -> Document)) (html : string)
  : list string :=
  match parser with
  | Some _ => firstn 5 (filter nonempty (buttonTexts parser html))
  | None => filter nonempty (firstn 5 (buttonTexts parser html))
  end.

(** ** Names in the list of technologies *)

(** A technology of a given name is in the list, whatever its category. *)
Definition named (name : string) (l : list Technology) : bool :=
  existsb (fun t => String.eqb (tech_name t) name) l.

(** The headers of the answer give a name: it is the value of
    [x-powered-by], or the part of [server] before its first slash. *)
Definition headerNamed (headers : list (string * string)) (name : string) : bool :=
  (truthy (headers_get headers "x-powered-by")
   && String.eqb (or_str (headers_get headers "x-powered-by") "") name)
  || (truthy (headers_get headers "server")
      && String.eqb (nth 0 (split "/" (or_str (headers_get headers "server") "")) "")
                    name).

(** A page that carries a marker of React, served with a header that
    names Next.js. *)
Definition poweredByNext : Exchange :=
  page 200 [("x-powered-by", "Next.js")] "<html lang='en'><body>react</body></html>".
(** * Properties *)

Import Regex.

(** ** Lists and the helpers of the language *)

(** What a computation returned. *)
Lemma returned {A} (a b : A) (w w' : world) :
  (@inr exn A a, w) = (inr b, w') -> a = b.
Proof. intros H. injection H. auto. Qed.

Lemma len_app {A} (l1 l2 : list A) : len (l1 ++ l2) = (len l1 + len l2)%Z.
Proof. unfold len. rewrite length_app. lia. Qed.

Lemma len_nonneg {A} (l : list A) : (0 <= len l)%Z.
Proof. unfold len. lia. Qed.

Lemma or_num_zero (z : Z) : or_num (Some z) 0 = z.
Proof. unfold or_num. destruct (Z.eqb_spec z 0); congruence. Qed.

Lemma firstn_le {A} (n : nat) (l : list A) : (List.length (firstn n l) <= n)%nat.
Proof. rewrite length_firstn. lia. Qed.

Lemma In_firstn_of {A} (n : nat) (l : list A) (x : A) :
  In x (firstn n l) -> In x l.
Proof.
  intros H. rewrite <- (firstn_skipn n l). apply in_or_app. left. exact H.
Qed.

Lemma Forall_firstn_of {A} (P : A -> Prop) (n : nat) (l : list A) :
  Forall P l -> Forall P (firstn n l).
Proof.
  intros H. revert n. induction H as [|x l Hx Hl IH]; intros [|n]; simpl; auto.
Qed.

Lemma filter_le {A} (f : A -> bool) (l : list A) :
  (List.length (filter f l) <= List.length l)%nat.
Proof.
  induction l as [|x l IH]; simpl; [lia |].
  destruct (f x); simpl; lia.
Qed.

Lemma Forall_filter_of {A} (f : A -> bool) (l : list A) :
  Forall (fun x => f x = true) (filter f l).
Proof.
  apply Forall_forall. intros x Hx. apply filter_In in Hx. tauto.
Qed.

Lemma Forall_filter_keeps {A} (P : A -> Prop) (f : A -> bool) (l : list A) :
  Forall P l -> Forall P (filter f l).
Proof.
  intros H. apply Forall_forall. intros x Hx. apply filter_In in Hx.
  rewrite Forall_forall in H. apply H. tauto.
Qed.

Lemma nonempty_spec (s : string) : nonempty s = true <-> s <> "".
Proof.
  unfold nonempty. destruct (String.eqb_spec s ""); simpl; split; congruence.
Qed.

(** Trimming twice is trimming once. *)
Lemma trimStart_head (s : string) (c : ascii) (t : string) :
  trimStart s = String c t -> is_space c = false.
Proof.
  induction s as [|d s IH]; simpl; [discriminate |].
  destruct (is_space d) eqn:E; [exact IH |].
  intros H. injection H as -> _. exact E.
Qed.

Lemma trimEnd_cons (c : ascii) (t : string) :
  is_space c = false -> trimEnd (String c t) = String c (trimEnd t).
Proof.
  intros E. simpl. destruct (trimEnd t); [rewrite E |]; reflexivity.
Qed.

Lemma trimEnd_idem (s : string) : trimEnd (trimEnd s) = trimEnd s.
Proof.
  induction s as [|c s IH]; [reflexivity |].
  simpl. destruct (trimEnd s) as [|d u] eqn:E.
  - destruct (is_space c) eqn:Ec; [reflexivity |].
    simpl. rewrite Ec. reflexivity.
  - change (trimEnd (String c (String d u))) with
      (match trimEnd (String d u) with
       | EmptyString => if is_space c then EmptyString else String c EmptyString
       | t => String c t
       end).
    rewrite IH. reflexivity.
Qed.

Lemma trim_idem (s : string) : trim (trim s) = trim s.
Proof.
  unfold trim. destruct (trimStart s) as [|c t] eqn:E; [reflexivity |].
  pose proof (trimStart_head _ _ _ E) as Ec.
  rewrite (trimEnd_cons c t Ec). simpl. rewrite Ec.
  rewrite <- (trimEnd_cons c t Ec). apply trimEnd_idem.
Qed.

(** A search with the flag [g] finds something exactly when the search
    without it does. *)
Lemma matchAll_from_nil ic r s p :
  matchAll_from ic r s p 0 = [] <-> exec_from ic r s p = None.
Proof.
  revert p. induction s as [|c s IH]; intros p; simpl.
  - destruct (match_at ic r "" p); split; intros H; congruence.
  - destruct (match_at ic r (String c s) p).
    + split; intros H; discriminate.
    + apply IH.
Qed.

Lemma matchAll_test ic r s :
  (0 <? len (matchAll ic r s))%Z = test ic r s.
Proof.
  unfold matchAll, test, exec.
  destruct (exec_from ic r s None) eqn:E.
  - destruct (matchAll_from ic r s None 0) eqn:F.
    + apply matchAll_from_nil in F. congruence.
    + reflexivity.
  - apply matchAll_from_nil in E. rewrite E. reflexivity.
Qed.

Lemma count_positive r s : (count r s >? 0)%Z = test true r s.
Proof. unfold count. rewrite Z.gtb_ltb. apply matchAll_test. Qed.

(** ** The sort *)

Section Sorting.

Context {A : Type} (key : A -> Z).

Let cmp := fun a b => (key a - key b)%Z.

Lemma insert_filter_length (f : A -> bool) (x : A) (l : list A) :
  List.length (filter f (insert cmp x l)) = List.length (filter f (x :: l)).
Proof.
  induction l as [|y l IH]; [reflexivity |].
  simpl. destruct (cmp x y <=? 0)%Z; [reflexivity |].
  simpl in *. destruct (f y), (f x); simpl in *; lia.
Qed.

Lemma sort_filter_length (f : A -> bool) (l : list A) :
  List.length (filter f (sort cmp l)) = List.length (filter f l).
Proof.
  induction l as [|x l IH]; [reflexivity |].
  simpl sort. rewrite insert_filter_length. simpl.
  destruct (f x); simpl; lia.
Qed.

Lemma insert_In (x y : A) (l : list A) : In y (insert cmp x l) <-> y = x \/ In y l.
Proof.
  induction l as [|z l IH]; simpl; [intuition congruence |].
  destruct (cmp x z <=? 0)%Z; simpl; [intuition congruence |].
  rewrite IH. intuition congruence.
Qed.

Lemma sort_In (y : A) (l : list A) : In y (sort cmp l) <-> In y l.
Proof.
  induction l as [|x l IH]; simpl; [tauto |].
  rewrite insert_In, IH. intuition congruence.
Qed.

Lemma insert_length (x : A) (l : list A) :
  List.length (insert cmp x l) = S (List.length l).
Proof.
  induction l as [|y l IH]; [reflexivity |].
  simpl. destruct (cmp x y <=? 0)%Z; simpl; congruence.
Qed.

Lemma sort_length (l : list A) : List.length (sort cmp l) = List.length l.
Proof.
  induction l as [|x l IH]; [reflexivity |].
  simpl. rewrite insert_length. congruence.
Qed.

(** The result is in the order of the keys. *)
Lemma sortedBy_cons (x : A) (l : list A) :
  sortedBy key (x :: l) = true <->
  (forall y, In y l -> (key x <= key y)%Z) /\ sortedBy key l = true.
Proof.
  revert x. induction l as [|z l IH]; intros x.
  - simpl. intuition.
  - change (sortedBy key (x :: z :: l))
      with ((key x <=? key z)%Z && sortedBy key (z :: l)).
    rewrite andb_true_iff, Z.leb_le. split.
    + intros [Hxz Hs]. split; [| exact Hs].
      intros y [<- | Hy]; [exact Hxz |].
      apply IH in Hs. destruct Hs as [Hz _]. specialize (Hz y Hy). lia.
    + intros [Hall Hs]. split; [apply Hall; left; reflexivity | exact Hs].
Qed.

Lemma insert_sorted (x : A) (l : list A) :
  sortedBy key l = true -> sortedBy key (insert cmp x l) = true.
Proof.
  induction l as [|z l IH]; intros Hs; [reflexivity |].
  simpl insert. unfold cmp at 1. destruct (Z.leb_spec (key x - key z) 0) as [Hle | Hgt].
  - apply sortedBy_cons. split; [| exact Hs].
    apply sortedBy_cons in Hs. destruct Hs as [Hz _].
    intros y [<- | Hy]; [lia |]. specialize (Hz y Hy). lia.
  - apply sortedBy_cons in Hs. destruct Hs as [Hz Hs].
    apply sortedBy_cons. split; [| apply IH; exact Hs].
    intros y Hy. apply insert_In in Hy. destruct Hy as [-> | Hy]; [lia | auto].
Qed.

Lemma sort_sorted (l : list A) : sortedBy key (sort cmp l) = true.
Proof.
  induction l as [|x l IH]; [reflexivity |].
  simpl. apply insert_sorted. exact IH.
Qed.

(** The sort is stable: the elements of one key keep their order. *)
Lemma insert_stable (k : Z) (x : A) (l : list A) :
  filter (fun a => (key a =? k)%Z) (insert cmp x l)
  = filter (fun a => (key a =? k)%Z) (x :: l).
Proof.
  induction l as [|z l IH]; [reflexivity |].
  simpl insert. unfold cmp at 1. destruct (Z.leb_spec (key x - key z) 0) as [Hle | Hgt].
  - reflexivity.
  - simpl in *. rewrite IH.
    destruct (Z.eqb_spec (key x) k), (Z.eqb_spec (key z) k); try reflexivity. lia.
Qed.

Lemma sort_stable (k : Z) (l : list A) :
  filter (fun a => (key a =? k)%Z) (sort cmp l)
  = filter (fun a => (key a =? k)%Z) l.
Proof.
  induction l as [|x l IH]; [reflexivity |].
  simpl sort. rewrite insert_stable. simpl. rewrite IH. reflexivity.
Qed.

(** In a list in the order of the keys, the elements whose key is at most
    [k] are a prefix. *)
Lemma sorted_prefix (k : Z) (l : list A) :
  sortedBy key l = true ->
  firstn (List.length (filter (fun a => (key a <=? k)%Z) l)) l
  = filter (fun a => (key a <=? k)%Z) l.
Proof.
  induction l as [|x l IH]; intros Hs; [reflexivity |].
  apply sortedBy_cons in Hs. destruct Hs as [Hx Hs].
  simpl. destruct (Z.leb_spec (key x) k) as [Hle | Hgt].
  - simpl. rewrite IH by exact Hs. reflexivity.
  - assert (E : filter (fun a => (key a <=? k)%Z) l = []).
    { clear IH Hs. induction l as [|y l IHl]; [reflexivity |].
      simpl. destruct (Z.leb_spec (key y) k) as [Hy | Hy].
      - specialize (Hx y (or_introl eq_refl)). lia.
      - apply IHl. intros z Hz. apply Hx. right. exact Hz. }
    rewrite E. reflexivity.
Qed.

(** An element stays among the first [n] of the sorted list when at most
    [n] elements have a key not above its own. *)
Lemma sort_keeps (n : nat) (x : A) (l : list A) :
  In x l ->
  (List.length (filter (fun a => (key a <=? key x)%Z) l) <= n)%nat ->
  In x (firstn n (sort cmp l)).
Proof.
  intros Hin Hn.
  set (f := fun a => (key a <=? key x)%Z) in *.
  assert (Hf : In x (filter f (sort cmp l))).
  { apply filter_In. split; [apply sort_In; exact Hin |].
    unfold f. apply Z.leb_refl. }
  unfold f in Hf. rewrite <- sorted_prefix in Hf by apply sort_sorted.
  fold f in Hf. rewrite sort_filter_length in Hf.
  remember (List.length (filter f l)) as m.
  replace n with (m + (n - m))%nat by lia.
  clear - Hf. revert Hf. generalize (sort cmp l) as s. generalize (n - m)%nat as d.
  induction m as [|m IH]; intros d s Hf; [destruct Hf |].
  destruct s as [|y s]; [destruct Hf |].
  simpl in *. destruct Hf as [-> | Hf]; [left; reflexivity | right; auto].
Qed.

End Sorting.

(** ** Runs of the analyzers

    Every analyzer returns a section, whatever the network does; what
    the section holds is read off the page the analyzer fetched. *)

Ltac name_conditions :=
  repeat match goal with
         | |- context [missing ?h ?n] =>
             let b := fresh "b" in set (b := missing h n) in *; clearbody b
         | |- context [truthy ?o] =>
             let b := fresh "b" in set (b := truthy o) in *; clearbody b
         | |- context [test ?i ?r ?s] =>
             let b := fresh "b" in set (b := test i r s) in *; clearbody b
         | |- context [Z.gtb ?x ?y] =>
             let b := fresh "b" in set (b := Z.gtb x y) in *; clearbody b
         | |- context [Z.eqb ?x ?y] =>
             let b := fresh "b" in set (b := Z.eqb x y) in *; clearbody b
         end.

Lemma map_pushIf {A B} (f : A -> B) (c : bool) (x : A) (l : list A) :
  map f (pushIf c x l) = map f l ++ optional c (f x).
Proof.
  unfold pushIf, optional. destruct c; [apply map_app |].
  symmetry. apply app_nil_r.
Qed.

Lemma In_pushIf {A} (c : bool) (x y : A) (l : list A) :
  In y (pushIf c x l) <-> In y l \/ (c = true /\ y = x).
Proof.
  unfold pushIf. destruct c.
  - rewrite in_app_iff. simpl. intuition congruence.
  - intuition congruence.
Qed.

Lemma security_run (url : string) (w : world) :
  exists s w',
    performSecurityScan url w = (inr s, w') /\
    match fst (fetch_page url 10000 w) with
    | inr (response, html) =>
        security_status s = completed /\
        checks_performed s = Some 7 /\
        exists issues,
          security_issues s = Some issues /\
          checks_passed s = Some (7 - len issues) /\
          map si_severity issues = securityFindings (resp_headers response) html
    | inl e =>
        security_status s = failed /\
        security_error s = Some e /\
        security_issues s = Some [] /\
        checks_performed s = Some 0 /\
        checks_passed s = Some 0
    end.
Proof.
  unfold performSecurityScan, fetch_page, try_catch, bind.
  destruct (fetch url 10000 w) as [[e | response] w1].
  - do 2 eexists. split; [reflexivity |]. simpl. repeat split.
  - unfold text. destruct (resp_text response) as [e | html]; unfold throw, ret.
    + do 2 eexists. split; [reflexivity |]. simpl. repeat split.
    + do 2 eexists. split; [reflexivity |].
      cbn [fst security_status checks_performed security_issues checks_passed].
      split; [reflexivity |]. split; [reflexivity |].
      eexists. split; [reflexivity |]. split; [reflexivity |].
      unfold securityFindings.
      rewrite !map_pushIf, matchAll_test. cbn [map app si_severity securityIssue].
      rewrite <- !app_assoc. reflexivity.
Qed.

Lemma securityFindings_length h html :
  (List.length (securityFindings h html) <= 6)%nat.
Proof.
  unfold securityFindings. name_conditions.
  destruct b, b0, b1, b2, b3, b4; simpl; lia.
Qed.

(** C3. A completed security scan reports 7 checks performed and
    7 minus the number of its issues passed; the issues are those of the
    six reporting checks, at most one each, so at most 6, and the check of
    the scheme reports nothing.  When the request or the reading of the
    body fails the scan is failed with 0 checks performed and 0 passed. *)
Theorem performSecurityScan_checks (url : string) (w : world) :
  exists s w',
    performSecurityScan url w = (inr s, w') /\
    (security_status s = completed ->
     checks_performed s = Some 7 /\
     exists issues,
       security_issues s = Some issues /\
       checks_passed s = Some (7 - len issues) /\
       (len issues <= 6)%Z) /\
    match fst (fetch_page url 10000 w) with
    | inr (response, html) =>
        security_status s = completed /\
        option_map (map si_severity) (security_issues s)
        = Some (securityFindings (resp_headers response) html)
    | inl e =>
        security_status s = failed /\
        security_error s = Some e /\
        checks_performed s = Some 0 /\
        checks_passed s = Some 0
    end.
Proof.
  destruct (security_run url w) as (s & w' & Hrun & H).
  exists s, w'. split; [exact Hrun |].
  destruct (fst (fetch_page url 10000 w)) as [e | [response html]].
  - destruct H as (Hs & He & Hi & Hp & Hq).
    split; [rewrite Hs; discriminate | repeat split; assumption].
  - destruct H as (Hs & Hp & issues & Hi & Hq & Hf).
    split.
    + intros _. split; [exact Hp |]. exists issues. repeat split; try assumption.
      pose proof (securityFindings_length (resp_headers response) html) as Hl.
      rewrite <- Hf, length_map in Hl. unfold len. lia.
    + split; [exact Hs |]. rewrite Hi. simpl. rewrite Hf. reflexivity.
Qed.

Lemma performSecurityScan_checks_witness :
  exists s,
    fst (performSecurityScan sampleUrl sampleWorld) = inr s /\
    security_status s = completed /\
    checks_performed s = Some 7 /\ checks_passed s = Some 1.
Proof.
  destruct (performSecurityScan_checks sampleUrl sampleWorld)
    as (s & w' & Hrun & Hdone & _).
  exists s. rewrite Hrun. split; [reflexivity |].
  vm_compute in Hrun. injection Hrun as Hs _. subst s.
  repeat split.
Defined.

Lemma trimmed_actions (f : string -> string) (l : list string) :
  Forall (fun a => a <> "" /\ trim a = a)
    (filter nonempty (map (fun b => trim (f b)) l)).
Proof.
  apply Forall_forall. intros a Ha. apply filter_In in Ha.
  destruct Ha as [Hin Hne]. split; [apply nonempty_spec; exact Hne |].
  apply in_map_iff in Hin. destruct Hin as (b & <- & _). apply trim_idem.
Qed.

Lemma e2e_run (url : string) (w : world) :
  exists s w',
    performE2EScan url w = (inr s, w') /\
    match fst (fetch url 10000 w) with
    | inl e => e2e_zeroed s /\ e2e_error s = Some e
    | inr response =>
        if ok response then
          match resp_text response with
          | inl e => e2e_zeroed s /\ e2e_error s = Some e
          | inr html =>
              e2e_status s = completed /\
              exists l, primary_actions s = Some l /\ primaryActionsOk l
          end
        else
          e2e_zeroed s /\
          e2e_error s = Some ("HTTP " ++ toString (resp_status response))%string
    end.
Proof.
  unfold performE2EScan, try_catch, bind, e2e_zeroed.
  destruct (fetch url 10000 w) as [[e | response] w1]; cbn [fst].
  - do 2 eexists. split; [reflexivity |]. simpl. repeat split.
  - destruct (ok response); cbn [negb].
    + unfold text. destruct (resp_text response) as [e | html]; unfold throw, ret.
      * do 2 eexists. split; [reflexivity |]. simpl. repeat split.
      * unfold parseFromString. destruct (domParser w1) as [parse |].
        -- do 2 eexists. split; [reflexivity |].
           cbn [e2e_status primary_actions]. split; [reflexivity |].
           eexists. split; [reflexivity |]. split.
           ++ apply firstn_le.
           ++ apply Forall_firstn_of. apply trimmed_actions.
        -- do 2 eexists. split; [reflexivity |].
           cbn [e2e_status primary_actions]. split; [reflexivity |].
           eexists. split; [reflexivity |]. split.
           ++ eapply Nat.le_trans; [apply filter_le |].
              rewrite length_map. apply firstn_le.
           ++ apply (trimmed_actions (removeAll false Patterns.any_tag)).
    + unfold ret. do 2 eexists. split; [reflexivity |]. simpl. repeat split.
Qed.

Lemma fetch_parser (url : string) (t : Z) (w : world) :
  domParser (snd (fetch url t w)) = domParser w.
Proof.
  unfold fetch. destruct (network w) as [| x rest]; [reflexivity |].
  destruct (Qgt_bool (elapsed x) (inject_Z t)); reflexivity.
Qed.

Lemma primaryActions_incl (parser : option (string -> Document)) (html : string) :
  incl (primaryActionsOf parser html) (buttonTexts parser html).
Proof.
  intros a Ha. unfold primaryActionsOf in Ha. destruct parser as [parse |].
  - apply In_firstn_of in Ha. apply filter_In in Ha. tauto.
  - apply filter_In in Ha. destruct Ha as [Ha _]. apply In_firstn_of in Ha. exact Ha.
Qed.

(** A completed markup scan read the body of an answer that is OK, and
    its primary actions and its count of buttons are those of the page. *)
Lemma e2e_actions (url : string) (w w' : world) (s : E2ESection) :
  performE2EScan url w = (inr s, w') ->
  e2e_status s = completed ->
  exists response html,
    fst (fetch url 10000 w) = inr response /\ ok response = true /\
    resp_text response = inr html /\
    primary_actions s = Some (primaryActionsOf (domParser w) html) /\
    buttons_found s = Some (len (buttonTexts (domParser w) html)).
Proof.
  pose proof (fetch_parser url 10000 w) as Hp.
  unfold performE2EScan, try_catch, bind.
  destruct (fetch url 10000 w) as [[e | response] w1]; cbn [fst snd] in *.
  - unfold ret. intros H Hs. apply returned in H. subst s. discriminate Hs.
  - destruct (ok response) eqn:Hok; cbn [negb].
    + unfold text. destruct (resp_text response) as [e | html] eqn:Ht;
        unfold throw, ret.
      * intros H Hs. apply returned in H. subst s. discriminate Hs.
      * unfold parseFromString. rewrite Hp.
        destruct (domParser w) as [parse |]; intros H _; apply returned in H;
          subst s; exists response, html;
          cbn [primary_actions buttons_found primaryActionsOf buttonTexts];
          unfold slice0, len; rewrite ?firstn_map, ?length_map; repeat split; assumption.
    + unfold ret. intros H Hs. apply returned in H. subst s. discriminate Hs.
Qed.

(** C7. When the request fails (deadline, network) or is answered with
    a status that is not OK, the markup analyzer returns a failed section
    with zero counts, no primary action and an error message; a status
    that is not OK is never reported as completed.  A completed section
    read the body of the page, and its primary actions are button texts
    of that page: at most 5 of them, each trimmed and not empty, taken in
    the order of the page from the texts of its buttons (the first five
    that are not empty with a structured parser; those of the first five
    button matches that are not empty without one). *)
Theorem performE2EScan_failure_and_actions (url : string) (w : world) :
  exists s w',
    performE2EScan url w = (inr s, w') /\
    (forall e, fst (fetch url 10000 w) = inl e ->
       e2e_zeroed s /\ e2e_error s = Some e) /\
    (forall response, fst (fetch url 10000 w) = inr response -> ok response = false ->
       e2e_zeroed s /\
       e2e_error s = Some ("HTTP " ++ toString (resp_status response))%string) /\
    (e2e_status s = failed -> e2e_zeroed s /\ exists msg, e2e_error s = Some msg) /\
    (e2e_status s = completed ->
       exists l, primary_actions s = Some l /\ primaryActionsOk l) /\
    (e2e_status s = completed ->
       exists response html l,
         fst (fetch url 10000 w) = inr response /\ ok response = true /\
         resp_text response = inr html /\
         primary_actions s = Some l /\
         l = primaryActionsOf (domParser w) html /\
         incl l (buttonTexts (domParser w) html) /\
         buttons_found s = Some (len (buttonTexts (domParser w) html))).
Proof.
  destruct (e2e_run url w) as (s & w' & Hrun & H).
  exists s, w'. split; [exact Hrun |].
  assert (Hactions : e2e_status s = completed ->
            exists response html l,
              fst (fetch url 10000 w) = inr response /\ ok response = true /\
              resp_text response = inr html /\
              primary_actions s = Some l /\
              l = primaryActionsOf (domParser w) html /\
              incl l (buttonTexts (domParser w) html) /\
              buttons_found s = Some (len (buttonTexts (domParser w) html))).
  { intros Hs.
    destruct (e2e_actions url w w' s Hrun Hs)
      as (response & html & Hf & Hok & Ht & Hl & Hb).
    exists response, html, (primaryActionsOf (domParser w) html).
    repeat (split; [assumption || reflexivity |]).
    split; [apply primaryActions_incl | exact Hb]. }
  destruct (fst (fetch url 10000 w)) as [e | response].
  - destruct H as [Hz He]. split; [| split; [| split; [| split]]].
    + intros e' E. injection E as <-. split; assumption.
    + intros; discriminate.
    + eauto.
    + destruct Hz as [Hs _]. rewrite Hs. discriminate.
    + exact Hactions.
  - split; [intros; discriminate |]. split.
    + intros r E Hok. injection E as <-. rewrite Hok in H. exact H.
    + destruct (ok response).
      * destruct (resp_text response) as [e | html].
        -- destruct H as [Hz He]. split; [eauto |].
           split; [| exact Hactions].
           destruct Hz as [Hs _]. rewrite Hs. discriminate.
        -- destruct H as [Hs Hl].
           split; [rewrite Hs; discriminate |]. split; [auto | exact Hactions].
      * destruct H as [Hz He]. split; [eauto |].
        split; [| exact Hactions].
        destruct Hz as [Hs _]. rewrite Hs. discriminate.
Qed.

Lemma performE2EScan_failure_and_actions_witness :
  exists s,
    fst (performE2EScan sampleUrl (site (page 404 [] sampleHtml))) = inr s /\
    e2e_zeroed s /\ e2e_error s = Some "HTTP 404".
Proof.
  destruct (performE2EScan_failure_and_actions sampleUrl (site (page 404 [] sampleHtml)))
    as (s & w' & Hrun & _ & Hbad & _).
  exists s. rewrite Hrun. split; [reflexivity |].
  apply (Hbad {| resp_status := 404; resp_headers := []; resp_text := inr sampleHtml;
                 resp_json := inl "Unexpected token" |}); reflexivity.
Defined.

(** The table of deductions and its default agree with the deductions
    of the specification. *)
Lemma deduction_pointsOf (i : AccessibilityIssue) :
  deduction i = pointsOf (ai_severity i).
Proof.
  unfold deduction, pointsOf, severityPoints, table_get.
  destruct (String.eqb (ai_severity i) "critical"); [reflexivity |].
  destruct (String.eqb (ai_severity i) "high"); [reflexivity |].
  destruct (String.eqb (ai_severity i) "medium"); [reflexivity |].
  destruct (String.eqb (ai_severity i) "low"); reflexivity.
Qed.

Lemma fold_left_deduction (l : list AccessibilityIssue) (acc : Z) :
  fold_left (fun sum issue => sum + deduction issue)%Z l acc
  = (acc + sumZ (map (fun i => pointsOf (ai_severity i)) l))%Z.
Proof.
  revert acc. induction l as [|i l IH]; intros acc; simpl; [lia |].
  rewrite IH, deduction_pointsOf. lia.
Qed.

Lemma totalDeduction_sum (l : list AccessibilityIssue) :
  totalDeduction l = sumZ (map (fun i => pointsOf (ai_severity i)) l).
Proof. unfold totalDeduction. rewrite fold_left_deduction. lia. Qed.

Lemma pointsOf_positive (s : string) : (0 < pointsOf s)%Z.
Proof. unfold pointsOf. repeat destruct (String.eqb s _); lia. Qed.

Lemma sum_points_nonneg (l : list string) : (0 <= sumZ (map pointsOf l))%Z.
Proof.
  induction l as [|s l IH]; simpl; [lia |].
  pose proof (pointsOf_positive s). lia.
Qed.

Lemma existsb_fails_level_A (l : list AccessibilityIssue) :
  existsb fails_level_A l = true <->
  exists i, In i l /\ (ai_severity i = "critical" \/ ai_severity i = "high").
Proof.
  rewrite existsb_exists. unfold fails_level_A.
  split; intros (i & Hin & H); exists i; (split; [exact Hin |]).
  - apply orb_true_iff in H. rewrite !String.eqb_eq in H. exact H.
  - apply orb_true_iff. rewrite !String.eqb_eq. exact H.
Qed.

Lemma accessibility_run (url : string) (w : world) :
  exists s w',
    performAccessibilityScan url w = (inr s, w') /\
    match fst (fetch_page url 10000 w) with
    | inr (response, html) =>
        accessibility_status s = completed /\
        exists issues,
          accessibility_issues s = Some issues /\
          total_issues s = Some (len issues) /\
          accessibility_score s = Some (Z.max 0 (100 - totalDeduction issues)) /\
          wcag_level s =
            Some (if existsb fails_level_A issues
                  then "Fails Level A"
                  else "Passes Level A (potential AA issues)") /\
          map ai_severity issues = accessibilityFindings html
    | inl e =>
        accessibility_status s = failed /\
        accessibility_error s = Some e /\
        accessibility_issues s = Some [] /\
        accessibility_score s = Some 0 /\
        wcag_level s = Some "Unable to determine"
    end.
Proof.
  unfold performAccessibilityScan, fetch_page, try_catch, bind.
  destruct (fetch url 10000 w) as [[e | response] w1].
  - do 2 eexists. split; [reflexivity |]. simpl. repeat split.
  - unfold text. destruct (resp_text response) as [e | html]; unfold throw, ret.
    + do 2 eexists. split; [reflexivity |]. simpl. repeat split.
    + do 2 eexists. split; [reflexivity |].
      cbn [fst accessibility_status accessibility_issues total_issues
           accessibility_score wcag_level].
      split; [reflexivity |]. eexists.
      split; [reflexivity |]. split; [reflexivity |].
      split; [reflexivity |]. split; [reflexivity |].
      unfold accessibilityFindings.
      change (len (matchAll true Patterns.heading html))
        with (count Patterns.heading html).
      rewrite !map_pushIf.
      destruct ((count (Patterns.tag "h1") html =? 0)%Z
                && (count Patterns.heading html >? 0)%Z);
        [| destruct (count (Patterns.tag "h1") html >? 1)%Z];
        cbn [orb]; rewrite ?map_app, !map_pushIf;
        cbn [map app ai_severity accessibilityIssue optional];
        rewrite <- ?app_assoc, ?app_nil_r; reflexivity.
Qed.

(** C5. A completed accessibility scan has the score
    max(0, 100 - the sum of the deductions of its issues), the deductions
    being 25, 15, 8 and 3 for critical, high, medium and low and 10 for
    any other severity; its level is the failing one exactly when one of
    its issues is critical or high, and the passing one otherwise.  When
    the request or the reading of the body fails the scan is failed with
    score 0 and an undetermined level. *)
Theorem performAccessibilityScan_score (url : string) (w : world) :
  exists s w',
    performAccessibilityScan url w = (inr s, w') /\
    (accessibility_status s = completed ->
     exists issues,
       accessibility_issues s = Some issues /\
       accessibility_score s
       = Some (Z.max 0 (100 - sumZ (map (fun i => pointsOf (ai_severity i)) issues))) /\
       ((exists i, In i issues /\ (ai_severity i = "critical" \/ ai_severity i = "high")) ->
        wcag_level s = Some "Fails Level A") /\
       (~ (exists i, In i issues /\ (ai_severity i = "critical" \/ ai_severity i = "high")) ->
        wcag_level s = Some "Passes Level A (potential AA issues)")) /\
    match fst (fetch_page url 10000 w) with
    | inr (response, html) =>
        accessibility_status s = completed /\
        option_map (map ai_severity) (accessibility_issues s)
        = Some (accessibilityFindings html)
    | inl e =>
        accessibility_status s = failed /\
        accessibility_score s = Some 0 /\
        wcag_level s = Some "Unable to determine"
    end.
Proof.
  destruct (accessibility_run url w) as (s & w' & Hrun & H).
  exists s, w'. split; [exact Hrun |].
  destruct (fst (fetch_page url 10000 w)) as [e | [response html]].
  - destruct H as (Hs & He & Hi & Hsc & Hl).
    split; [rewrite Hs; discriminate | repeat split; assumption].
  - destruct H as (Hs & issues & Hi & Ht & Hsc & Hl & Hf).
    split.
    + intros _. exists issues. split; [exact Hi |]. split.
      * rewrite Hsc, totalDeduction_sum. reflexivity.
      * rewrite Hl. split; intros H.
        -- apply existsb_fails_level_A in H. rewrite H. reflexivity.
        -- destruct (existsb fails_level_A issues) eqn:E; [| reflexivity].
           apply existsb_fails_level_A in E. contradiction.
    + split; [exact Hs |]. rewrite Hi. simpl. rewrite Hf. reflexivity.
Qed.

Lemma performAccessibilityScan_score_witness :
  exists s,
    fst (performAccessibilityScan sampleUrl sampleWorld) = inr s /\
    accessibility_score s = Some 42 /\ wcag_level s = Some "Fails Level A".
Proof.
  destruct (performAccessibilityScan_score sampleUrl sampleWorld)
    as (s & w' & Hrun & Hdone & _).
  exists s. rewrite Hrun. split; [reflexivity |].
  vm_compute in Hrun. injection Hrun as Hs _. subst s.
  split; reflexivity.
Defined.

(** ** The performance analyzer *)

Lemma basic_run (url : string) (w : world) :
  match fetch_page url 15000 w with
  | (inl e, w1) => performBasicPerformanceScan url w = (inl e, w1)
  | (inr (response, html), w1) =>
      exists s,
        performBasicPerformanceScan url w = (inr s, w1) /\
        performance_status s = completed /\
        source s = Some "basic-scan" /\
        exists z,
          z = Z.max 0 (100 - basicDeductions (clock w1 - clock w)
                               (resp_headers response) html) /\
          score s = Some z /\
          lighthouse_scores s = Some (synthesized z)
  end.
Proof.
  unfold performBasicPerformanceScan, fetch_page, bind, now.
  destruct (fetch url 15000 w) as [[e | response] w1]; [reflexivity |].
  unfold text. destruct (resp_text response) as [e | html]; unfold throw, ret;
    [reflexivity |].
  eexists. split; [reflexivity |].
  cbn [performance_status source score lighthouse_scores].
  split; [reflexivity |]. split; [reflexivity |].
  eexists. split; [reflexivity |].
  unfold basicDeductions, includes_either, truthy_flag, synthesized.
  destruct (headers_get (resp_headers response) "content-encoding") as [v |];
    [destruct (includes v "gzip" || includes v "br") |];
    destruct (Qgt_bool (clock w1 - clock w) 3000),
             (Qgt_bool (clock w1 - clock w) 1500),
             (count (Patterns.tag "img") html >? 20)%Z,
             (count (Patterns.tag "script") html >? 15)%Z,
             (count Patterns.stylesheet_link html >? 5)%Z,
             (truthy (headers_get (resp_headers response) "cache-control"));
    split; reflexivity.
Qed.

Lemma basicDeductions_range t h html :
  (0 <= Z.max 0 (100 - basicDeductions t h html) <= 100)%Z.
Proof.
  unfold basicDeductions.
  destruct (headers_get h "content-encoding") as [v |];
    [destruct (includes v "gzip" || includes v "br") |];
    destruct (Qgt_bool t 3000), (Qgt_bool t 1500),
             (count (Patterns.tag "img") html >? 20)%Z,
             (count (Patterns.tag "script") html >? 15)%Z,
             (count Patterns.stylesheet_link html >? 5)%Z,
             (truthy (headers_get h "cache-control")); lia.
Qed.

Lemma google_request_result url key w s w' :
  googlePageSpeedRequest url key w = (inr s, w') ->
  performance_status s = completed /\
  source s = Some "google-pagespeed" /\
  exists lh cats, score s = Some (percent (cat_performance cats)) /\
                  categories lh = Some cats.
Proof.
  unfold googlePageSpeedRequest, bind.
  match goal with |- context [fetch ?u ?t w] => destruct (fetch u t w) as [[e | r] w1] end;
    [discriminate |].
  destruct (ok r); cbn [negb]; [| discriminate].
  unfold json. destruct (resp_json r) as [e | data]; [discriminate |].
  unfold ret at 1. unfold member.
  destruct (lighthouseResult data) as [lh |]; [| discriminate].
  unfold ret at 1. destruct (categories lh) as [cats |] eqn:Ec; [| discriminate].
  unfold ret at 1. destruct (audits lh) as [metrics |]; [| discriminate].
  unfold ret. intros H. injection H as <- _.
  cbn [performance_status source score]. repeat split. eauto.
Qed.

Lemma key_choice (w : world) :
  (if truthy (assoc "GOOGLE_PAGESPEED_API_KEY" (env w))
   then assoc "GOOGLE_PAGESPEED_API_KEY" (env w)
   else assoc "PAGE_PAGESPEED_INSIGHTS_API_KEY" (env w)) = pagespeed_key w.
Proof. reflexivity. Qed.

Lemma no_key_spec (w : world) :
  no_pagespeed_key w = negb (truthy (pagespeed_key w)).
Proof.
  unfold no_pagespeed_key, pagespeed_key.
  destruct (truthy (assoc "GOOGLE_PAGESPEED_API_KEY" (env w))) eqn:E;
    simpl; [rewrite E |]; reflexivity.
Qed.

Lemma truthy_key (o : option string) (key : string) :
  o = Some key -> key <> "" -> truthy o = true /\ or_str o "" = key.
Proof.
  intros -> Hne. unfold truthy, or_str.
  destruct (String.eqb_spec key ""); [contradiction | split; reflexivity].
Qed.

(** The four ways a performance scan ends. *)
Lemma performance_run (url : string) (w : world) :
  exists s w',
    performPerformanceScan url w = (inr s, w') /\
    ((performance_status s = failed /\ score s = Some 0 /\ source s = None) \/
     (performance_status s = completed /\ source s = Some "basic-scan" /\
      exists z, score s = Some z /\ (0 <= z <= 100)%Z) \/
     (performance_status s = completed /\ source s = Some "google-pagespeed" /\
      exists lh cats, score s = Some (percent (cat_performance cats)) /\
                      categories lh = Some cats)).
Proof.
  assert (Hbasic : forall w0,
    exists s w',
      try_catch (performBasicPerformanceScan url)
        (fun error =>
           ret {| performance_error := Some error; score := Some 0;
                  load_time_ms := Some 0; performance_status := failed;
                  image_count := None; scripts_count := None;
                  stylesheets_count := None; compression_enabled := None;
                  caching_enabled := None; lighthouse_scores := None;
                  source := None |}) w0 = (inr s, w') /\
      ((performance_status s = failed /\ score s = Some 0 /\ source s = None) \/
       (performance_status s = completed /\ source s = Some "basic-scan" /\
        exists z, score s = Some z /\ (0 <= z <= 100)%Z))).
  { intros w0. unfold try_catch. pose proof (basic_run url w0) as H.
    destruct (fetch_page url 15000 w0) as [[e | [response html]] w1].
    - rewrite H. do 2 eexists. split; [reflexivity |]. left. repeat split.
    - destruct H as (s & -> & Hs & Hsrc & z & Hz & Hsc & _).
      do 2 eexists. split; [reflexivity |]. right. repeat split; try assumption.
      exists z. split; [exact Hsc |]. subst z. apply basicDeductions_range. }
  unfold performPerformanceScan.
  unfold try_catch at 1. unfold bind, getenv. rewrite key_choice.
  destruct (truthy (pagespeed_key w)) eqn:Ek.
  - unfold performGooglePageSpeedScan. unfold try_catch at 1.
    destruct (googlePageSpeedRequest url (or_str (pagespeed_key w) "") w)
      as [[e | s] w1] eqn:Eg.
    + destruct (Hbasic w1) as (s & w' & Hrun & H). unfold try_catch in Hrun.
      destruct (performBasicPerformanceScan url w1) as [[e' | s'] w2].
      * do 2 eexists. split; [exact Hrun |]. tauto.
      * injection Hrun as <- <-. do 2 eexists. split; [reflexivity |]. tauto.
    + do 2 eexists. split; [reflexivity |]. right. right.
      eapply google_request_result. exact Eg.
  - destruct (Hbasic w) as (s & w' & Hrun & H). unfold try_catch in Hrun.
    exists s, w'. split; [exact Hrun | tauto].
Qed.

(** C6 (as amended). Whenever no page-speed key is configured, or the
    request to the page-speed service fails, the performance analyzer
    runs the basic scan.  When the basic scan's own request of the target
    is answered and its body read, the analyzer completes with the source
    [basic-scan], the score max(0, 100 - d) for the deductions d of the
    specification, and the synthesized scores (performance: the score,
    seo: max(0, score - 10)).  When that request fails, the analyzer
    returns a failed section with score 0 and no source. *)
Theorem basic_fallback_score (url : string) (w w_b : world) :
  fallsBack url w w_b ->
  match fetch_page url 15000 w_b with
  | (inr (response, html), w1) =>
      exists s z,
        performPerformanceScan url w = (inr s, w1) /\
        performance_status s = completed /\
        source s = Some "basic-scan" /\
        z = Z.max 0 (100 - basicDeductions (clock w1 - clock w_b)
                             (resp_headers response) html) /\
        score s = Some z /\
        lighthouse_scores s = Some (synthesized z)
  | (inl e, w1) =>
      exists s,
        performPerformanceScan url w = (inr s, w1) /\
        performance_status s = failed /\
        performance_error s = Some e /\
        score s = Some 0 /\
        source s = None
  end.
Proof.
  intros Hfall.
  assert (Hrun : performPerformanceScan url w
                 = try_catch (performBasicPerformanceScan url)
                     (fun error =>
                        ret {| performance_error := Some error; score := Some 0;
                               load_time_ms := Some 0; performance_status := failed;
                               image_count := None; scripts_count := None;
                               stylesheets_count := None;
                               compression_enabled := None;
                               caching_enabled := None; lighthouse_scores := None;
                               source := None |}) w_b).
  { unfold performPerformanceScan.
    unfold try_catch. unfold bind, getenv. rewrite key_choice.
    destruct Hfall as [[Hno ->] | (key & e & Hkey & Hne & Hreq)].
    - rewrite no_key_spec in Hno. apply negb_true_iff in Hno. rewrite Hno.
      reflexivity.
    - destruct (truthy_key _ _ Hkey Hne) as [Ht Ho]. rewrite Ht, Ho.
      unfold performGooglePageSpeedScan, try_catch. rewrite Hreq. reflexivity. }
  rewrite Hrun. unfold try_catch.
  pose proof (basic_run url w_b) as Hb.
  destruct (fetch_page url 15000 w_b) as [[e | [response html]] w1].
  - rewrite Hb. eexists. split; [reflexivity |]. repeat split.
  - destruct Hb as (s & -> & Hs & Hsrc & z & Hz & Hsc & Hl).
    exists s, z. repeat split; assumption.
Qed.

Lemma basic_fallback_score_witness :
  exists s,
    fst (performPerformanceScan sampleUrl sampleWorld) = inr s /\
    source s = Some "basic-scan" /\ score s = Some 75 /\
    lighthouse_scores s = Some (synthesized 75).
Proof.
  assert (Hfall : fallsBack sampleUrl sampleWorld sampleWorld).
  { left. split; reflexivity. }
  pose proof (basic_fallback_score sampleUrl sampleWorld sampleWorld Hfall) as H.
  destruct (fetch_page sampleUrl 15000 sampleWorld) as [[e | [response html]] w1] eqn:E;
    vm_compute in E; [discriminate |].
  injection E as <- <- <-.
  destruct H as (s & z & Hrun & _ & Hsrc & Hz & Hsc & Hl).
  exists s. rewrite Hrun. split; [reflexivity |]. split; [exact Hsrc |].
  vm_compute in Hz. subst z. split; assumption.
Defined.

(** C6 (as stated) fails where no key is configured and the target does
    not answer: the analyzer does not complete, it returns a failed
    section with score 0 and no source. *)
Lemma basic_fallback_can_fail :
  no_pagespeed_key offline = true /\
  exists s,
    fst (performPerformanceScan sampleUrl offline) = inr s /\
    performance_status s = failed /\
    source s = None /\
    score s = Some 0.
Proof.
  split; [reflexivity |]. eexists. split; [vm_compute; reflexivity |]. repeat split.
Qed.

(** ** The API and technology analyzers *)

Lemma api_run (url : string) (w : world) :
  exists s w', performAPIScan url w = (inr s, w') /\ settled (api_status s).
Proof.
  unfold performAPIScan, try_catch, bind, settled.
  destruct (fetch url 10000 w) as [[e | response] w1].
  - do 2 eexists. split; [reflexivity |]. right. reflexivity.
  - unfold text. destruct (resp_text response) as [e | html]; unfold throw, ret;
      do 2 eexists; (split; [reflexivity |]); [right | left]; reflexivity.
Qed.

Lemma In_pushIf_other {A} (c : bool) (x y : A) (l : list A) :
  y <> x -> (In y (pushIf c x l) <-> In y l).
Proof. intros H. rewrite In_pushIf. intuition congruence. Qed.

Lemma In_pushIf_same {A} (c : bool) (x : A) (l : list A) :
  In x (pushIf c x l) <-> In x l \/ c = true.
Proof. rewrite In_pushIf. intuition congruence. Qed.

Ltac other_entry :=
  unfold tailwindEntry, bootstrapEntry, technology in *; cbv zeta in *; congruence.

Lemma tech_run (url : string) (w : world) :
  exists s w',
    detectTechStack url w = (inr s, w') /\
    match fst (fetch_page url 10000 w) with
    | inr (response, html) =>
        techStack_status s = completed /\
        exists l,
          detected s = Some l /\
          (In tailwindEntry l <->
           includes html "tailwind" = true
           \/ matches Patterns.tailwind_class html = true) /\
          (In bootstrapEntry l <->
           matches Patterns.bootstrap_class html = true
           /\ includes html "tailwind" = false)
    | inl e => techStack_status s = failed /\ detected s = Some []
    end.
Proof.
  unfold detectTechStack, fetch_page, try_catch, bind.
  destruct (fetch url 10000 w) as [[e | response] w1].
  - do 2 eexists. split; [reflexivity |]. simpl. split; reflexivity.
  - unfold text. destruct (resp_text response) as [e | html]; unfold throw, ret.
    + do 2 eexists. split; [reflexivity |]. simpl. split; reflexivity.
    + do 2 eexists. split; [reflexivity |].
      cbn [fst techStack_status detected].
      split; [reflexivity |]. eexists. split; [reflexivity |].
      split.
      * rewrite !In_pushIf_other by other_entry.
        change (technology "Tailwind CSS" "medium" None "CSS Framework")
          with tailwindEntry.
        rewrite In_pushIf_same.
        rewrite !In_pushIf_other by other_entry.
        rewrite orb_true_iff.
        match goal with
        | |- (In _ ?base \/ _) <-> _ =>
            assert (Hbase : ~ In tailwindEntry base)
        end.
        { repeat match goal with
                 | |- context [if ?c then _ else _] => destruct c
                 end; simpl; intuition other_entry. }
        tauto.
      * rewrite !In_pushIf_other by other_entry.
        change (technology "Bootstrap" "low" None "CSS Framework")
          with bootstrapEntry.
        rewrite In_pushIf_same.
        rewrite !In_pushIf_other by other_entry.
        rewrite andb_true_iff, negb_true_iff.
        match goal with
        | |- (In _ ?base \/ _) <-> _ =>
            assert (Hbase : ~ In bootstrapEntry base)
        end.
        { repeat match goal with
                 | |- context [if ?c then _ else _] => destruct c
                 end; simpl; intuition other_entry. }
        tauto.
Qed.

(** C8 (as amended). For every fetched body in which both class
    patterns match, the detected list holds the Tailwind entry; it holds
    the Bootstrap entry as well unless the body contains the string
    [tailwind]: it is that string, not the Tailwind pattern, that
    suppresses Bootstrap. *)
Theorem tailwind_and_bootstrap (url : string) (w w1 : world)
  (response : Response) (html : string) :
  fetch_page url 10000 w = (inr (response, html), w1) ->
  matches Patterns.tailwind_class html = true ->
  matches Patterns.bootstrap_class html = true ->
  exists s w' l,
    detectTechStack url w = (inr s, w') /\
    techStack_status s = completed /\
    detected s = Some l /\
    In tailwindEntry l /\
    (includes html "tailwind" = true -> ~ In bootstrapEntry l) /\
    (includes html "tailwind" = false -> In bootstrapEntry l).
Proof.
  intros Hpage Htw Hbs.
  destruct (tech_run url w) as (s & w' & Hrun & H).
  rewrite Hpage in H. cbn [fst] in H.
  destruct H as (Hs & l & Hl & Ht & Hb).
  exists s, w', l. repeat split; try assumption.
  - apply Ht. right. exact Htw.
  - intros Hin Hc. apply Hb in Hc. destruct Hc as [_ Hc]. congruence.
  - intros Hno. apply Hb. split; assumption.
Qed.

Lemma tailwind_and_bootstrap_witness :
  exists s l,
    fst (detectTechStack sampleUrl (site (page 200 [] tailwindHtml))) = inr s /\
    detected s = Some l /\
    In tailwindEntry l /\ ~ In bootstrapEntry l.
Proof.
  destruct (tailwind_and_bootstrap sampleUrl
              (site (page 200 [] tailwindHtml))
              (afterOne (site (page 200 [] tailwindHtml)))
              {| resp_status := 200; resp_headers := []; resp_text := inr tailwindHtml;
                 resp_json := inl "Unexpected token" |}
              tailwindHtml)
    as (s & w' & l & Hrun & _ & Hl & Ht & Hyes & _).
  - vm_compute. reflexivity.
  - vm_compute. reflexivity.
  - vm_compute. reflexivity.
  - exists s, l. rewrite Hrun. split; [reflexivity |].
    split; [exact Hl |]. split; [exact Ht |]. apply Hyes. vm_compute. reflexivity.
Defined.

(** C8 (as stated) fails on a body in which both class patterns match
    and the string [tailwind] does not occur: Bootstrap is listed beside
    Tailwind. *)
Lemma bootstrap_listed_beside_tailwind :
  matches Patterns.tailwind_class sampleHtml = true /\
  matches Patterns.bootstrap_class sampleHtml = true /\
  exists s l,
    fst (detectTechStack sampleUrl sampleWorld) = inr s /\
    detected s = Some l /\
    map tech_name l = ["Tailwind CSS"; "Bootstrap"] /\
    In tailwindEntry l /\ In bootstrapEntry l.
Proof.
  split; [vm_compute; reflexivity |]. split; [vm_compute; reflexivity |].
  do 2 eexists. split; [vm_compute; reflexivity |]. split; [reflexivity |].
  split; [reflexivity |]. simpl. unfold tailwindEntry, bootstrapEntry. tauto.
Qed.

(** ** The orchestrator *)

Section Isolation.

Variable runE2E : string -> M E2ESection.
Variable runAPI : string -> M APISection.
Variable runSecurity : string -> M SecuritySection.
Variable runPerformance : string -> M PerformanceSection.
Variable runAccessibility : string -> M AccessibilitySection.
Variable runTechStack : string -> M TechStackSection.

(** Whatever the six analyzers do, also when they throw, the orchestrator
    returns; each slot holds what its own analyzer returned on the world
    the analyzers before it left, or the bare failed section when its
    own analyzer threw. *)
Lemma orchestrate_run (url : string) (w : world) :
  let o1 := runE2E url w in
  let o2 := runAPI url (snd o1) in
  let o3 := runSecurity url (snd o2) in
  let o4 := runPerformance url (snd o3) in
  let o5 := runAccessibility url (snd o4) in
  let o6 := runTechStack url (snd o5) in
  orchestrate runE2E runAPI runSecurity runPerformance runAccessibility
    runTechStack url w
  = (inr (slotsOf (fst o1) (fst o2) (fst o3) (fst o4) (fst o5) (fst o6)), snd o6).
Proof.
  cbv zeta. unfold orchestrate, try_catch, bind, ret, slotsOf.
  destruct (runE2E url w) as [[e1 | s1] w1]; cbn [fst snd settle];
  destruct (runAPI url w1) as [[e2 | s2] w2]; cbn [fst snd settle];
  destruct (runSecurity url w2) as [[e3 | s3] w3]; cbn [fst snd settle];
  destruct (runPerformance url w3) as [[e4 | s4] w4]; cbn [fst snd settle];
  destruct (runAccessibility url w4) as [[e5 | s5] w5]; cbn [fst snd settle];
  destruct (runTechStack url w5) as [[e6 | s6] w6]; reflexivity.
Qed.

End Isolation.

(** The run of [performScan]: the six analyzers run one after the other,
    each on the world the one before it left, and each returns. *)
Lemma performScan_run (url : string) (w : world) :
  exists s1 w1 s2 w2 s3 w3 s4 w4 s5 w5 s6 w6,
    performE2EScan url w = (inr s1, w1) /\
    performAPIScan url w1 = (inr s2, w2) /\
    performSecurityScan url w2 = (inr s3, w3) /\
    performPerformanceScan url w3 = (inr s4, w4) /\
    performAccessibilityScan url w4 = (inr s5, w5) /\
    detectTechStack url w5 = (inr s6, w6) /\
    performScan url w
    = (inr {| e2e := Some s1; api := Some s2; security := Some s3;
              performance := Some s4; accessibility := Some s5;
              techStack := Some s6 |}, w6).
Proof.
  destruct (e2e_run url w) as (s1 & w1 & H1 & _).
  destruct (api_run url w1) as (s2 & w2 & H2 & _).
  destruct (security_run url w2) as (s3 & w3 & H3 & _).
  destruct (performance_run url w3) as (s4 & w4 & H4 & _).
  destruct (accessibility_run url w4) as (s5 & w5 & H5 & _).
  destruct (tech_run url w5) as (s6 & w6 & H6 & _).
  exists s1, w1, s2, w2, s3, w3, s4, w4, s5, w5, s6, w6.
  repeat (split; [assumption |]).
  unfold performScan. rewrite orchestrate_run.
  rewrite H1. cbn [fst snd]. rewrite H2. cbn [fst snd]. rewrite H3. cbn [fst snd].
  rewrite H4. cbn [fst snd]. rewrite H5. cbn [fst snd]. rewrite H6. reflexivity.
Qed.









(** ** The row handed to the store *)

(** C9. When the security analyzer fails, its slot records 0 checks
    performed and 0 passed and no issue, and the flattened fields of the
    row are computed from the empty list of issues: 7 checks passed out
    of 7. *)
Theorem failed_security_flattened_as_passed (url : string) (w : world) :
  exists row w' s,
    processScan url w = (inr row, w') /\
    security_results row = Some s /\
    security_checks_total row = 7 /\
    (security_status s = failed ->
     security_issues s = Some [] /\
     checks_performed s = Some 0 /\
     checks_passed s = Some 0 /\
     security_checks_passed row = Z.max 0 (7 - len (@nil SecurityIssue)) /\
     security_checks_passed row = 7).
Proof.
  destruct (performScan_run url w)
    as (s1 & w1 & s2 & w2 & s3 & w3 & s4 & w4 & s5 & w5 & s6 & w6 &
        H1 & H2 & H3 & H4 & H5 & H6 & Hrun).
  unfold processScan, bind. rewrite Hrun.
  do 3 eexists. split; [reflexivity |].
  cbn [security_results security_checks_total security_checks_passed security field].
  split; [reflexivity |]. split; [reflexivity |].
  intros Hfailed.
  destruct (security_run url w2) as (s & w' & Hs & H).
  rewrite H3 in Hs. injection Hs as <- <-.
  destruct (fst (fetch_page url 10000 w2)) as [e | [response html]].
  - destruct H as (_ & _ & Hi & Hp & Hq). rewrite Hi. repeat split; assumption.
  - destruct H as (Hc & _). congruence.
Qed.

Lemma failed_security_flattened_as_passed_witness :
  exists row s,
    fst (processScan sampleUrl offline) = inr row /\
    security_results row = Some s /\
    security_status s = failed /\
    checks_passed s = Some 0 /\
    security_checks_passed row = 7.
Proof.
  destruct (failed_security_flattened_as_passed sampleUrl offline)
    as (row & w' & s & Hrun & Hs & _ & H).
  exists row, s. rewrite Hrun. split; [reflexivity |]. split; [exact Hs |].
  assert (Hf : security_status s = failed).
  { vm_compute in Hrun. injection Hrun as <- _. vm_compute in Hs.
    injection Hs as <-. reflexivity. }
  split; [exact Hf |]. destruct (H Hf) as (_ & _ & Hp & _ & H7). tauto.
Defined.

(** ** The top issues *)

Lemma filter_map_length {A B} (p : B -> bool) (g : A -> B) (l : list A) :
  List.length (filter p (map g l)) = List.length (filter (fun x => p (g x)) l).
Proof.
  induction l as [|x l IH]; [reflexivity |].
  simpl. destruct (p (g x)); simpl; congruence.
Qed.

Lemma filter_app_length {A} (p : A -> bool) (l1 l2 : list A) :
  List.length (filter p (l1 ++ l2))
  = (List.length (filter p l1) + List.length (filter p l2))%nat.
Proof. rewrite filter_app, length_app. reflexivity. Qed.

Lemma sortKey_security (i : SecurityIssue) :
  sortKey (topOfSecurity i) = severityKey (si_severity i).
Proof. reflexivity. Qed.

Lemma sortKey_accessibility (i : AccessibilityIssue) :
  sortKey (topOfAccessibility i) = severityKey (ai_severity i).
Proof. reflexivity. Qed.

(** At most three findings of either analyzer are sorted with the high
    ones or before them. *)
Lemma security_high_count h html :
  (List.length (filter (fun s => (severityKey s <=? 1)%Z) (securityFindings h html))
   <= 3)%nat.
Proof.
  unfold securityFindings. name_conditions.
  destruct b, b0, b1, b2, b3, b4; vm_compute; lia.
Qed.

Lemma accessibility_high_count html :
  (List.length (filter (fun s => (severityKey s <=? 1)%Z) (accessibilityFindings html))
   <= 3)%nat.
Proof.
  unfold accessibilityFindings.
  generalize (((count (Patterns.tag "h1") html =? 0)%Z
               && (count Patterns.heading html >? 0)%Z)
              || (count (Patterns.tag "h1") html >? 1)%Z).
  intros b9. name_conditions.
  destruct b, b0, b1, b2, b3, b4, b5, b9; vm_compute; lia.
Qed.

Lemma security_issues_high url w s w' issues :
  performSecurityScan url w = (inr s, w') ->
  security_issues s = Some issues ->
  (List.length (filter (fun i => (sortKey i <=? 1)%Z) (map topOfSecurity issues))
   <= 3)%nat.
Proof.
  intros Hrun Hi. destruct (security_run url w) as (s0 & w0 & Hs & H).
  rewrite Hrun in Hs. injection Hs as <- <-.
  rewrite filter_map_length.
  rewrite (filter_ext _ (fun i => (severityKey (si_severity i) <=? 1)%Z))
    by reflexivity.
  rewrite <- (filter_map_length (fun s => (severityKey s <=? 1)%Z) si_severity).
  destruct (fst (fetch_page url 10000 w)) as [e | [response html]].
  - destruct H as (_ & _ & Hnil & _). rewrite Hnil in Hi. injection Hi as <-.
    simpl. lia.
  - destruct H as (_ & _ & issues0 & Hi0 & _ & Hf). rewrite Hi0 in Hi.
    injection Hi as <-. rewrite Hf. apply security_high_count.
Qed.

Lemma accessibility_issues_high url w s w' issues :
  performAccessibilityScan url w = (inr s, w') ->
  accessibility_issues s = Some issues ->
  (List.length (filter (fun i => (sortKey i <=? 1)%Z) (map topOfAccessibility issues))
   <= 3)%nat.
Proof.
  intros Hrun Hi. destruct (accessibility_run url w) as (s0 & w0 & Hs & H).
  rewrite Hrun in Hs. injection Hs as <- <-.
  rewrite filter_map_length.
  rewrite (filter_ext _ (fun i => (severityKey (ai_severity i) <=? 1)%Z))
    by reflexivity.
  rewrite <- (filter_map_length (fun s => (severityKey s <=? 1)%Z) ai_severity).
  destruct (fst (fetch_page url 10000 w)) as [e | [response html]].
  - destruct H as (_ & _ & Hnil & _). rewrite Hnil in Hi. injection Hi as <-.
    simpl. lia.
  - destruct H as (_ & issues0 & Hi0 & _ & _ & _ & Hf). rewrite Hi0 in Hi.
    injection Hi as <-. rewrite Hf. apply accessibility_high_count.
Qed.

(** C10. When the performance analyzer fails, its slot still carries
    the score 0; 0 is below 50, so the synthetic high issue of the poor
    performance, with the score 0 in its text, is among the top issues of
    the scan. *)
Theorem failed_performance_in_top_issues (url : string) (w : world) :
  exists row w' p,
    processScan url w = (inr row, w') /\
    performance_results row = Some p /\
    (performance_status p = failed ->
     score p = Some 0 /\
     In {| ti_category := "Performance";
           ti_severity := "high";
           ti_description := "Poor performance score (0/100) - site loads slowly" |}
        (top_issues row)).
Proof.
  destruct (performScan_run url w)
    as (s1 & w1 & s2 & w2 & s3 & w3 & s4 & w4 & s5 & w5 & s6 & w6 &
        H1 & H2 & H3 & H4 & H5 & H6 & Hrun).
  unfold processScan, bind. rewrite Hrun.
  do 3 eexists. split; [reflexivity |].
  cbn [performance_results top_issues performance].
  split; [reflexivity |].
  intros Hfailed.
  assert (Hscore : score s4 = Some 0).
  { destruct (performance_run url w3) as (s & w' & Hs & H).
    rewrite H4 in Hs. injection Hs as <- <-.
    destruct H as [(_ & Hz & _) | [(Hc & _) | (Hc & _)]]; [exact Hz | congruence ..]. }
  split; [exact Hscore |].
  change {| ti_category := "Performance"; ti_severity := "high";
            ti_description := "Poor performance score (0/100) - site loads slowly" |}
    with (poorPerformance 0).
  unfold extractTopIssues, slice0.
  apply (sort_keeps sortKey).
  - unfold collectIssues.
    cbn [security accessibility performance field]. rewrite Hscore.
    cbn [Z.ltb Z.compare]. apply in_or_app. right. left. reflexivity.
  - change (sortKey (poorPerformance 0)) with 1%Z.
    unfold collectIssues.
    cbn [security accessibility performance field]. rewrite Hscore.
    cbn [Z.ltb Z.compare app].
    rewrite filter_app_length. cbn [filter List.length].
    change (sortKey (poorPerformance 0) <=? 1)%Z with true. cbn [List.length].
    destruct (security_issues s3) as [ls |] eqn:Es;
      destruct (accessibility_issues s5) as [la |] eqn:Ea;
      cbn [app]; rewrite ?filter_app_length; cbn [filter List.length];
      try pose proof (security_issues_high _ _ _ _ _ H3 Es);
      try pose proof (accessibility_issues_high _ _ _ _ _ H5 Ea);
      lia.
Qed.

Lemma failed_performance_in_top_issues_witness :
  exists row,
    fst (processScan sampleUrl offline) = inr row /\
    In (poorPerformance 0) (top_issues row).
Proof.
  destruct (failed_performance_in_top_issues sampleUrl offline)
    as (row & w' & p & Hrun & Hp & H).
  exists row. rewrite Hrun. split; [reflexivity |].
  apply H. vm_compute in Hrun. injection Hrun as <- _. vm_compute in Hp.
  injection Hp as <-. reflexivity.
Defined.

(** What holds of the top issues of every scan: they are at most 10, in
    the order of the keys the comparison function computes, and among the
    issues of one key in the order in which they were collected. *)
Lemma extractTopIssues_length (r : PipelineResults) :
  (List.length (extractTopIssues r) <= 10)%nat.
Proof. unfold extractTopIssues, slice0. apply firstn_le. Qed.



Lemma extractTopIssues_stable (r : PipelineResults) (k : Z) :
  (List.length (collectIssues r) <= 10)%nat ->
  filter (fun i => (sortKey i =? k)%Z) (extractTopIssues r)
  = filter (fun i => (sortKey i =? k)%Z) (collectIssues r).
Proof.
  intros Hl. unfold extractTopIssues, slice0.
  rewrite firstn_all2 by (rewrite (sort_length sortKey); exact Hl).
  apply (sort_stable sortKey).
Qed.

(** The key of a critical issue is not its rank: the rank 0 is falsy and
    is replaced by 99. *)
Lemma critical_key : severityKey "critical" = 99%Z /\ severityRank "critical" = 0%Z.
Proof. split; reflexivity. Qed.

(** C2 fails on the sample scan: the page has images without [alt] (a
    critical issue) and misses the security headers (high, medium and low
    issues).  The critical issue is the last of the top issues, behind
    the low ones, and the list is not in the order of the ranks. *)
Theorem critical_issue_sorted_last :
  exists r,
    fst (performScan sampleUrl sampleWorld) = inr r /\
    map ti_severity (extractTopIssues r)
    = ["high"; "high"; "high"; "high"; "high"; "medium"; "medium"; "low"; "low";
       "critical"] /\
    sortedBy (fun i => severityRank (ti_severity i)) (extractTopIssues r) = false.
Proof.
  eexists. split; [vm_compute; reflexivity |].
  split; vm_compute; reflexivity.
Qed.

(** On a page with more findings the only critical issues are cut off by
    the limit of 10: none of the top issues is critical. *)
Lemma critical_issue_dropped :
  exists r,
    fst (performScan sampleUrl (site (page 200 [] crowdedHtml))) = inr r /\
    existsb (fun i => String.eqb (ti_severity i) "critical") (collectIssues r) = true /\
    existsb (fun i => String.eqb (ti_severity i) "critical") (extractTopIssues r) = false.
Proof.
  eexists. split; [vm_compute; reflexivity |].
  split; vm_compute; reflexivity.
Qed.

(** ** The overall score *)

Lemma between_opt_spec lo hi o :
  between_opt lo hi o = true -> exists z, o = Some z /\ (lo <= z <= hi)%Z.
Proof.
  unfold between_opt. destruct o as [z |]; [| discriminate].
  intros H. apply andb_true_iff in H. exists z. split; [reflexivity | lia].
Qed.

Lemma calculateOverallScore_reading (r : PipelineResults) :
  calculateOverallScore r = scoreOf (reading r).
Proof.
  unfold calculateOverallScore, scoreOf, reading.
  cbn [rd_security rd_performance rd_accessibility rd_e2e rd_api].
  destruct (is_completed (option_map security_status (security r)));
  destruct (is_completed (option_map performance_status (performance r)));
  destruct (is_completed (option_map accessibility_status (accessibility r)));
  destruct (is_completed (option_map e2e_status (e2e r)));
  destruct (is_completed (option_map api_status (api r))); reflexivity.
Qed.

Lemma weightedParts_reading (r : PipelineResults) :
  scoresInRange r = true -> weightedParts r = partsOf (reading r).
Proof.
  unfold scoresInRange. rewrite !andb_true_iff, !orb_true_iff, !negb_true_iff.
  rewrite andb_true_iff. intros [[Hs _] _].
  unfold weightedParts, partsOf, reading.
  cbn [rd_security rd_performance rd_accessibility rd_e2e rd_api].
  assert (Hn : forall o, numberOf o = inject_Z (or_num o 0)).
  { intros [z |]; [| reflexivity]. rewrite or_num_zero. reflexivity. }
  assert (Hb : forall o, someButton o = (or_num o 0 >? 0)%Z).
  { intros [z |]; [| reflexivity]. rewrite or_num_zero. reflexivity. }
  rewrite !Hn, Hb.
  assert (Hsec :
    (if is_completed (option_map security_status (security r))
     then [(3 # 10,
            inject_Z (or_num (field (security r) checks_passed) 0)
            / inject_Z (or_num (field (security r) checks_performed) 0) * 100)%Q]
     else [])
    = match (if is_completed (option_map security_status (security r))
             then Some (or_num (field (security r) checks_passed) 0,
                        or_num (field (security r) checks_performed) 1)
             else None) with
      | Some (passed, performed) =>
          [(3 # 10, inject_Z passed / inject_Z performed * 100)%Q]
      | None => []
      end).
  { destruct (is_completed (option_map security_status (security r)));
      [| reflexivity].
    destruct Hs as [Hs | [Hd Hc]]; [discriminate |].
    apply between_opt_spec in Hd, Hc.
    destruct Hd as (d & Ed & Hd). destruct Hc as (c & Ec & Hc).
    rewrite Ed, Ec. unfold or_num.
    destruct (Z.eqb_spec c 0); [lia |]. destruct (Z.eqb_spec d 0); [lia |].
    reflexivity. }
  rewrite Hsec.
  destruct (is_completed (option_map performance_status (performance r)));
  destruct (is_completed (option_map accessibility_status (accessibility r)));
  destruct (is_completed (option_map e2e_status (e2e r)));
  destruct (is_completed (option_map api_status (api r))); reflexivity.
Qed.

(** The floor of a quotient of integers. *)
Lemma Qfloor_quotient (q : Q) (n d : Z) :
  (0 < d)%Z -> (q == inject_Z n / inject_Z d)%Q -> Qfloor q = (n / d)%Z.
Proof.
  intros Hd Hq. rewrite (Qfloor_comp _ _ Hq).
  destruct d as [|d|d]; try lia.
  unfold Qdiv, Qinv, inject_Z, Qmult, Qfloor. simpl.
  rewrite Z.mul_1_r. reflexivity.
Qed.

Ltac push_inject :=
  repeat (rewrite inject_Z_plus || rewrite inject_Z_mult);
  repeat match goal with
         | |- context [inject_Z (Zpos ?p)] =>
             change (inject_Z (Zpos p)) with (Zpos p # 1)%Q
         | |- context [inject_Z Z0] => change (inject_Z Z0) with 0%Q
         end.

(** The rounded weighted mean of the specification is the integer
    formula, on every reading with 7 checks performed. *)
Lemma rounded_mean_formula (x : Reading) :
  (forall c d, rd_security x = Some (c, d) -> d = 7%Z) ->
  match partsOf x with
  | [] => 0%Z
  | parts => Qround_half_up (weightedMean parts)
  end = meanFormula x.
Proof.
  destruct x as [s p a e i]. cbn [rd_security]. intros Hd.
  assert (Hs : s = None \/ exists c, s = Some (c, 7%Z)).
  { destruct s as [[c d] |]; [right | left; reflexivity].
    exists c. rewrite (Hd c d eq_refl). reflexivity. }
  unfold meanFormula, meanNum, meanDen, partsOf.
  cbn [rd_security rd_performance rd_accessibility rd_e2e rd_api].
  destruct Hs as [-> | [c ->]]; destruct p as [p |]; destruct a as [a |];
    destruct e as [[|] |]; destruct i;
    cbn [app]; try reflexivity;
    unfold Qround_half_up, weightedMean, sumQ; cbn [app map fold_right fst snd];
    (apply Qfloor_quotient; [reflexivity |]); push_inject; field.
Qed.

(** Every reading whose scores are in range is one of [readings]. *)
Lemma upTo_In (lo z : Z) (n : nat) :
  (lo <= z < lo + Z.of_nat n)%Z -> In z (upTo lo n).
Proof.
  intros H. unfold upTo. apply in_map_iff. exists (Z.to_nat (z - lo)).
  split; [lia |]. apply in_seq. lia.
Qed.

Lemma orNone_In {A} (l : list A) (o : option A) :
  (forall a, o = Some a -> In a l) -> In o (orNone l).
Proof.
  intros H. unfold orNone. destruct o as [a |]; [right | left; reflexivity].
  apply in_map. apply H. reflexivity.
Qed.

Lemma reading_security_in_range (r : PipelineResults) :
  scoresInRange r = true -> In (rd_security (reading r)) securityReadings.
Proof.
  unfold scoresInRange. rewrite !andb_true_iff, !orb_true_iff, !negb_true_iff.
  rewrite andb_true_iff. intros [[Hs _] _].
  apply orNone_In. cbn [reading rd_security].
  destruct (is_completed (option_map security_status (security r)));
    [| intros a E; discriminate E].
  intros [c d] E. apply in_map_iff.
  destruct Hs as [Hs | [Hd Hc]]; [discriminate |].
  apply between_opt_spec in Hd, Hc.
  destruct Hd as (d' & Ed & Hd). destruct Hc as (c' & Ec & Hc).
  rewrite Ed, Ec in E. unfold or_num in E.
  destruct (Z.eqb_spec c' 0); [lia |]. destruct (Z.eqb_spec d' 0); [lia |].
  injection E as <- <-. exists c'. split; [f_equal; lia |].
  apply upTo_In. lia.
Qed.

Lemma reading_performance_in_range (r : PipelineResults) :
  scoresInRange r = true -> In (rd_performance (reading r)) scoreReadings.
Proof.
  unfold scoresInRange. rewrite !andb_true_iff, !orb_true_iff, !negb_true_iff.
  intros [[_ Hp] _].
  apply orNone_In. cbn [reading rd_performance].
  destruct (is_completed (option_map performance_status (performance r)));
    [| intros a E; discriminate E].
  intros p E. apply upTo_In.
  destruct Hp as [Hp | Hp]; [discriminate |].
  apply between_opt_spec in Hp. destruct Hp as (p' & Ep & Hp).
  rewrite Ep, or_num_zero in E. injection E as <-. lia.
Qed.

Lemma reading_accessibility_in_range (r : PipelineResults) :
  scoresInRange r = true -> In (rd_accessibility (reading r)) scoreReadings.
Proof.
  unfold scoresInRange. rewrite !andb_true_iff, !orb_true_iff, !negb_true_iff.
  intros [_ Ha].
  apply orNone_In. cbn [reading rd_accessibility].
  destruct (is_completed (option_map accessibility_status (accessibility r)));
    [| intros a E; discriminate E].
  intros a E. apply upTo_In.
  destruct Ha as [Ha | Ha]; [discriminate |].
  apply between_opt_spec in Ha. destruct Ha as (a' & Ea & Ha).
  rewrite Ea, or_num_zero in E. injection E as <-. lia.
Qed.

Lemma forallb5_spec {A B C D E} (f : A -> B -> C -> D -> E -> bool)
  (la : list A) (lb : list B) (lc : list C) (ld : list D) (le : list E) :
  forallb5 f la lb lc ld le = true ->
  forall a b c d e,
    In a la -> In b lb -> In c lc -> In d ld -> In e le -> f a b c d e = true.
Proof.
  unfold forallb5. intros H a b c d e Ha Hb Hc Hd He.
  rewrite forallb_forall in H. specialize (H a Ha).
  rewrite forallb_forall in H. specialize (H b Hb).
  rewrite forallb_forall in H. specialize (H c Hc).
  rewrite forallb_forall in H. specialize (H d Hd).
  rewrite forallb_forall in H. exact (H e He).
Qed.

(** The computation of the source agrees with the integer formula, and
    stays between 0 and 100, on every reading in range: the binary64
    arithmetic of each of them is evaluated. *)
Lemma readings_evaluated :
  forallb5 readingAt securityReadings scoreReadings scoreReadings
    (orNone [true; false]) [true; false] = true.
Proof. vm_compute. reflexivity. Qed.

Lemma reading_eta (r : PipelineResults) :
  readingAt (rd_security (reading r)) (rd_performance (reading r))
    (rd_accessibility (reading r)) (rd_e2e (reading r)) (rd_api (reading r))
  = readingOk (reading r).
Proof. reflexivity. Qed.

Lemma reading_ok (r : PipelineResults) :
  scoresInRange r = true -> readingOk (reading r) = true.
Proof.
  intros Hr. rewrite <- reading_eta.
  apply (forallb5_spec readingAt securityReadings scoreReadings scoreReadings
           (orNone [true; false]) [true; false] readings_evaluated).
  - apply reading_security_in_range. exact Hr.
  - apply reading_performance_in_range. exact Hr.
  - apply reading_accessibility_in_range. exact Hr.
  - apply orNone_In. intros b _. destruct b; simpl; tauto.
  - destruct (rd_api (reading r)); simpl; tauto.
Qed.

Lemma reading_seven (r : PipelineResults) :
  scoresInRange r = true ->
  forall c d, rd_security (reading r) = Some (c, d) -> d = 7%Z.
Proof.
  intros H c d E. apply reading_security_in_range in H.
  rewrite E in H. destruct H as [H | H]; [discriminate |].
  apply in_map_iff in H. destruct H as ([c' d'] & Hs & Hin).
  apply in_map_iff in Hin. destruct Hin as (k & Hk & _). congruence.
Qed.

(** On results whose scores are in range the overall score is the
    rounded weighted mean of the specification, and is between 0 and
    100. *)
Lemma overallScore_in_range (r : PipelineResults) :
  scoresInRange r = true ->
  calculateOverallScore r = roundedWeightedMean r /\
  (0 <= calculateOverallScore r <= 100)%Z.
Proof.
  intros Hr.
  pose proof (reading_ok r Hr) as Hok. unfold readingOk in Hok. cbv zeta in Hok.
  rewrite !andb_true_iff in Hok. destruct Hok as [[Heq Hlo] Hhi].
  apply Z.eqb_eq in Heq. apply Z.leb_le in Hlo, Hhi.
  rewrite calculateOverallScore_reading.
  assert (Hmean : roundedWeightedMean r = meanFormula (reading r)).
  { unfold roundedWeightedMean. rewrite weightedParts_reading by exact Hr.
    apply rounded_mean_formula. apply reading_seven. exact Hr. }
  split; [congruence | lia].
Qed.
(** ** The requests of a scan *)

Lemma requests_step (n m : nat) (w w1 w2 : world) :
  requests n w w1 -> requests m w1 w2 -> requests (n + m) w w2.
Proof.
  intros (E1 & D1 & N1) (E2 & D2 & N2). repeat split; try congruence.
  rewrite N2, N1, skipn_skipn. f_equal. apply Nat.add_comm.
Qed.

Lemma fetch_requests (url : string) (t : Z) (w : world) :
  requests 1 w (snd (fetch url t w)).
Proof.
  unfold fetch, requests. destruct (network w) as [| x rest] eqn:N.
  - cbn [snd]. rewrite N. repeat split.
  - destruct (Qgt_bool (elapsed x) (inject_Z t)); cbn; repeat split.
Qed.

Lemma e2e_world (url : string) (w : world) :
  snd (performE2EScan url w) = snd (fetch url 10000 w).
Proof.
  unfold performE2EScan, try_catch, bind.
  destruct (fetch url 10000 w) as [[e | response] w1]; [reflexivity |].
  destruct (ok response); cbn [negb]; [| reflexivity].
  unfold text. destruct (resp_text response) as [e | html]; [reflexivity |].
  unfold ret, parseFromString. destruct (domParser w1); reflexivity.
Qed.

Lemma api_world (url : string) (w : world) :
  snd (performAPIScan url w) = snd (fetch url 10000 w).
Proof.
  unfold performAPIScan, try_catch, bind.
  destruct (fetch url 10000 w) as [[e | response] w1]; [reflexivity |].
  unfold text. destruct (resp_text response) as [e | html]; reflexivity.
Qed.

Lemma security_world (url : string) (w : world) :
  snd (performSecurityScan url w) = snd (fetch url 10000 w).
Proof.
  unfold performSecurityScan, try_catch, bind.
  destruct (fetch url 10000 w) as [[e | response] w1]; [reflexivity |].
  unfold text. destruct (resp_text response) as [e | html]; reflexivity.
Qed.

Lemma accessibility_world (url : string) (w : world) :
  snd (performAccessibilityScan url w) = snd (fetch url 10000 w).
Proof.
  unfold performAccessibilityScan, try_catch, bind.
  destruct (fetch url 10000 w) as [[e | response] w1]; [reflexivity |].
  unfold text. destruct (resp_text response) as [e | html]; reflexivity.
Qed.

Lemma techStack_world (url : string) (w : world) :
  snd (detectTechStack url w) = snd (fetch url 10000 w).
Proof.
  unfold detectTechStack, try_catch, bind.
  destruct (fetch url 10000 w) as [[e | response] w1]; [reflexivity |].
  unfold text. destruct (resp_text response) as [e | html]; reflexivity.
Qed.

Lemma basic_world (url : string) (w : world) :
  snd (performBasicPerformanceScan url w) = snd (fetch url 15000 w).
Proof.
  unfold performBasicPerformanceScan, bind, now.
  destruct (fetch url 15000 w) as [[e | response] w1]; [reflexivity |].
  unfold text. destruct (resp_text response) as [e | html]; reflexivity.
Qed.

Lemma google_world (url key : string) (w : world) :
  snd (googlePageSpeedRequest url key w) = snd (fetch url 60000 w).
Proof.
  unfold googlePageSpeedRequest, bind.
  match goal with
  | |- context [fetch ?a 60000 w] =>
      change (fetch a 60000 w) with (fetch url 60000 w)
  end.
  destruct (fetch url 60000 w) as [[e | response] w1]; [reflexivity |].
  destruct (ok response); cbn [negb]; [| reflexivity].
  unfold json. destruct (resp_json response) as [e | data]; [reflexivity |].
  unfold member, throw, ret.
  destruct (lighthouseResult data) as [lh |]; [| reflexivity].
  destruct (categories lh); [| reflexivity].
  destruct (audits lh); reflexivity.
Qed.

Lemma performance_world (url : string) (w : world) :
  exists n,
    requests n w (snd (performPerformanceScan url w)) /\
    (n = 1 \/ n = 2)%nat /\
    (no_pagespeed_key w = true -> n = 1%nat) /\
    (n = 2%nat <->
     truthy (pagespeed_key w) = true /\
     threw (googlePageSpeedRequest url (or_str (pagespeed_key w) "") w) = true).
Proof.
  unfold performPerformanceScan.
  assert (B : forall v, requests 1 v
                (snd (try_catch (performBasicPerformanceScan url)
                        (fun error =>
                           ret {| performance_error := Some error;
                                  score := Some 0;
                                  load_time_ms := Some 0;
                                  performance_status := failed;
                                  image_count := None;
                                  scripts_count := None;
                                  stylesheets_count := None;
                                  compression_enabled := None;
                                  caching_enabled := None;
                                  lighthouse_scores := None;
                                  source := None |}) v))).
  { intros v. pose proof (basic_world url v) as H.
    pose proof (fetch_requests url 15000 v) as R. rewrite <- H in R.
    unfold try_catch.
    destruct (performBasicPerformanceScan url v) as [[e | s] v1]; exact R. }
  unfold try_catch at 1. unfold bind, getenv.
  rewrite key_choice. rewrite (no_key_spec w).
  destruct (truthy (pagespeed_key w)) eqn:K.
  - unfold performGooglePageSpeedScan.
    pose proof (google_world url (or_str (pagespeed_key w) "") w) as G.
    pose proof (fetch_requests url 60000 w) as R. rewrite <- G in R.
    unfold try_catch.
    destruct (googlePageSpeedRequest url (or_str (pagespeed_key w) "") w)
      as [[e | s] w1].
    + exists 2%nat.
      split; [| split; [right; reflexivity | split; [discriminate |]]].
      * cbn [snd] in R. change 2%nat with (1 + 1)%nat.
        apply (requests_step _ _ _ _ _ R).
        pose proof (B w1) as B1. unfold try_catch in B1.
        destruct (performBasicPerformanceScan url w1) as [[e' | s'] w2]; exact B1.
      * split; [intros _; split; reflexivity | reflexivity].
    + exists 1%nat.
      split; [exact R | split; [left; reflexivity | split; [reflexivity |]]].
      split; [discriminate | intros [_ H]; discriminate H].
  - exists 1%nat. split; [| split; [left; reflexivity | split; [reflexivity |]]].
    + pose proof (B w) as B1. unfold try_catch in B1.
      destruct (performBasicPerformanceScan url w) as [[e' | s'] w2]; exact B1.
    + split; [discriminate | intros [H _]; discriminate H].
Qed.

Lemma afterThree_requests (url : string) (w : world) :
  requests 3 w (afterThree url w).
Proof.
  unfold afterThree. rewrite security_world, api_world, e2e_world.
  change 3%nat with (1 + 1 + 1)%nat.
  eapply requests_step; [eapply requests_step |]; apply fetch_requests.
Qed.

Lemma performScan_afterThree (url : string) (w : world) :
  snd (performScan url w)
  = snd (fetch url 10000
           (snd (fetch url 10000
                   (snd (performPerformanceScan url (afterThree url w)))))).
Proof.
  unfold performScan. rewrite orchestrate_run. cbn [snd].
  rewrite techStack_world, accessibility_world. reflexivity.
Qed.

(** The requests of a scan are counted by the performance analyzer: one
    more than six exactly when a key is configured and the request to
    the page-speed service throws. *)
Lemma performScan_count (url : string) (w : world) :
  exists n,
    requests (3 + n + 1 + 1) w (snd (performScan url w)) /\
    (n = 1 \/ n = 2)%nat /\
    (n = 2%nat <->
     truthy (pagespeed_key w) = true /\
     threw (googlePageSpeedRequest url (or_str (pagespeed_key w) "")
              (afterThree url w)) = true).
Proof.
  pose proof (afterThree_requests url w) as R3.
  destruct (performance_world url (afterThree url w)) as (n & R & N & _ & K).
  assert (E : pagespeed_key (afterThree url w) = pagespeed_key w).
  { destruct R3 as (E & _). unfold pagespeed_key. rewrite E. reflexivity. }
  rewrite E in K.
  exists n. split; [| split; [exact N | exact K]].
  rewrite performScan_afterThree.
  eapply requests_step; [eapply requests_step; [eapply requests_step |] |];
    [exact R3 | exact R | apply fetch_requests | apply fetch_requests].
Qed.

(** The requests of a scan: three before the performance analyzer, those
    of the performance analyzer, and two after it. *)
Lemma performScan_world (url : string) (w : world) :
  exists w3 n,
    requests 3 w w3 /\
    requests n w3 (snd (performPerformanceScan url w3)) /\
    (n = 1 \/ n = 2)%nat /\ (no_pagespeed_key w3 = true -> n = 1%nat) /\
    requests (3 + n + 1 + 1) w (snd (performScan url w)).
Proof.
  unfold performScan. rewrite orchestrate_run. cbn [snd].
  rewrite techStack_world, accessibility_world.
  set (w3 := snd (performSecurityScan url _)).
  assert (R3 : requests 3 w w3).
  { subst w3. rewrite security_world, api_world, e2e_world.
    change 3%nat with (1 + 1 + 1)%nat.
    eapply requests_step; [eapply requests_step |]; apply fetch_requests. }
  destruct (performance_world url w3) as (n & R & N & K & _).
  exists w3, n. split; [exact R3 |]. split; [exact R |].
  split; [exact N |]. split; [exact K |].
  eapply requests_step; [eapply requests_step; [eapply requests_step |] |];
    [exact R3 | exact R | apply fetch_requests | apply fetch_requests].
Qed.

(** ** The percentage of a category score

    The score of a category is a binary64 number; the analyzer multiplies
    it by 100 and rounds.  The product is followed through the rounding
    of the multiplication. *)


Lemma digits2_size (p : positive) : digits2_pos p = Pos.size p.
Proof. induction p; simpl; congruence. Qed.

Lemma digits_upper (p : positive) (n : Z) :
  (0 <= n)%Z -> (Zpos p < 2 ^ n)%Z -> (Zpos (digits2_pos p) <= n)%Z.
Proof.
  intros Hn Hp. rewrite digits2_size.
  pose proof (Pos.size_le p) as H.
  assert (H2 : (2 ^ Zpos (Pos.size p) <= 2 * Zpos p)%Z).
  { rewrite <- Pos2Z.inj_pow. change (2 * Zpos p)%Z with (Zpos p~0).
    apply Pos2Z.pos_le_pos. exact H. }
  assert (H3 : (2 ^ Zpos (Pos.size p) < 2 ^ (n + 1))%Z).
  { rewrite Z.pow_add_r by lia. change (2 ^ 1)%Z with 2%Z. lia. }
  apply Z.pow_lt_mono_r_iff in H3; lia.
Qed.

Lemma digits_lower (p : positive) : (Zpos p < 2 ^ Zpos (digits2_pos p))%Z.
Proof.
  rewrite digits2_size, <- Pos2Z.inj_pow. apply Pos2Z.pos_lt_pos, Pos.size_gt.
Qed.

Lemma shr_1_m (mrs : shr_record) :
  (0 <= shr_m mrs)%Z -> shr_m (shr_1 mrs) = (shr_m mrs / 2)%Z.
Proof.
  destruct mrs as [m r s]. cbn [shr_m]. intros H.
  destruct m as [| [p | p |] |]; cbn [shr_1 shr_m]; try lia; try reflexivity.
  - rewrite (Pos2Z.inj_xI p). apply (Z.div_unique _ _ _ 1); lia.
  - rewrite (Pos2Z.inj_xO p). apply (Z.div_unique _ _ _ 0); lia.
Qed.

Lemma iter_shr_m (p : positive) (mrs : shr_record) :
  (0 <= shr_m mrs)%Z ->
  shr_m (SpecFloat.iter_pos shr_1 p mrs) = (shr_m mrs / 2 ^ Zpos p)%Z.
Proof.
  revert mrs. induction p as [p IH | p IH |]; intros mrs H; cbn [SpecFloat.iter_pos].
  - assert (D : (2 ^ Zpos p~1 = 2 * (2 ^ Zpos p * 2 ^ Zpos p))%Z).
    { rewrite (Pos2Z.inj_xI p).
      replace (2 * Zpos p + 1)%Z with (1 + (Zpos p + Zpos p))%Z by lia.
      rewrite !Z.pow_add_r by lia. reflexivity. }
    assert (H1 : (0 <= shr_m (shr_1 mrs))%Z)
      by (rewrite shr_1_m by exact H; apply Z.div_pos; lia).
    assert (H2 : (0 <= shr_m (SpecFloat.iter_pos shr_1 p (shr_1 mrs)))%Z)
      by (rewrite IH by exact H1; apply Z.div_pos; lia).
    rewrite IH by exact H2. rewrite IH by exact H1. rewrite shr_1_m by exact H.
    rewrite !Z.div_div by lia. rewrite D. reflexivity || (f_equal; lia).
  - assert (D : (2 ^ Zpos p~0 = 2 ^ Zpos p * 2 ^ Zpos p)%Z).
    { rewrite (Pos2Z.inj_xO p).
      replace (2 * Zpos p)%Z with (Zpos p + Zpos p)%Z by lia.
      apply Z.pow_add_r; lia. }
    assert (H2 : (0 <= shr_m (SpecFloat.iter_pos shr_1 p mrs))%Z)
      by (rewrite IH by exact H; apply Z.div_pos; lia).
    rewrite IH by exact H2. rewrite IH by exact H.
    rewrite !Z.div_div by lia. rewrite D. reflexivity.
  - rewrite shr_1_m by exact H. reflexivity.
Qed.

Lemma shr_fexp_spec (m e : Z) (l : location) :
  (0 <= m)%Z ->
  exists k,
    (0 <= k)%Z /\
    snd (shr_fexp prec emax m e l) = (e + k)%Z /\
    snd (shr_fexp prec emax m e l) = Z.max e (fexp prec emax (Zdigits2 m + e)) /\
    shr_m (fst (shr_fexp prec emax m e l)) = (m / 2 ^ k)%Z.
Proof.
  intros Hm. unfold shr_fexp, shr.
  assert (Hl : shr_m (shr_record_of_loc m l) = m) by (destruct l as [| []]; reflexivity).
  destruct (fexp prec emax (Zdigits2 m + e) - e)%Z as [| p | p] eqn:E.
  - exists 0%Z. cbn [fst snd]. rewrite Hl, Z.div_1_r. repeat split; lia.
  - exists (Zpos p). cbn [fst snd]. rewrite iter_shr_m by (rewrite Hl; exact Hm).
    rewrite Hl. repeat split; lia.
  - exists 0%Z. cbn [fst snd]. rewrite Hl, Z.div_1_r. repeat split; lia.
Qed.

Lemma round_nearest_even_bounds (m : Z) (l : location) :
  (m <= round_nearest_even m l <= m + 1)%Z.
Proof.
  destruct l as [| []]; cbn [round_nearest_even]; try lia.
  destruct (Z.even m); lia.
Qed.

Lemma fexp_binary64 (x : Z) : fexp prec emax x = Z.max (x - 53) (-1074).
Proof. reflexivity. Qed.

Lemma Zdigits2_upper (m n : Z) :
  (0 <= m)%Z -> (0 <= n)%Z -> (m < 2 ^ n)%Z -> (Zdigits2 m <= n)%Z.
Proof.
  intros Hm Hn H. destruct m as [| p | p]; cbn [Zdigits2]; [lia | | lia].
  apply digits_upper; assumption.
Qed.

(** The product of a number from 0 to 1 by 100, as it is rounded. *)
Lemma product_by_100 (m : positive) (e : Z) :
  (-1074 <= e <= -52)%Z -> (Zpos m <= 2 ^ (- e))%Z ->
  match SFmul prec emax (S754_finite false m e)
          (S754_finite false 7036874417766400 (-46)) with
  | S754_zero _ => True
  | S754_finite s m3 e3 =>
      s = false /\ (e3 <= -46)%Z /\ (Zpos m3 <= 100 * 2 ^ (- e3) + 1)%Z
  | _ => False
  end.
Proof.
  intros He Hm. cbn [SFmul xorb]. unfold binary_round_aux.
  set (P := Zpos (m * 7036874417766400)).
  set (E := (e + -46)%Z).
  assert (HP0 : (0 <= P)%Z) by (subst P; lia).
  assert (HPE : (P <= 100 * 2 ^ (- E))%Z).
  { subst P E. rewrite Pos2Z.inj_mul.
    replace (- (e + -46))%Z with (46 + - e)%Z by lia.
    rewrite Z.pow_add_r by lia.
    change (2 ^ 46)%Z with 70368744177664%Z.
    pose proof (Z.pow_pos_nonneg 2 (- e)). nia. }
  assert (HdP : (Zdigits2 P <= 7 - E)%Z).
  { apply Zdigits2_upper; [exact HP0 | subst E; lia |].
    replace (7 - E)%Z with (7 + - E)%Z by lia.
    rewrite Z.pow_add_r by (subst E; lia). change (2 ^ 7)%Z with 128%Z.
    pose proof (Z.pow_pos_nonneg 2 (- E)). nia. }
  destruct (shr_fexp_spec P E loc_Exact HP0) as (k1 & Hk1 & He1 & He1' & Hm1).
  destruct (shr_fexp prec emax P E loc_Exact) as [mrs1 e1]. cbn [fst snd] in *.
  rewrite fexp_binary64 in He1'.
  assert (He1b : (e1 <= -46)%Z) by (subst E; lia).
  assert (Hm1b : (0 <= shr_m mrs1 <= 100 * 2 ^ (- e1))%Z).
  { rewrite Hm1. split; [apply Z.div_pos; lia |].
    apply Z.div_le_upper_bound; [lia |].
    replace (- E)%Z with (k1 + - e1)%Z in HPE by lia.
    rewrite Z.pow_add_r in HPE by lia. lia. }
  set (m2 := round_nearest_even (shr_m mrs1) (loc_of_shr_record mrs1)).
  pose proof (round_nearest_even_bounds (shr_m mrs1) (loc_of_shr_record mrs1)) as Hm2.
  fold m2 in Hm2.
  assert (Hm20 : (0 <= m2)%Z) by lia.
  assert (Hd2 : (Zdigits2 m2 <= 7 - e1)%Z).
  { apply Zdigits2_upper; [exact Hm20 | lia |].
    replace (7 - e1)%Z with (7 + - e1)%Z by lia.
    rewrite Z.pow_add_r by lia. change (2 ^ 7)%Z with 128%Z.
    pose proof (Z.pow_pos_nonneg 2 (- e1)). nia. }
  destruct (shr_fexp_spec m2 e1 loc_Exact Hm20) as (k2 & Hk2 & He3 & He3' & Hm3).
  destruct (shr_fexp prec emax m2 e1 loc_Exact) as [mrs2 e3]. cbn [fst snd] in *.
  rewrite fexp_binary64 in He3'.
  assert (He3b : (e3 <= -46)%Z) by lia.
  assert (Hm3b : (0 <= shr_m mrs2 <= 100 * 2 ^ (- e3) + 1)%Z).
  { rewrite Hm3. split; [apply Z.div_pos; lia |].
    apply Z.div_le_upper_bound; [lia |].
    assert (Hp : (2 ^ (- e1) = 2 ^ k2 * 2 ^ (- e3))%Z).
    { replace (- e1)%Z with (k2 + - e3)%Z by lia. apply Z.pow_add_r; lia. }
    pose proof (Z.pow_pos_nonneg 2 k2). pose proof (Z.pow_pos_nonneg 2 (- e3)).
    nia. }
  destruct (shr_m mrs2) as [| m3 | m3]; [exact I | | lia].
  replace (e3 <=? emax - prec)%Z with true
    by (symmetry; apply Z.leb_le; change (emax - prec)%Z with 971%Z; lia).
  repeat split; [exact He3b | lia].
Qed.

Lemma rounded_at_most_100 (m3 : positive) (e3 : Z) :
  (e3 <= -46)%Z -> (Zpos m3 <= 100 * 2 ^ (- e3) + 1)%Z ->
  (0 <= Z.shiftr (2 * Zpos m3 + Z.shiftl 1 (- e3)) (1 - e3) <= 100)%Z.
Proof.
  intros He Hm. rewrite Z.shiftr_div_pow2, Z.shiftl_mul_pow2 by lia.
  replace (1 - e3)%Z with (1 + - e3)%Z by lia.
  rewrite Z.pow_add_r by lia. change (2 ^ 1)%Z with 2%Z.
  assert (HT : (2 ^ 46 <= 2 ^ (- e3))%Z) by (apply Z.pow_le_mono_r; lia).
  change (2 ^ 46)%Z with 70368744177664%Z in HT.
  split.
  - apply Z.div_pos; lia.
  - apply Z.lt_succ_r. apply Z.div_lt_upper_bound; lia.
Qed.

Lemma SF_zero : Prim2SF 0 = S754_zero false.
Proof. vm_compute. reflexivity. Qed.

Lemma SF_one : Prim2SF 1 = S754_finite false 4503599627370496 (-52).
Proof. vm_compute. reflexivity. Qed.

Lemma SF_hundred : Prim2SF 100 = S754_finite false 7036874417766400 (-46).
Proof. vm_compute. reflexivity. Qed.

Lemma percent_of_zero : Math_round (0 * 100)%float = 0%Z.
Proof. vm_compute. reflexivity. Qed.

(** Order of two positive finite numbers, by exponent then mantissa. *)
Lemma SFleb_finite (m m2 : positive) (e e2 : Z) :
  SFleb (S754_finite false m e) (S754_finite false m2 e2) = true ->
  (e < e2)%Z \/ (e = e2 /\ (Zpos m <= Zpos m2)%Z).
Proof.
  unfold SFleb, SFcompare. intros H1.
  destruct (Z.compare_spec e e2) as [Heq | Hlt | Hgt]; [| | discriminate].
  - right. split; [exact Heq |].
    rewrite Pos.compare_cont_spec in H1. unfold Pos.switch_Eq in H1.
    destruct (Pos.compare_spec m m2) as [Hm | Hlt | Hgt].
    + rewrite Hm. apply Z.le_refl.
    + apply Z.lt_le_incl, Pos2Z.pos_lt_pos. exact Hlt.
    + discriminate H1.
  - left. exact Hlt.
Qed.

Lemma two_to_52 : (2 ^ 52 = 4503599627370496)%Z.
Proof. vm_compute. reflexivity. Qed.

(** A number from 0 to 1 that is not 0: its mantissa and exponent. *)
Lemma unit_interval (f : float) :
  PrimFloat.leb 0 f = true -> PrimFloat.leb f 1 = true ->
  PrimFloat.eqb f 0 = false ->
  exists m e,
    Prim2SF f = S754_finite false m e /\
    (-1074 <= e <= -52)%Z /\ (Zpos m <= 2 ^ (- e))%Z.
Proof.
  intros H0 H1 Hz.
  rewrite FloatAxioms.eqb_spec, SF_zero in Hz.
  rewrite leb_spec, SF_zero in H0. rewrite leb_spec, SF_one in H1.
  pose proof (Prim2SF_valid f) as Hv.
  destruct (Prim2SF f) as [s | s | | s m e].
  - discriminate Hz.
  - destruct s; discriminate.
  - discriminate.
  - destruct s; [discriminate |].
    exists m, e. split; [reflexivity |].
    cbn [valid_binary] in Hv. unfold bounded, canonical_mantissa in Hv.
    apply andb_prop in Hv. destruct Hv as [Hc _].
    apply Z.eqb_eq in Hc. rewrite fexp_binary64 in Hc.
    pose proof (digits_lower m) as Hd.
    destruct (SFleb_finite _ _ _ _ H1) as [Hlt | [He Hm]].
    + split; [lia |].
      assert (Hle : (2 ^ Zpos (digits2_pos m) <= 2 ^ (- e))%Z)
        by (apply Z.pow_le_mono_r; lia).
      lia.
    + split; [lia |]. rewrite He.
      replace (- -52)%Z with 52%Z by reflexivity. rewrite two_to_52.
      exact Hm.
Qed.

(** [Math.round(score * 100)] of a score from 0 to 1 is from 0 to 100,
    and is computed on finite numbers only. *)
Lemma percent_in_range (f : float) :
  PrimFloat.leb 0 f = true -> PrimFloat.leb f 1 = true ->
  (0 <= percent (Some f) <= 100)%Z.
Proof.
  intros H0 H1. unfold percent, or_zero.
  destruct (PrimFloat.eqb f f && negb (PrimFloat.eqb f 0)) eqn:Hz;
    [| rewrite percent_of_zero; lia].
  apply andb_prop in Hz. destruct Hz as [_ Hz].
  apply negb_true_iff in Hz.
  destruct (unit_interval f H0 H1 Hz) as (m & e & Hf & He & Hm).
  unfold Math_round. rewrite mul_spec, Hf, SF_hundred. unfold SF64mul.
  pose proof (product_by_100 m e He Hm) as Hp.
  destruct (SFmul prec emax (S754_finite false m e)
              (S754_finite false 7036874417766400 (-46)))
    as [s3 | s3 | | s3 m3 e3]; try contradiction; [lia |].
  destruct Hp as (-> & He3 & Hm3).
  replace (0 <=? e3)%Z with false by (symmetry; apply Z.leb_gt; lia).
  cbv beta iota zeta. apply rounded_at_most_100; assumption.
Qed.

(** The results of every scan have their scores in range, as soon as the
    page-speed service, when it is the source of the performance score,
    reports a score from 0 to 100. *)
Lemma performScan_scores_in_range (url : string) (w w' : world)
  (r : PipelineResults) :
  performScan url w = (inr r, w') ->
  (forall p, performance r = Some p -> source p = Some "google-pagespeed" ->
             between_opt 0 100 (score p) = true) ->
  scoresInRange r = true.
Proof.
  intros Hrun Hgoogle.
  destruct (performScan_run url w)
    as (s1 & w1 & s2 & w2 & s3 & w3 & s4 & w4 & s5 & w5 & s6 & w6 &
        H1 & H2 & H3 & H4 & H5 & H6 & Hr).
  rewrite Hrun in Hr. injection Hr as -> _.
  unfold scoresInRange.
  cbn [security performance accessibility option_map field] in *.
  rewrite !andb_true_iff. repeat split.
  - destruct (security_run url w2) as (s & w0 & Hs & H).
    rewrite H3 in Hs. injection Hs as <- <-.
    destruct (fst (fetch_page url 10000 w2)) as [e | [response html]].
    + destruct H as (Hf & _). rewrite Hf. reflexivity.
    + destruct H as (Hc & Hp & issues & Hi & Hq & Hsev).
      rewrite Hc, Hp, Hq. cbn [is_completed negb orb between_opt].
      pose proof (securityFindings_length (resp_headers response) html) as Hl.
      rewrite <- Hsev, length_map in Hl. unfold len.
      apply andb_true_iff. split; [reflexivity |].
      apply andb_true_iff. split; apply Z.leb_le; lia.
  - destruct (performance_run url w3) as (s & w0 & Hs & H).
    rewrite H4 in Hs. injection Hs as <- <-.
    destruct H as [(Hf & _) | [(Hc & _ & z & Hz & Hrange) | (Hc & Hsrc & _)]].
    + rewrite Hf. reflexivity.
    + rewrite Hc, Hz. cbn [is_completed negb orb between_opt].
      apply andb_true_iff. split; apply Z.leb_le; lia.
    + rewrite Hc. cbn [is_completed negb orb]. apply Hgoogle; [reflexivity | exact Hsrc].
  - destruct (accessibility_run url w4) as (s & w0 & Hs & H).
    rewrite H5 in Hs. injection Hs as <- <-.
    destruct (fst (fetch_page url 10000 w4)) as [e | [response html]].
    + destruct H as (Hf & _). rewrite Hf. reflexivity.
    + destruct H as (Hc & issues & _ & _ & Hsc & _).
      rewrite Hc, Hsc. cbn [is_completed negb orb between_opt].
      rewrite totalDeduction_sum.
      pose proof (sum_points_nonneg (map ai_severity issues)) as Hn.
      rewrite map_map in Hn.
      apply andb_true_iff. split; apply Z.leb_le; lia.
Qed.

(** ** The score of the page-speed service *)

(** A section of the page-speed service was built from the answer to the
    next request of the world, and its score is the percentage of the
    performance score of that answer. *)
Lemma google_reported (url key : string) (w w1 : world) (s : PerformanceSection) :
  googlePageSpeedRequest url key w = (inr s, w1) ->
  exists x o,
    hd_error (network w) = Some x /\ reportedPerformance x = Some o /\
    score s = Some (percent o).
Proof.
  unfold googlePageSpeedRequest, bind, fetch.
  destruct (network w) as [| x rest]; [discriminate |].
  destruct (Qgt_bool (elapsed x) (inject_Z 60000)); [discriminate |].
  destruct (answer x) as [e | r] eqn:Ea; [discriminate |].
  destruct (ok r); cbn [negb]; [| discriminate].
  unfold json. destruct (resp_json r) as [e | data] eqn:Ej; [discriminate |].
  unfold ret at 1. unfold member.
  destruct (lighthouseResult data) as [lh |] eqn:El; [| discriminate].
  unfold ret at 1. destruct (categories lh) as [cats |] eqn:Ec; [| discriminate].
  unfold ret at 1. destruct (audits lh) as [metrics |]; [| discriminate].
  unfold ret. intros H. apply returned in H. subst s.
  exists x, (cat_performance cats). split; [reflexivity |]. split; [| reflexivity].
  unfold reportedPerformance. rewrite Ea, Ej, El, Ec. reflexivity.
Qed.

(** The basic scan and the handler of the analyzer never name the
    page-speed service as their source. *)
Lemma fallback_source (url : string) (w0 w' : world) (s : PerformanceSection) :
  try_catch (performBasicPerformanceScan url)
    (fun error =>
       ret {| performance_error := Some error; score := Some 0;
              load_time_ms := Some 0; performance_status := failed;
              image_count := None; scripts_count := None;
              stylesheets_count := None; compression_enabled := None;
              caching_enabled := None; lighthouse_scores := None;
              source := None |}) w0 = (inr s, w') ->
  source s <> Some "google-pagespeed".
Proof.
  unfold try_catch. pose proof (basic_run url w0) as H.
  destruct (fetch_page url 15000 w0) as [[e | [response html]] w1].
  - rewrite H. unfold ret. intros E. apply returned in E. subst s. discriminate.
  - destruct H as (s0 & -> & _ & Hsrc & _).
    intros E. apply returned in E. subst s0. rewrite Hsrc. discriminate.
Qed.

Lemma performance_reported (url : string) (w w' : world) (s : PerformanceSection) :
  performPerformanceScan url w = (inr s, w') ->
  source s = Some "google-pagespeed" ->
  truthy (pagespeed_key w) = true /\
  exists x o,
    hd_error (network w) = Some x /\ reportedPerformance x = Some o /\
    score s = Some (percent o).
Proof.
  unfold performPerformanceScan.
  unfold try_catch at 1. unfold bind, getenv. rewrite key_choice.
  destruct (truthy (pagespeed_key w)) eqn:Ek.
  - unfold performGooglePageSpeedScan. unfold try_catch at 1.
    destruct (googlePageSpeedRequest url (or_str (pagespeed_key w) "") w)
      as [[e | s0] w1] eqn:Eg.
    + intros Hrun Hsrc. exfalso.
      pose proof (fallback_source url w1) as Hf. unfold try_catch in Hf.
      destruct (performBasicPerformanceScan url w1) as [[e' | s'] w2];
        exact (Hf _ _ Hrun Hsrc).
    + intros Hrun _. apply returned in Hrun. subst s0.
      split; [reflexivity |]. exact (google_reported _ _ _ _ _ Eg).
  - intros Hrun Hsrc. exfalso.
    pose proof (fallback_source url w) as Hf. unfold try_catch in Hf.
    destruct (performBasicPerformanceScan url w) as [[e' | s'] w2];
      exact (Hf _ _ Hrun Hsrc).
Qed.

Lemma hd_skipn {A} (n : nat) (l : list A) :
  hd_error (skipn n l) = nth_error l n.
Proof.
  revert l. induction n as [| n IH]; intros [| x l]; simpl; auto.
Qed.

Lemma unitScore_percent (o : option float) :
  unitScore o = true -> between_opt 0 100 (Some (percent o)) = true.
Proof.
  intros H. cbn [between_opt]. apply andb_true_iff.
  assert (R : (0 <= percent o <= 100)%Z).
  { destruct o as [f |].
    - cbn [unitScore] in H. apply andb_prop in H. destruct H as [H0 H1].
      apply percent_in_range; assumption.
    - unfold percent, or_zero. rewrite percent_of_zero. lia. }
  split; apply Z.leb_le; lia.
Qed.

(** In a scan whose page-speed answer is in range, the score of a
    section of the page-speed service is from 0 to 100. *)
Lemma pagespeed_score_in_range (url : string) (w w4 : world)
  (s : PerformanceSection) :
  pagespeedInRange w = true ->
  performPerformanceScan url (afterThree url w) = (inr s, w4) ->
  source s = Some "google-pagespeed" ->
  between_opt 0 100 (score s) = true.
Proof.
  intros Hin Hrun Hsrc.
  destruct (performance_reported _ _ _ _ Hrun Hsrc) as (Hk & x & o & Hx & Ho & Hs).
  destruct (afterThree_requests url w) as (He & _ & Hn).
  rewrite Hn, hd_skipn in Hx.
  assert (Hkey : no_pagespeed_key w = false).
  { rewrite no_key_spec. unfold pagespeed_key in *. rewrite He in Hk.
    rewrite Hk. reflexivity. }
  unfold pagespeedInRange in Hin. rewrite Hkey, Hx in Hin. cbn [orb] in Hin.
  unfold exchangeInRange in Hin. rewrite Ho in Hin.
  rewrite Hs. apply unitScore_percent. exact Hin.
Qed.

Lemma performScan_in_range (url : string) (w : world) :
  pagespeedInRange w = true ->
  exists r w',
    performScan url w = (inr r, w') /\ scoresInRange r = true.
Proof.
  intros Hin.
  destruct (performScan_run url w)
    as (s1 & w1 & s2 & w2 & s3 & w3 & s4 & w4 & s5 & w5 & s6 & w6 &
        H1 & H2 & H3 & H4 & H5 & H6 & Hr).
  do 2 eexists. split; [exact Hr |].
  apply (performScan_scores_in_range url w _ _ Hr).
  cbn [performance]. intros p Hp Hsrc. injection Hp as <-.
  apply (pagespeed_score_in_range url w w4); [exact Hin | | exact Hsrc].
  unfold afterThree. rewrite H1. cbn [snd]. rewrite H2. cbn [snd].
  rewrite H3. cbn [snd]. exact H4.
Qed.
(** C1. For every scan whose page-speed answer is in range (the
    performance score that the service reports, when a key is configured
    and the answer carries one, is a number from 0 to 1) the overall
    score is an integer between 0 and 100, equal to the weighted mean of
    the sub-scores of exactly the analyzers that completed, with the
    weights and the sub-scores of the specification, rounded to the
    nearest integer (halves upwards); and it is 0 when no analyzer
    completed. *)
Theorem overallScore_rounded_weighted_mean (url : string) (w : world) :
  pagespeedInRange w = true ->
  exists r w',
    performScan url w = (inr r, w') /\
    calculateOverallScore r = roundedWeightedMean r /\
    (0 <= calculateOverallScore r <= 100)%Z /\
    (weightedParts r = [] -> calculateOverallScore r = 0%Z).
Proof.
  intros Hin.
  destruct (performScan_in_range url w Hin) as (r & w' & Hrun & Hr).
  exists r, w'. split; [exact Hrun |].
  destruct (overallScore_in_range r Hr) as [Hmean Hrange].
  split; [exact Hmean |]. split; [exact Hrange |].
  intros Hnil. rewrite Hmean. unfold roundedWeightedMean. rewrite Hnil.
  reflexivity.
Qed.

Lemma overallScore_rounded_weighted_mean_witness :
  exists r w',
    performScan sampleUrl (keyedSite refused (pagespeedAnswer 0.5)) = (inr r, w') /\
    calculateOverallScore r = roundedWeightedMean r /\
    (0 <= calculateOverallScore r <= 100)%Z /\
    field (performance r) score = Some 50%Z /\
    calculateOverallScore r = 50%Z.
Proof.
  destruct (overallScore_rounded_weighted_mean sampleUrl
              (keyedSite refused (pagespeedAnswer 0.5)))
    as (r & w' & Hrun & Hmean & Hrange & _); [vm_compute; reflexivity |].
  exists r, w'. split; [exact Hrun |]. split; [exact Hmean |].
  split; [exact Hrange |].
  vm_compute in Hrun. apply returned in Hrun. subst r.
  split; vm_compute; reflexivity.
Defined.

(** C1 (as stated) fails where the service reports a performance score
    above 1: the analyzer multiplies it by 100 without a bound, and with
    no other analyzer completed the overall score is that product. *)
Theorem overallScore_above_100 :
  pagespeedInRange overdriven = false /\
  exists r w',
    performScan sampleUrl overdriven = (inr r, w') /\
    field (performance r) score = Some 150%Z /\
    calculateOverallScore r = 150%Z /\
    ~ (0 <= calculateOverallScore r <= 100)%Z.
Proof.
  split; [vm_compute; reflexivity |].
  do 2 eexists. split; [vm_compute; reflexivity |].
  split; [vm_compute; reflexivity |].
  split; [vm_compute; reflexivity |].
  vm_compute. intros [_ H]. apply H. reflexivity.
Qed.
(** * Further properties of the scan function *)

(** X1. A scan makes six requests, one for each analyzer, whatever
    the answers are, or seven; it makes the seventh one exactly when a
    page-speed key is configured and the request to that service, which
    the performance analyzer makes in the world the first three analyzers
    leave, throws: the basic scan then fetches the target itself.
    Without a key a scan makes six requests.  The environment and the
    parser of the runtime are left as they were. *)
Theorem performScan_requests (url : string) (w : world) :
  exists n,
    requests n w (snd (performScan url w)) /\
    (n = 6 \/ n = 7)%nat /\
    (no_pagespeed_key w = true -> n = 6%nat) /\
    (n = 7%nat <->
     truthy (pagespeed_key w) = true /\
     threw (googlePageSpeedRequest url (or_str (pagespeed_key w) "")
              (afterThree url w)) = true).
Proof.
  destruct (performScan_count url w) as (n & R & N & K).
  exists (3 + n + 1 + 1)%nat. split; [exact R |]. split; [| split].
  - destruct N; subst n; [left | right]; reflexivity.
  - intros H. rewrite no_key_spec in H. apply negb_true_iff in H.
    destruct N as [-> | ->]; [reflexivity |].
    destruct K as [K _]. destruct (K eq_refl) as [Hk _]. congruence.
  - rewrite <- K. lia.
Qed.
(** ** The endpoints of the API analyzer *)

Lemma endpoint_of_shape (m : string) :
  Forall (fun e => ep_method e = "GET" /\ ep_status e = 0
                   /\ startsWith (ep_path e) "/" = true)
         (endpoint_of m).
Proof.
  unfold endpoint_of. destruct (group false Patterns.quoted 1 m) as [path |];
    [| constructor].
  destruct (nonempty path); cbn [andb]; [| constructor].
  destruct (startsWith path "/") eqn:E; constructor; [| constructor].
  cbn. repeat split. exact E.
Qed.

(** X2. The API analyzer always returns.  It completes whenever the
    page and its body were read, whatever the status of the answer; the
    endpoints it found are then those of the call sites of the page, in
    their order.  It fails with no endpoint otherwise.  It counts all the
    endpoints it found and lists the first 10 of them, and every endpoint
    has the method GET, the status 0 and a path that starts with a
    slash. *)
Theorem performAPIScan_endpoints (url : string) (w : world) :
  exists s w' found,
    performAPIScan url w = (inr s, w') /\
    endpoints_detected s = Some (len found) /\
    endpoints s = Some (firstn 10 found) /\
    len (firstn 10 found) = Z.min 10 (len found) /\
    Forall (fun e => ep_method e = "GET" /\ ep_status e = 0
                     /\ startsWith (ep_path e) "/" = true) found /\
    match fst (fetch_page url 10000 w) with
    | inr (_, html) =>
        api_status s = completed /\
        found = flat_map endpoint_of (matchAll false Patterns.call_site html)
    | inl e => api_status s = failed /\ api_error s = Some e /\ found = []
    end.
Proof.
  unfold performAPIScan, fetch_page, try_catch, bind.
  destruct (fetch url 10000 w) as [[e | response] w1].
  - do 2 eexists. exists []. split; [reflexivity |]. cbn. repeat split. constructor.
  - unfold text. destruct (resp_text response) as [e | html]; unfold throw, ret.
    + do 2 eexists. exists []. split; [reflexivity |]. cbn. repeat split. constructor.
    + do 2 eexists.
      exists (flat_map endpoint_of (matchAll false Patterns.call_site html)).
      split; [reflexivity |].
      cbn [endpoints_detected endpoints api_status fst].
      split; [reflexivity |]. split; [reflexivity |].
      split; [| split; [| split; reflexivity]].
      * unfold len. rewrite length_firstn. lia.
      * apply Forall_flat_map.
        apply Forall_forall. intros m _. apply endpoint_of_shape.
Qed.

(** ** The score and the level of the accessibility analyzer *)

Lemma existsb_failing (l : list AccessibilityIssue) :
  existsb fails_level_A l = existsb failing (map ai_severity l).
Proof. induction l as [| i l IH]; [reflexivity |]. simpl. rewrite IH. reflexivity. Qed.

Lemma findings_bounds (b1 b2 b3 b4 b5 b6 b7 b8 : bool) :
  let F := optional b1 "critical" ++ optional b2 "high" ++ optional b3 "critical"
           ++ optional b4 "high" ++ optional b5 "medium" ++ optional b6 "high"
           ++ optional b7 "low" ++ optional b8 "medium" in
  let z := Z.max 0 (100 - sumZ (map pointsOf F)) in
  (0 <= len F <= 8)%Z /\ (0 <= z <= 100)%Z /\ (z = 100 <-> len F = 0)%Z /\
  (if existsb failing F then (z <= 85)%Z else (81 <= z)%Z).
Proof.
  destruct b1, b2, b3, b4, b5, b6, b7, b8; vm_compute;
    repeat split; intros; congruence.
Qed.

(** X3. On a completed accessibility scan the number of issues is
    the length of the list, at most 8, and the score is 100 exactly when
    there is no issue.  A page that passes level A scores at least 81,
    and a page that fails it at most 85. *)
Theorem accessibility_score_and_level (url : string) (w w' : world)
  (s : AccessibilitySection) :
  performAccessibilityScan url w = (inr s, w') ->
  accessibility_status s = completed ->
  exists issues z,
    accessibility_issues s = Some issues /\
    total_issues s = Some (len issues) /\
    accessibility_score s = Some z /\
    (len issues <= 8)%Z /\ (0 <= z <= 100)%Z /\
    (z = 100 <-> issues = [])%Z /\
    ((wcag_level s = Some passesLevelA /\ (81 <= z)%Z) \/
     (wcag_level s = Some "Fails Level A" /\ (z <= 85)%Z)).
Proof.
  intros Hrun Hdone.
  destruct (accessibility_run url w) as (s0 & w0 & Hrun0 & H).
  rewrite Hrun in Hrun0. injection Hrun0 as <- <-.
  destruct (fst (fetch_page url 10000 w)) as [e | [response html]].
  { destruct H as (Hs & _). rewrite Hs in Hdone. discriminate. }
  destruct H as (_ & issues & Hi & Ht & Hsc & Hl & Hf).
  exists issues, (Z.max 0 (100 - totalDeduction issues)).
  split; [exact Hi |]. split; [exact Ht |]. split; [exact Hsc |].
  rewrite Hl, existsb_failing, totalDeduction_sum, <- (map_map ai_severity pointsOf).
  assert (Hlen : len issues = len (map ai_severity issues))
    by (unfold len; rewrite length_map; reflexivity).
  assert (Hnil : issues = [] <-> len issues = 0).
  { unfold len. destruct issues; simpl; split; intros; try lia; congruence. }
  rewrite Hnil, Hlen, Hf. unfold accessibilityFindings.
  match goal with
  | |- context [optional ?c1 "critical" ++ optional ?c2 "high"
                ++ optional ?c3 "critical" ++ optional ?c4 "high"
                ++ optional ?c5 "medium" ++ optional ?c6 "high"
                ++ optional ?c7 "low" ++ optional ?c8 "medium"] =>
      pose proof (findings_bounds c1 c2 c3 c4 c5 c6 c7 c8) as B
  end.
  cbv zeta in B. destruct B as (B1 & B2 & B3 & B4).
  split; [apply B1 |]. split; [exact B2 |]. split; [exact B3 |].
  destruct (existsb failing _); [right | left]; split; auto.
Qed.

Lemma accessibility_score_and_level_witness :
  exists s w',
    performAccessibilityScan sampleUrl sampleWorld = (inr s, w') /\
    exists issues z,
      accessibility_issues s = Some issues /\
      total_issues s = Some (len issues) /\
      accessibility_score s = Some z /\
      (len issues <= 8)%Z /\ (0 <= z <= 100)%Z /\
      (z = 100 <-> issues = [])%Z /\
      ((wcag_level s = Some passesLevelA /\ (81 <= z)%Z) \/
       (wcag_level s = Some "Fails Level A" /\ (z <= 85)%Z)).
Proof.
  do 2 eexists. split; [vm_compute; reflexivity |].
  eapply (accessibility_score_and_level sampleUrl sampleWorld);
    [vm_compute; reflexivity | reflexivity].
Defined.

(** ** The counts of the markup analyzer *)

(** X22. Whatever way the markup analyzer ends, its counts are not
    negative and its primary actions never outnumber the buttons it
    found: they are at most 5 and at most the number of buttons, on the
    structured path as on the pattern path. *)
Theorem primary_actions_bounded (url : string) (w w' : world) (s : E2ESection) :
  performE2EScan url w = (inr s, w') ->
  exists n links forms l,
    buttons_found s = Some n /\ links_found s = Some links /\
    forms_found s = Some forms /\ primary_actions s = Some l /\
    (0 <= links)%Z /\ (0 <= forms)%Z /\
    (len l <= Z.min 5 n)%Z.
Proof.
  unfold performE2EScan, try_catch, bind.
  destruct (fetch url 10000 w) as [[e | response] w1].
  { unfold ret. intros H. injection H as <- _. do 4 eexists.
    repeat split; cbn; lia. }
  destruct (ok response); cbn [negb].
  2:{ unfold ret. intros H. injection H as <- _. do 4 eexists.
      repeat split; cbn; lia. }
  unfold text. destruct (resp_text response) as [e | html]; unfold throw, ret.
  { intros H. injection H as <- _. do 4 eexists. repeat split; cbn; lia. }
  unfold parseFromString. destruct (domParser w1) as [parse |];
    intros H; apply returned in H; subst s;
    do 4 eexists;
    cbn [buttons_found links_found forms_found primary_actions];
    (split; [reflexivity |]); (split; [reflexivity |]); (split; [reflexivity |]);
    (split; [reflexivity |]); (split; [unfold len; lia |]);
    (split; [unfold len; lia |]); unfold len, slice0.
  - rewrite length_firstn.
    pose proof (filter_le nonempty
                  (map (fun b => trim (or_str (Some b) "")) (doc_buttons (parse html)))) as F.
    rewrite length_map in F. lia.
  - pose proof (filter_le nonempty
                  (map (fun btn => trim (removeAll false Patterns.any_tag btn))
                     (firstn 5 (matchAll true Patterns.button_pair html)))) as F.
    rewrite length_map, length_firstn in F. lia.
Qed.

Lemma primary_actions_bounded_witness :
  exists s w' l,
    performE2EScan sampleUrl sampleWorld = (inr s, w') /\
    buttons_found s = Some 1 /\ primary_actions s = Some l /\ (len l <= 1)%Z.
Proof.
  destruct (performE2EScan sampleUrl sampleWorld) as [[e | s] w'] eqn:E;
    [vm_compute in E; discriminate |].
  destruct (primary_actions_bounded sampleUrl sampleWorld w' s E)
    as (n & links & forms & l & Hn & _ & _ & Hl & _ & _ & Hle).
  exists s, w', l. split; [reflexivity |].
  assert (Hb : buttons_found s = Some 1)
    by (vm_compute in E; injection E as <- _; reflexivity).
  split; [exact Hb |]. split; [exact Hl |].
  rewrite Hb in Hn. injection Hn as <-. lia.
Defined.

(** ** Full marks of the security analyzer *)

(** X4. When the page and its body are read the security analyzer
    passes at least 1 and at most 7 checks.  It passes all 7 exactly when
    the four headers Strict-Transport-Security, X-Content-Type-Options,
    Content-Security-Policy and X-XSS-Protection are sent with a value
    that is not empty and the body writes no cookie; the header
    X-Frame-Options is not needed for it. *)
Theorem security_full_marks (url : string) (w : world) (response : Response)
  (html : string) :
  fst (fetch_page url 10000 w) = inr (response, html) ->
  exists s w' passed,
    performSecurityScan url w = (inr s, w') /\
    checks_passed s = Some passed /\ (1 <= passed <= 7)%Z /\
    (passed = 7 <->
     missing (resp_headers response) "strict-transport-security" = false /\
     missing (resp_headers response) "x-content-type-options" = false /\
     missing (resp_headers response) "content-security-policy" = false /\
     missing (resp_headers response) "x-xss-protection" = false /\
     test true Patterns.cookie_write html = false).
Proof.
  intros Hpage.
  destruct (security_run url w) as (s & w' & Hrun & H).
  rewrite Hpage in H. destruct H as (_ & _ & issues & _ & Hp & Hf).
  exists s, w', (7 - len issues). split; [exact Hrun |]. split; [exact Hp |].
  assert (Hlen : len issues = len (securityFindings (resp_headers response) html)).
  { rewrite <- Hf. unfold len. rewrite length_map. reflexivity. }
  rewrite Hlen. unfold securityFindings.
  destruct (missing (resp_headers response) "strict-transport-security"),
           (missing (resp_headers response) "x-content-type-options"),
           (missing (resp_headers response) "x-frame-options"),
           (missing (resp_headers response) "content-security-policy"),
           (missing (resp_headers response) "x-xss-protection"),
           (test true Patterns.cookie_write html);
    vm_compute; repeat split; intros; try congruence;
    repeat match goal with H : _ /\ _ |- _ => destruct H end; congruence.
Qed.

Lemma security_full_marks_witness :
  exists s w',
    performSecurityScan sampleUrl hardenedWorld = (inr s, w') /\
    checks_passed s = Some 7.
Proof.
  destruct (security_full_marks sampleUrl hardenedWorld
              {| resp_status := 200; resp_headers := hardenedHeaders;
                 resp_text := inr "<html lang='en'><body><h1>a</h1></body></html>";
                 resp_json := inl "Unexpected token" |}
              "<html lang='en'><body><h1>a</h1></body></html>")
    as (s & w' & passed & Hrun & Hp & _ & Hfull);
    [vm_compute; reflexivity |].
  exists s, w'. split; [exact Hrun |].
  rewrite Hp. f_equal. apply Hfull. vm_compute. repeat split.
Defined.

(** ** The outcomes of the performance analyzer *)

Lemma basicDeductions_bounds t h html :
  (0 <= basicDeductions t h html <= 80)%Z.
Proof.
  unfold basicDeductions.
  destruct (headers_get h "content-encoding") as [v |];
    [destruct (includes v "gzip" || includes v "br") |];
    destruct (Qgt_bool t 3000), (Qgt_bool t 1500),
             (count (Patterns.tag "img") html >? 20)%Z,
             (count (Patterns.tag "script") html >? 15)%Z,
             (count Patterns.stylesheet_link html >? 5)%Z,
             (truthy (headers_get h "cache-control")); lia.
Qed.

Lemma google_request_scores url key w s w' :
  googlePageSpeedRequest url key w = (inr s, w') ->
  exists z ls, score s = Some z /\ lighthouse_scores s = Some ls
               /\ ls_performance ls = Some z.
Proof.
  unfold googlePageSpeedRequest, bind.
  match goal with |- context [fetch ?u ?t w] => destruct (fetch u t w) as [[e | r] w1] end;
    [discriminate |].
  destruct (ok r); cbn [negb]; [| discriminate].
  unfold json. destruct (resp_json r) as [e | data]; [discriminate |].
  unfold ret at 1. unfold member.
  destruct (lighthouseResult data) as [lh |]; [| discriminate].
  unfold ret at 1. destruct (categories lh) as [cats |] eqn:Ec; [| discriminate].
  unfold ret at 1. destruct (audits lh) as [metrics |]; [| discriminate].
  unfold ret. intros H. injection H as <- _.
  cbn [lighthouse_scores score]. do 2 eexists. repeat split.
Qed.

(** The three ways a performance scan ends, with the scores it reports. *)
Lemma performance_outcomes (url : string) (w : world) :
  exists s w',
    performPerformanceScan url w = (inr s, w') /\
    ((performance_status s = failed /\ source s = None /\ score s = Some 0
      /\ lighthouse_scores s = None) \/
     (performance_status s = completed /\ source s = Some "basic-scan" /\
      exists z, score s = Some z /\ (20 <= z <= 100)%Z
                /\ lighthouse_scores s = Some (synthesized z)) \/
     (performance_status s = completed /\ source s = Some "google-pagespeed" /\
      exists z ls, score s = Some z /\ lighthouse_scores s = Some ls
                   /\ ls_performance ls = Some z)).
Proof.
  assert (Hbasic : forall w0,
    exists s w',
      try_catch (performBasicPerformanceScan url)
        (fun error =>
           ret {| performance_error := Some error; score := Some 0;
                  load_time_ms := Some 0; performance_status := failed;
                  image_count := None; scripts_count := None;
                  stylesheets_count := None; compression_enabled := None;
                  caching_enabled := None; lighthouse_scores := None;
                  source := None |}) w0 = (inr s, w') /\
      ((performance_status s = failed /\ source s = None /\ score s = Some 0
        /\ lighthouse_scores s = None) \/
       (performance_status s = completed /\ source s = Some "basic-scan" /\
        exists z, score s = Some z /\ (20 <= z <= 100)%Z
                  /\ lighthouse_scores s = Some (synthesized z)))).
  { intros w0. unfold try_catch. pose proof (basic_run url w0) as H.
    destruct (fetch_page url 15000 w0) as [[e | [response html]] w1].
    - rewrite H. do 2 eexists. split; [reflexivity |]. left. repeat split.
    - destruct H as (s & -> & Hs & Hsrc & z & Hz & Hsc & Hl).
      do 2 eexists. split; [reflexivity |]. right. repeat split; try assumption.
      exists z. split; [exact Hsc |]. split; [| exact Hl]. subst z.
      pose proof (basicDeductions_bounds (clock w1 - clock w0)
                    (resp_headers response) html). lia. }
  unfold performPerformanceScan.
  unfold try_catch at 1. unfold bind, getenv. rewrite key_choice.
  destruct (truthy (pagespeed_key w)) eqn:Ek.
  - unfold performGooglePageSpeedScan. unfold try_catch at 1.
    destruct (googlePageSpeedRequest url (or_str (pagespeed_key w) "") w)
      as [[e | s] w1] eqn:Eg.
    + destruct (Hbasic w1) as (s & w' & Hrun & H). unfold try_catch in Hrun.
      destruct (performBasicPerformanceScan url w1) as [[e' | s'] w2].
      * do 2 eexists. split; [exact Hrun |]. tauto.
      * injection Hrun as <- <-. do 2 eexists. split; [reflexivity |]. tauto.
    + do 2 eexists. split; [reflexivity |]. right. right.
      destruct (google_request_result _ _ _ _ _ Eg) as (Hs & Hsrc & _).
      split; [exact Hs |]. split; [exact Hsrc |].
      eapply google_request_scores. exact Eg.
  - destruct (Hbasic w) as (s & w' & Hrun & H). unfold try_catch in Hrun.
    exists s, w'. split; [exact Hrun | tauto].
Qed.

(** X5. A performance section that comes from the basic scan has a
    score from 20 to 100: the deductions add up to 80 at most, so the
    floor at 0 is never reached.  The performance score it synthesizes
    is that score, and its search score is that score minus 10. *)
Theorem basic_scan_score_floor (url : string) (w w' : world)
  (s : PerformanceSection) :
  performPerformanceScan url w = (inr s, w') ->
  source s = Some "basic-scan" ->
  exists z,
    score s = Some z /\ (20 <= z <= 100)%Z /\
    lighthouse_scores s
    = Some {| ls_performance := Some z; ls_accessibility := None;
              ls_bestPractices := None; ls_seo := Some (z - 10) |}.
Proof.
  intros Hrun Hsrc.
  destruct (performance_outcomes url w) as (s0 & w0 & Hrun0 & H).
  rewrite Hrun in Hrun0. injection Hrun0 as <- <-.
  destruct H as [(_ & H & _) | [(_ & _ & z & Hz & Hr & Hl) | (_ & H & _)]];
    try (rewrite H in Hsrc; discriminate).
  exists z. split; [exact Hz |]. split; [exact Hr |].
  rewrite Hl. unfold synthesized. do 3 f_equal. lia.
Qed.

Lemma basic_scan_score_floor_witness :
  exists s w',
    performPerformanceScan sampleUrl sampleWorld = (inr s, w') /\
    exists z,
      score s = Some z /\ (20 <= z <= 100)%Z /\
      lighthouse_scores s
      = Some {| ls_performance := Some z; ls_accessibility := None;
                ls_bestPractices := None; ls_seo := Some (z - 10) |}.
Proof.
  do 2 eexists. split; [vm_compute; reflexivity |].
  eapply (basic_scan_score_floor sampleUrl sampleWorld);
    [vm_compute; reflexivity | reflexivity].
Defined.

(** ** The row and the sections stored beside it *)

Lemma accessibility_total url w s w' :
  performAccessibilityScan url w = (inr s, w') ->
  exists l, accessibility_issues s = Some l /\ total_issues s = Some (len l).
Proof.
  unfold performAccessibilityScan, try_catch, bind.
  destruct (fetch url 10000 w) as [[e | response] w1].
  - intros H. injection H as <- _. exists []. split; reflexivity.
  - unfold text. destruct (resp_text response) as [e | html]; unfold throw, ret;
      intros H; apply returned in H; subst s; eexists; split; reflexivity.
Qed.

Lemma length_pushIf {A} (c : bool) (x : A) (l : list A) :
  (List.length (pushIf c x l) <= S (List.length l))%nat.
Proof. unfold pushIf. destruct c; [rewrite length_app; simpl |]; lia. Qed.

Lemma techStack_total url w s w' :
  detectTechStack url w = (inr s, w') ->
  exists l, detected s = Some l /\ total_detected s = Some (len l)
            /\ (List.length l <= 12)%nat.
Proof.
  unfold detectTechStack, try_catch, bind.
  destruct (fetch url 10000 w) as [[e | response] w1].
  - intros H. injection H as <- _. exists []. repeat split. simpl. lia.
  - unfold text. destruct (resp_text response) as [e | html]; unfold throw, ret;
      intros H; apply returned in H; subst s.
    + exists []. repeat split. simpl. lia.
    + eexists. split; [reflexivity |]. split; [reflexivity |].
      repeat (etransitivity; [apply length_pushIf | apply le_n_S]).
      repeat match goal with
             | |- context [if ?c then _ else _] => destruct c
             end; simpl; lia.
Qed.

Lemma api_listed url w s w' :
  performAPIScan url w = (inr s, w') ->
  exists l, endpoints s = Some l /\ (List.length l <= 10)%nat.
Proof.
  unfold performAPIScan, try_catch, bind.
  destruct (fetch url 10000 w) as [[e | response] w1].
  - intros H. injection H as <- _. exists []. split; [reflexivity | simpl; lia].
  - unfold text. destruct (resp_text response) as [e | html]; unfold throw, ret;
      intros H; apply returned in H; subst s.
    + exists []. split; [reflexivity | simpl; lia].
    + eexists. split; [reflexivity |]. apply firstn_le.
Qed.

Lemma security_passed url w s w' :
  performSecurityScan url w = (inr s, w') ->
  security_status s = completed ->
  exists l, security_issues s = Some l /\ checks_passed s = Some (7 - len l)
            /\ (len l <= 6)%Z.
Proof.
  intros Hrun Hdone.
  destruct (security_run url w) as (s0 & w0 & Hrun0 & H).
  rewrite Hrun in Hrun0. injection Hrun0 as <- <-.
  destruct (fst (fetch_page url 10000 w)) as [e | [response html]].
  - destruct H as (Hs & _). rewrite Hs in Hdone. discriminate.
  - destruct H as (_ & _ & issues & Hi & Hp & Hf).
    exists issues. split; [exact Hi |]. split; [exact Hp |].
    pose proof (securityFindings_length (resp_headers response) html) as L.
    rewrite <- Hf, length_map in L. unfold len. lia.
Qed.

Lemma processScan_flatten url w r w' :
  performScan url w = (inr r, w') ->
  processScan url w
  = (inr (flatten r (extractTopIssues r) (calculateOverallScore r)), w').
Proof. intros H. unfold processScan, bind. rewrite H. reflexivity. Qed.

(** X6. The summary columns of the row agree with the sections
    stored beside them: the performance score is the score of the
    performance section, the number of accessibility issues is the length
    of the list of that section, the technologies and the endpoints are
    the names and the paths of the listed entries (at most 12 and at most
    10), and for a completed security section the checks passed are those
    of the section. *)
Theorem row_agrees_with_sections (url : string) (w : world) :
  exists row w',
    processScan url w = (inr row, w') /\
    scan_status row = "completed" /\
    (exists p, performance_results row = Some p
               /\ score p = Some (performance_score row)) /\
    (exists a l, accessibility_results row = Some a
                 /\ accessibility_issues a = Some l
                 /\ accessibility_issue_count row = len l) /\
    (exists t l, tech_stack row = Some t /\ detected t = Some l
                 /\ total_detected t = Some (len l)
                 /\ technologies row = map tech_name l
                 /\ (List.length l <= 12)%nat) /\
    (exists a l, api_results row = Some a /\ endpoints a = Some l
                 /\ exposed_endpoints row = map ep_path l
                 /\ (List.length l <= 10)%nat) /\
    (exists s, security_results row = Some s
               /\ (security_status s = completed ->
                   checks_passed s = Some (security_checks_passed row))).
Proof.
  destruct (performScan_run url w)
    as (s1 & w1 & s2 & w2 & s3 & w3 & s4 & w4 & s5 & w5 & s6 & w6
        & H1 & H2 & H3 & H4 & H5 & H6 & Hscan).
  do 2 eexists. split; [apply processScan_flatten; exact Hscan |].
  unfold flatten.
  cbn [scan_status performance_results accessibility_results tech_stack
       api_results security_results performance_score accessibility_issue_count
       technologies exposed_endpoints security_checks_passed
       performance accessibility techStack api security field].
  split; [reflexivity |]. repeat split.
  - exists s4. split; [reflexivity |].
    destruct (performance_outcomes url w3) as (s & w' & Hrun & H).
    rewrite H4 in Hrun. injection Hrun as <- <-.
    destruct H as [(_ & _ & Hz & Hl) | [(_ & _ & z & Hz & Hr & Hl)
                                       | (_ & _ & z & ls & Hz & Hl & Hp)]];
      rewrite Hz, Hl; unfold synthesized; cbn [field ls_performance];
      rewrite ?Hp; unfold or_num;
      repeat match goal with
             | |- context [Z.eqb ?a ?b] => destruct (Z.eqb_spec a b)
             end; congruence.
  - destruct (accessibility_total _ _ _ _ H5) as (l & Hl & Ht).
    exists s5, l. split; [reflexivity |]. split; [exact Hl |].
    rewrite Ht. apply or_num_zero.
  - destruct (techStack_total _ _ _ _ H6) as (l & Hl & Ht & Hn).
    exists s6, l. split; [reflexivity |]. split; [exact Hl |].
    split; [exact Ht |]. rewrite Hl. split; [reflexivity | exact Hn].
  - destruct (api_listed _ _ _ _ H2) as (l & Hl & Hn).
    exists s2, l. split; [reflexivity |]. split; [exact Hl |].
    rewrite Hl. split; [reflexivity | exact Hn].
  - exists s3. split; [reflexivity |]. intros Hdone.
    destruct (security_passed _ _ _ _ H3 Hdone) as (l & Hl & Hp & Hn).
    rewrite Hl, Hp. cbn [or_nil]. f_equal.
    pose proof (len_nonneg l). lia.
Qed.

(** ** The script frameworks of the technology analyzer *)

Lemma existsb_pushIf {A} (f : A -> bool) (c : bool) (x : A) (l : list A) :
  existsb f (pushIf c x l) = existsb f l || (c && f x).
Proof.
  unfold pushIf. destruct c; cbn [andb].
  - rewrite existsb_app. simpl. rewrite orb_false_r. reflexivity.
  - rewrite orb_false_r. reflexivity.
Qed.

(** X7. On a page that was read, the analyzer adds the entry of
    Next.js (a framework) exactly when one of its markers is found, and
    the entry of React (a library) exactly when no marker of Next.js is
    found and one of React is; likewise the entry of Vue.js is added
    exactly when no marker of Nuxt.js is found and one of Vue.js is.  So
    the markers never add both Next.js and React, or both Nuxt.js and
    Vue.js.  A name is in the list exactly when the markers add it or a
    header gives it ([x-powered-by], or [server] before its slash), the
    header entry having the category of servers: when no header gives
    these names, no list holds both names of a pair. *)
Theorem framework_entries (url : string) (w : world) (response : Response)
  (html : string) :
  fst (fetch_page url 10000 w) = inr (response, html) ->
  exists s w' l,
    detectTechStack url w = (inr s, w') /\ detected s = Some l /\
    listed "Next.js" "Framework" l = nextMarkers html /\
    listed "React" "Library" l = negb (nextMarkers html) && reactMarkers html /\
    listed "Nuxt.js" "Framework" l = nuxtMarkers html /\
    listed "Vue.js" "Framework" l = negb (nuxtMarkers html) && vueMarkers html /\
    listed "Next.js" "Framework" l && listed "React" "Library" l = false /\
    listed "Nuxt.js" "Framework" l && listed "Vue.js" "Framework" l = false /\
    named "Next.js" l
    = nextMarkers html || headerNamed (resp_headers response) "Next.js" /\
    named "React" l
    = negb (nextMarkers html) && reactMarkers html
      || headerNamed (resp_headers response) "React" /\
    named "Nuxt.js" l
    = nuxtMarkers html || headerNamed (resp_headers response) "Nuxt.js" /\
    named "Vue.js" l
    = negb (nuxtMarkers html) && vueMarkers html
      || headerNamed (resp_headers response) "Vue.js" /\
    (headerNamed (resp_headers response) "Next.js" = false ->
     headerNamed (resp_headers response) "React" = false ->
     named "Next.js" l && named "React" l = false) /\
    (headerNamed (resp_headers response) "Nuxt.js" = false ->
     headerNamed (resp_headers response) "Vue.js" = false ->
     named "Nuxt.js" l && named "Vue.js" l = false).
Proof.
  unfold detectTechStack, fetch_page, try_catch, bind.
  destruct (fetch url 10000 w) as [[e | r] w1]; [discriminate |].
  unfold text. destruct (resp_text r) as [e | h]; unfold throw, ret;
    [discriminate |].
  cbn [fst]. intros H. injection H as -> ->.
  do 3 eexists. split; [reflexivity |]. split; [reflexivity |].
  unfold headerNamed.
  set (byPower := fun name =>
         truthy (headers_get (resp_headers response) "x-powered-by")
         && String.eqb (or_str (headers_get (resp_headers response) "x-powered-by") "")
                       name).
  set (byServer := fun name =>
         truthy (headers_get (resp_headers response) "server")
         && String.eqb
              (nth 0 (split "/" (or_str (headers_get (resp_headers response) "server") ""))
                   "") name).
  unfold listed, named, nextMarkers, reactMarkers, nuxtMarkers, vueMarkers.
  rewrite !existsb_pushIf.
  cbn [tech_name tech_category technology String.eqb Ascii.eqb Bool.eqb andb].
  rewrite !andb_false_r, !orb_false_r.
  fold (byPower "Next.js") (byPower "React") (byPower "Nuxt.js") (byPower "Vue.js").
  fold (byServer "Next.js") (byServer "React") (byServer "Nuxt.js") (byServer "Vue.js").
  destruct (includes html "__nuxt" || includes html "_nuxt/"),
           (includes html "vue" || includes html "Vue"
            || matches_i Patterns.vue_js html),
           (includes html "__NEXT_DATA__" || includes html "_next/static"),
           (includes html "react" || includes html "React"
            || includes html "_react" || matches_i Patterns.react_dom html);
    cbn [existsb app tech_name tech_category technology String.eqb Ascii.eqb
         Bool.eqb andb orb negb];
    repeat split; try reflexivity;
    intros H1 H2; rewrite ?H1, ?H2; reflexivity.
Qed.

Lemma framework_entries_witness :
  exists s w' l,
    detectTechStack sampleUrl (site poweredByNext) = (inr s, w') /\
    detected s = Some l /\
    listed "Next.js" "Framework" l = false /\ listed "React" "Library" l = true /\
    named "Next.js" l = true /\ named "React" l = true.
Proof.
  destruct (framework_entries sampleUrl (site poweredByNext)
              {| resp_status := 200; resp_headers := [("x-powered-by", "Next.js")];
                 resp_text := inr "<html lang='en'><body>react</body></html>";
                 resp_json := inl "Unexpected token" |}
              "<html lang='en'><body>react</body></html>")
    as (s & w' & l & Hrun & Hl & H1 & H2 & _ & _ & _ & _ & H3 & H4 & _);
    [vm_compute; reflexivity |].
  exists s, w', l. split; [exact Hrun |]. split; [exact Hl |].
  rewrite H1, H2, H3, H4. vm_compute. repeat split.
Defined.

(** ** The order of the top issues *)






(** ** The opportunities and the diagnostics of a page-speed scan *)

Lemma fold_left_push {A B} (f : list B -> A -> list B) (g : A -> list B)
  (l : list A) (acc : list B) :
  (forall acc x, f acc x = acc ++ g x) ->
  fold_left f l acc = acc ++ flat_map g l.
Proof.
  intros Hf. revert acc. induction l as [| x l IH]; intros acc; simpl.
  - symmetry. apply app_nil_r.
  - rewrite IH, Hf, <- app_assoc. reflexivity.
Qed.

Lemma flat_map_optional {A B} (q : A -> bool) (g : A -> B) (l : list A) :
  flat_map (fun x => optional (q x) (g x)) l = map g (filter q l).
Proof.
  induction l as [| x l IH]; [reflexivity |].
  simpl. rewrite IH. destruct (q x); reflexivity.
Qed.

Lemma or_str_nonempty (o : option string) (d : string) :
  d <> "" -> or_str o d <> "".
Proof.
  intros Hd. unfold or_str. destruct o as [s |]; [| exact Hd].
  destruct (String.eqb_spec s ""); assumption.
Qed.

Lemma opportunities_listed (audits : PageSpeedAudits) :
  extractPageSpeedOpportunities audits
  = firstn 5
      (map (fun auditId =>
              {| opp_title := titleOf audits auditId;
                 opp_description :=
                   match audits auditId with
                   | Some audit => audit_description audit
                   | None => None
                   end;
                 opp_score :=
                   match audits auditId with
                   | Some {| audit_score := Some f |} => f
                   | _ => 0%float
                   end;
                 opp_savings :=
                   match audits auditId with
                   | Some audit => savingsOf audit
                   | None => 0%float
                   end |})
         (filter (qualifies audits) opportunityAudits)).
Proof.
  unfold extractPageSpeedOpportunities, slice0. f_equal.
  rewrite <- flat_map_optional.
  erewrite fold_left_push; [reflexivity |].
  intros acc x. unfold qualifies, titleOf, savingsOf, optional.
  destruct (audits x) as [[t d [f |] dt] |]; cbn;
    [destruct (PrimFloat.ltb f 1); [destruct dt as [[[ms |]] |] |] | |];
    rewrite ?app_nil_r; reflexivity.
Qed.

Lemma diagnostics_listed (audits : PageSpeedAudits) :
  extractPageSpeedDiagnostics audits
  = map (fun auditId =>
           {| diag_title := titleOf audits auditId;
              diag_description :=
                match audits auditId with
                | Some audit => audit_description audit
                | None => None
                end;
              diag_score :=
                match audits auditId with
                | Some {| audit_score := Some f |} => f
                | _ => 0%float
                end |})
      (filter (qualifies audits) diagnosticAudits).
Proof.
  unfold extractPageSpeedDiagnostics, slice0.
  rewrite <- flat_map_optional.
  erewrite fold_left_push.
  - cbn [app]. apply firstn_all2.
    rewrite flat_map_optional, length_map.
    etransitivity; [apply filter_le | apply le_n].
  - intros acc x. unfold qualifies, titleOf, optional.
    destruct (audits x) as [[t d [f |] dt] |]; cbn;
      [destruct (PrimFloat.ltb f 1) | |]; rewrite ?app_nil_r; reflexivity.
Qed.

Lemma listed_audit_named (l : list string) (auditId : string) :
  forallb nonempty l = true -> In auditId l -> auditId <> "".
Proof.
  intros H Hin. rewrite forallb_forall in H. apply nonempty_spec. apply H. exact Hin.
Qed.

(** X9. The opportunities of a page-speed scan are the audits of the
    eight listed identifiers that were sent with a numeric score below 1,
    in the order of the list, cut after the fifth.  Each carries a title
    that is not empty (the title of the audit, or its identifier), the
    score and the description of its audit, and the savings of the
    details of the audit, 0 when there are none. *)
Theorem opportunities_reported (audits : PageSpeedAudits) :
  map opp_title (extractPageSpeedOpportunities audits)
  = firstn 5 (map (titleOf audits) (filter (qualifies audits) opportunityAudits)) /\
  Forall (fun o =>
            opp_title o <> "" /\ PrimFloat.ltb (opp_score o) 1 = true /\
            exists auditId audit,
              In auditId opportunityAudits /\ audits auditId = Some audit /\
              audit_score audit = Some (opp_score o) /\
              opp_title o = or_str (audit_title audit) auditId /\
              opp_description o = audit_description audit /\
              opp_savings o = savingsOf audit)
         (extractPageSpeedOpportunities audits).
Proof.
  rewrite opportunities_listed. split.
  - rewrite <- firstn_map, map_map. reflexivity.
  - apply Forall_firstn_of. apply Forall_forall. intros o Ho.
    apply in_map_iff in Ho. destruct Ho as (auditId & <- & Hin).
    apply filter_In in Hin. destruct Hin as (Hin & Hq).
    unfold qualifies, titleOf in *. cbn [opp_title opp_score opp_description opp_savings].
    destruct (audits auditId) as [audit |] eqn:Ea; [| discriminate].
    destruct audit as [t d sc dt]. cbn [audit_score audit_title] in *.
    destruct sc as [f |]; [| discriminate]. cbn [below_one] in Hq.
    split; [| split; [exact Hq |]].
    + apply or_str_nonempty. apply (listed_audit_named opportunityAudits);
        [reflexivity | exact Hin].
    + exists auditId, {| audit_title := t; audit_description := d;
                         audit_score := Some f; audit_details := dt |}.
      repeat split; assumption.
Qed.

(** X10. The diagnostics of a page-speed scan are the audits of the
    five listed identifiers that were sent with a numeric score below 1,
    in the order of the list; the cut after the fifth never drops one.
    Each carries a title that is not empty, and the score and the
    description of its audit. *)
Theorem diagnostics_reported (audits : PageSpeedAudits) :
  map diag_title (extractPageSpeedDiagnostics audits)
  = map (titleOf audits) (filter (qualifies audits) diagnosticAudits) /\
  Forall (fun o =>
            diag_title o <> "" /\ PrimFloat.ltb (diag_score o) 1 = true /\
            exists auditId audit,
              In auditId diagnosticAudits /\ audits auditId = Some audit /\
              audit_score audit = Some (diag_score o) /\
              diag_title o = or_str (audit_title audit) auditId /\
              diag_description o = audit_description audit)
         (extractPageSpeedDiagnostics audits).
Proof.
  rewrite diagnostics_listed. split.
  - rewrite map_map. reflexivity.
  - apply Forall_forall. intros o Ho.
    apply in_map_iff in Ho. destruct Ho as (auditId & <- & Hin).
    apply filter_In in Hin. destruct Hin as (Hin & Hq).
    unfold qualifies, titleOf in *. cbn [diag_title diag_score diag_description].
    destruct (audits auditId) as [audit |] eqn:Ea; [| discriminate].
    destruct audit as [t d sc dt]. cbn [audit_score audit_title] in *.
    destruct sc as [f |]; [| discriminate]. cbn [below_one] in Hq.
    split; [| split; [exact Hq |]].
    + apply or_str_nonempty. apply (listed_audit_named diagnosticAudits);
        [reflexivity | exact Hin].
    + exists auditId, {| audit_title := t; audit_description := d;
                         audit_score := Some f; audit_details := dt |}.
      repeat split; assumption.
Qed.

Lemma opportunities_of_sample :
  map opp_title (extractPageSpeedOpportunities sampleAudits)
  = ["Reduce unused JavaScript"; "minify-css"] /\
  map opp_savings (extractPageSpeedOpportunities sampleAudits) = [450%float; 0%float] /\
  map diag_title (extractPageSpeedDiagnostics sampleAudits)
  = ["Avoid an excessive DOM size"].
Proof. repeat split. Qed.

(** ** The text handed to the parser *)

Lemma append_assoc (a b c : string) : ((a ++ b) ++ c = a ++ (b ++ c))%string.
Proof. induction a as [| x a IH]; simpl; congruence. Qed.

Lemma append_empty (a : string) : (a ++ "")%string = a.
Proof. induction a as [| x a IH]; simpl; congruence. Qed.

Lemma length_append (a b : string) :
  String.length (a ++ b) = (String.length a + String.length b)%nat.
Proof. induction a as [| x a IH]; simpl; congruence. Qed.

Lemma trimStart_blank (ws s : string) :
  blank ws = true -> trimStart (ws ++ s) = trimStart s.
Proof.
  induction ws as [| c ws IH]; [reflexivity |].
  simpl. intros H. apply andb_prop in H. destruct H as [Hc Hws].
  rewrite Hc. apply IH. exact Hws.
Qed.

Lemma trimEnd_blank (ws : string) : blank ws = true -> trimEnd ws = "".
Proof.
  induction ws as [| c ws IH]; [reflexivity |].
  simpl. intros H. apply andb_prop in H. destruct H as [Hc Hws].
  rewrite (IH Hws), Hc. reflexivity.
Qed.

Lemma trimEnd_append (a b : string) :
  trimEnd b <> "" -> trimEnd (a ++ b) = (a ++ trimEnd b)%string.
Proof.
  intros Hb. induction a as [| x a IH]; [reflexivity |].
  simpl. rewrite IH. destruct (a ++ trimEnd b)%string eqn:E; [| reflexivity].
  destruct a; simpl in E; [contradiction | discriminate].
Qed.

Lemma trimEnd_fence (ws : string) :
  blank ws = true -> trimEnd (fence ++ ws) = fence.
Proof.
  intros H. unfold fence. cbn [append]. rewrite !trimEnd_cons by reflexivity.
  rewrite (trimEnd_blank ws H). reflexivity.
Qed.

(** A string that is its own trim neither starts nor ends with white
    space. *)
Lemma trim_fixed (j : string) :
  trim j = j -> trimStart j = j /\ trimEnd j = j.
Proof.
  unfold trim. intros H.
  assert (Hs : trimStart j = j).
  { set (x := trimStart j) in H. assert (E : trimStart j = x) by reflexivity.
    clearbody x. destruct x as [| c t].
    - simpl in H. subst j. reflexivity.
    - pose proof (trimStart_head _ _ _ E) as Hc.
      rewrite trimEnd_cons in H by exact Hc. rewrite <- H. simpl. rewrite Hc.
      reflexivity. }
  split; [exact Hs |]. rewrite Hs in H. exact H.
Qed.

Lemma trimEnd_tail (c : ascii) (t : string) :
  trimEnd (String c t) = String c t -> trimEnd t = t.
Proof.
  simpl. destruct (trimEnd t) as [| d u] eqn:E.
  - destruct (is_space c); [discriminate |]. intros H. injection H as <-. reflexivity.
  - intros H. injection H as <-. reflexivity.
Qed.

Lemma trimEnd_blank_head (c : ascii) (t : string) :
  trimEnd (String c t) = String c t -> is_space c = true -> t <> "".
Proof.
  intros H Hc ->. simpl in H. rewrite Hc in H. discriminate.
Qed.

Lemma prefix_cons (c : ascii) (a b : string) :
  prefix (String c a) (String c b) = prefix a b.
Proof. simpl. destruct (ascii_dec c c); [reflexivity | contradiction]. Qed.

Lemma prefix_append_same (a b c : string) :
  prefix (a ++ b) (a ++ c) = prefix b c.
Proof. induction a as [| x a IH]; [reflexivity |]. cbn [append]. rewrite prefix_cons. exact IH. Qed.

Lemma prefix_append (a b : string) : prefix a (a ++ b) = true.
Proof.
  rewrite <- (append_empty a) at 1. rewrite prefix_append_same.
  destruct b; reflexivity.
Qed.

Lemma run_seq (ic : bool) (r1 r2 : regex) (A : Type) (k : mstate -> option A)
  (st : mstate) :
  run ic (Seq r1 r2) A k st = run ic r1 A (run ic r2 A k) st.
Proof. reflexivity. Qed.

Lemma run_lit (c : ascii) (A : Type) (k : mstate -> option A) (s : string)
  (p : option ascii) (n : nat) (cs : list (nat * string)) :
  run false (Lit c) A k (MState (String c s) p n cs)
  = k (MState s (Some c) (S n) cs).
Proof. cbn. rewrite Ascii.eqb_refl. reflexivity. Qed.

Lemma star_spaces_run (A : Type) (k : mstate -> option A) (s : string)
  (p : option ascii) (n : nat) (cs : list (nat * string)) :
  run false (star_of [Space]) A k (MState s p n cs)
  = match s with
    | String d t =>
        if is_space d then
          match run false (star_of [Space]) A k (MState t (Some d) (S n) cs) with
          | Some a => Some a
          | None => k (MState s p n cs)
          end
        else k (MState s p n cs)
    | EmptyString => k (MState s p n cs)
    end.
Proof.
  destruct s as [| d t]; [reflexivity |].
  cbn. unfold mem. cbn. rewrite orb_false_r. destruct (is_space d); reflexivity.
Qed.

(** White space is consumed greedily: what is left starts with none. *)
Lemma star_spaces_rest (s : string) (p : option ascii) (n : nat)
  (cs : list (nat * string)) :
  exists st,
    run false (star_of [Space]) mstate Some (MState s p n cs) = Some st
    /\ rest st = trimStart s.
Proof.
  revert p n. induction s as [| d t IH]; intros p n.
  - eexists. split; reflexivity.
  - rewrite star_spaces_run. cbn [trimStart]. destruct (is_space d).
    + destruct (IH (Some d) (S n)) as (st & -> & Hst). exists st. split; [reflexivity | exact Hst].
    + eexists. split; reflexivity.
Qed.

Lemma fence_exact (s : string) (p : option ascii) (n : nat)
  (cs : list (nat * string)) :
  run false (str fence) unit at_end (MState s p n cs)
  = if String.eqb s fence then Some tt else None.
Proof.
  destruct s as [| c1 [| c2 [| c3 [| c4 s']]]];
    cbn [run str fence char_eq at_end rest prev pos caps String.eqb];
    repeat match goal with
           | |- context [Ascii.eqb ?a ?b] =>
               destruct (Ascii.eqb_spec a b); subst;
               cbn [run str fence char_eq at_end rest prev pos caps String.eqb]
           end; try reflexivity; congruence.
Qed.

Lemma space_not_fence (d : ascii) (t : string) :
  is_space d = true -> String.eqb (String d t) fence = false.
Proof.
  intros H. unfold fence. cbn [String.eqb].
  destruct (Ascii.eqb_spec d "`"); [| reflexivity].
  subst d. discriminate.
Qed.

(** The closing pattern matches up to the end exactly on white space
    followed by a fence. *)
Lemma closing_run (s : string) (p : option ascii) (n : nat)
  (cs : list (nat * string)) :
  run false (star_of [Space]) unit (run false (str fence) unit at_end)
    (MState s p n cs)
  = if String.eqb (trimStart s) fence then Some tt else None.
Proof.
  revert p n. induction s as [| d t IH]; intros p n.
  - rewrite star_spaces_run, fence_exact. reflexivity.
  - rewrite star_spaces_run, fence_exact, IH. simpl trimStart.
    destruct (is_space d) eqn:Hd; [| reflexivity].
    rewrite (space_not_fence d t Hd).
    destruct (String.eqb (trimStart t) fence); reflexivity.
Qed.

Lemma matches_closing (s : string) (p : option ascii) :
  matches_to_end closing_fence s p = String.eqb (trimStart s) fence.
Proof.
  unfold matches_to_end, closing_fence. cbn [cat]. rewrite run_seq, closing_run.
  destruct (String.eqb (trimStart s) fence); reflexivity.
Qed.

Lemma removeAtStart_tagged (s : string) :
  removeAtStart (opening_fence "json") (fence ++ "json" ++ s) = trimStart s.
Proof.
  unfold removeAtStart, match_at, opening_fence, fence.
  cbn [cat str append].
  repeat (rewrite run_seq || rewrite run_lit).
  destruct (star_spaces_rest s (Some "n"%char) 7 []) as (st & -> & Hst). exact Hst.
Qed.

Lemma removeAtStart_plain (s : string) :
  removeAtStart (opening_fence "") (fence ++ s) = trimStart s.
Proof.
  unfold removeAtStart, match_at, opening_fence, fence.
  cbn [cat str append].
  repeat (rewrite run_seq || rewrite run_lit).
  destruct (star_spaces_rest s (Some "`"%char) 3 []) as (st & -> & Hst). exact Hst.
Qed.

Lemma not_only_fence (j ws : string) :
  j <> "" -> trimEnd j = j -> blank ws = true ->
  String.eqb (trimStart (j ++ ws ++ fence)) fence = false.
Proof.
  induction j as [| c t IH]; [contradiction |].
  intros _ Hj Hws. pose proof (trimEnd_tail c t Hj) as Ht.
  cbn [append trimStart]. destruct (is_space c) eqn:Hc.
  - apply IH; [exact (trimEnd_blank_head c t Hj Hc) | exact Ht | exact Hws].
  - apply String.eqb_neq. intros H.
    apply (f_equal String.length) in H. cbn [String.length] in H.
    rewrite !length_append in H. simpl in H. lia.
Qed.

Lemma removeAtEnd_closing (j ws : string) (p : option ascii) :
  trimEnd j = j -> blank ws = true ->
  removeAtEnd_from closing_fence (j ++ ws ++ fence) p = j.
Proof.
  revert p. induction j as [| c t IH]; intros p Hj Hws.
  - cbn [append]. destruct (ws ++ fence)%string eqn:E;
      cbn [removeAtEnd_from]; rewrite matches_closing, <- E, <- (append_empty (ws ++ fence));
      rewrite append_assoc, trimStart_blank by exact Hws; reflexivity.
  - cbn [append removeAtEnd_from]. rewrite matches_closing.
    change (String c (t ++ ws ++ fence)) with (String c t ++ ws ++ fence)%string.
    rewrite not_only_fence by (exact Hj || exact Hws || discriminate).
    rewrite (IH (Some c) (trimEnd_tail c t Hj) Hws). reflexivity.
Qed.

Lemma body_unwrapped (ws1 j ws2 : string) :
  blank ws1 = true -> blank ws2 = true -> trimStart j = j -> trimEnd j = j ->
  removeAtEnd closing_fence (trimStart (ws1 ++ j ++ ws2 ++ fence)) = j.
Proof.
  intros H1 H2 Hs He. rewrite trimStart_blank by exact H1.
  unfold removeAtEnd. destruct j as [| c t].
  - cbn [append]. rewrite <- (append_empty (ws2 ++ fence)), append_assoc.
    rewrite trimStart_blank by exact H2.
    apply (removeAtEnd_closing "" "" None); reflexivity.
  - pose proof (trimStart_head _ _ _ Hs) as Hc.
    cbn [append trimStart]. rewrite Hc.
    apply (removeAtEnd_closing (String c t) ws2 None); assumption.
Qed.

Lemma trim_fenced (ws0 x ws3 : string) :
  blank ws0 = true -> blank ws3 = true ->
  trim (ws0 ++ fence ++ x ++ fence ++ ws3) = (fence ++ x ++ fence)%string.
Proof.
  intros H0 H3. unfold trim. rewrite trimStart_blank by exact H0.
  change (trimStart (fence ++ x ++ fence ++ ws3)) with (fence ++ x ++ fence ++ ws3)%string.
  replace (fence ++ x ++ fence ++ ws3)%string
    with ((fence ++ x) ++ (fence ++ ws3))%string
    by (rewrite !append_assoc; reflexivity).
  rewrite trimEnd_append; rewrite trimEnd_fence by exact H3;
    [apply append_assoc | discriminate].
Qed.

(** X11. A reply that wraps its object in a fenced block, with or
    without the tag json and with white space around the fences and
    around the object, is handed to the parser as the object alone: for
    every text [j] that is its own trim the text between the fences is
    recovered exactly, also when [j] holds fences of its own. *)
Theorem fenced_reply_unwrapped (ws0 ws1 ws2 ws3 j : string) (tagged : bool) :
  blank ws0 = true -> blank ws1 = true -> blank ws2 = true -> blank ws3 = true ->
  trim j = j ->
  (tagged = false -> startsWith (ws1 ++ j ++ ws2 ++ fence) "json" = false) ->
  jsonText (ws0 ++ fence ++ ((if tagged then "json" else "") ++ ws1 ++ j ++ ws2)
            ++ fence ++ ws3)
  = j.
Proof.
  intros H0 H1 H2 H3 Hj Hplain. destruct (trim_fixed j Hj) as [Hs He].
  unfold jsonText. rewrite trim_fenced by assumption.
  unfold startsWith. destruct tagged.
  - replace (fence ++ ("json" ++ ws1 ++ j ++ ws2) ++ fence)%string
      with ((fence ++ "json") ++ (ws1 ++ j ++ ws2 ++ fence))%string
      by (rewrite !append_assoc; reflexivity).
    rewrite prefix_append. rewrite append_assoc.
    rewrite removeAtStart_tagged. apply body_unwrapped; assumption.
  - replace (fence ++ ("" ++ ws1 ++ j ++ ws2) ++ fence)%string
      with (fence ++ (ws1 ++ j ++ ws2 ++ fence))%string
      by (cbn [append]; rewrite !append_assoc; reflexivity).
    rewrite prefix_append_same. unfold startsWith in Hplain.
    rewrite (Hplain eq_refl).
    rewrite prefix_append.
    rewrite removeAtStart_plain. apply body_unwrapped; assumption.
Qed.

Lemma fenced_reply_unwrapped_witness :
  jsonText fencedReply = "{'summary': 'ok', 'recommendations': []}".
Proof.
  apply (fenced_reply_unwrapped " " newline newline " "
           "{'summary': 'ok', 'recommendations': []}" true);
    reflexivity.
Defined.

(** ** The summary step *)

Lemma post_requests (url body : string) (w : world) :
  requests 1 w (snd (post url body w)).
Proof.
  unfold post, requests. destruct (network w) as [| x rest] eqn:N.
  - cbn [snd]. rewrite N. repeat split.
  - cbn. repeat split.
Qed.

(** X12. The summary step never throws.  Without a key it makes no
    request and leaves the world as it is; with a key it makes exactly
    one request.  It returns the empty analysis (no summary, no
    recommendation) unless that request is answered with an OK status
    and a text that is not empty: a refused connection, an error status,
    a body that cannot be read and a reply without text all give the
    empty analysis. *)
Theorem generateAIAnalysis_total (replyText : Response -> exn + option string)
  (JSON_parse : string -> exn + ParsedReply) (url : string)
  (scanResults : PipelineResults) (topIssues : list TopIssue) (overallScore : Z)
  (w : world) :
  exists a w',
    generateAIAnalysis replyText JSON_parse url scanResults topIssues overallScore w
    = (inr a, w') /\
    (truthy (assoc "GEMINI_API_KEY" (env w)) = false -> a = noAnalysis /\ w' = w) /\
    (truthy (assoc "GEMINI_API_KEY" (env w)) = true -> requests 1 w w') /\
    (a <> noAnalysis ->
     exists x rest response content,
       network w = x :: rest /\ answer x = inr response /\ ok response = true /\
       replyText response = inr (Some content) /\ content <> "").
Proof.
  unfold generateAIAnalysis, bind, getenv.
  destruct (truthy (assoc "GEMINI_API_KEY" (env w))) eqn:K; cbn [negb].
  2:{ do 2 eexists. split; [reflexivity |]. split; [auto |].
      split; [discriminate | intros H; contradiction]. }
  unfold try_catch at 1.
  match goal with
  | |- context [post ?u ?b w] =>
      pose proof (post_requests u b w) as R; unfold post in *
  end.
  destruct (network w) as [| x rest] eqn:N.
  { do 2 eexists. split; [reflexivity |]. split; [discriminate |].
    split; [intros _; exact R | intros H; contradiction]. }
  cbn [snd] in R.
  destruct (answer x) as [e | response] eqn:A.
  { do 2 eexists. split; [reflexivity |]. split; [discriminate |].
    split; [intros _; exact R | intros H; contradiction]. }
  destruct (ok response) eqn:Ok; cbn [negb].
  2:{ unfold try_catch, text. destruct (resp_text response); unfold throw, ret;
        do 2 eexists; (split; [reflexivity |]); (split; [discriminate |]);
        (split; [intros _; exact R | intros H; contradiction]). }
  unfold raise at 1. destruct (replyText response) as [e | content] eqn:T.
  { do 2 eexists. split; [reflexivity |]. split; [discriminate |].
    split; [intros _; exact R | intros H; contradiction]. }
  unfold ret at 1. destruct (truthy content) eqn:C; cbn [negb].
  2:{ do 2 eexists. split; [reflexivity |]. split; [discriminate |].
      split; [intros _; exact R | intros H; contradiction]. }
  assert (Hc : exists c, content = Some c /\ c <> "").
  { unfold truthy in C. destruct content as [c |]; [| discriminate].
    exists c. split; [reflexivity |]. intros ->. discriminate. }
  destruct Hc as (c & -> & Hc).
  unfold try_catch, raise.
  destruct (JSON_parse _) as [e | parsed]; unfold throw, ret;
    do 2 eexists; (split; [reflexivity |]); (split; [discriminate |]);
    (split; [intros _; exact R |]); intros _; exists x, rest, response, c;
    repeat split; assumption.
Qed.

(** X13. With a key, when the request is answered with an OK status
    and a text [c] that is not empty, however long the answer takes, the
    analysis is read from what the parser makes of the unwrapped text: a
    summary that is empty or missing becomes none, missing
    recommendations become the empty list; and when the parser throws,
    the summary is the text [c] itself, as it was sent, with no
    recommendation. *)
Theorem reply_becomes_analysis (replyText : Response -> exn + option string)
  (JSON_parse : string -> exn + ParsedReply) (url : string)
  (scanResults : PipelineResults) (topIssues : list TopIssue) (overallScore : Z)
  (w : world) (x : Exchange) (rest : list Exchange) (response : Response)
  (c : string) :
  truthy (assoc "GEMINI_API_KEY" (env w)) = true ->
  network w = x :: rest -> answer x = inr response -> ok response = true ->
  replyText response = inr (Some c) -> c <> "" ->
  fst (generateAIAnalysis replyText JSON_parse url scanResults topIssues
         overallScore w)
  = inr match JSON_parse (jsonText c) with
        | inr parsed =>
            {| summary := match parsed_summary parsed with
                          | Some "" | None => None
                          | Some s => Some s
                          end;
               recommendations := match parsed_recommendations parsed with
                                  | Some l => l
                                  | None => []
                                  end |}
        | inl _ => {| summary := Some c; recommendations := [] |}
        end.
Proof.
  intros K N A Ok T Hc.
  unfold generateAIAnalysis, bind, getenv. rewrite K. cbn [negb].
  unfold try_catch at 1. unfold post. rewrite N, A, Ok. cbn [negb].
  rewrite T. unfold raise at 1. unfold ret at 1.
  assert (C : truthy (Some c) = true).
  { unfold truthy. destruct (String.eqb_spec c ""); [contradiction | reflexivity]. }
  rewrite C. cbn [negb].
  assert (Hor : or_str (Some c) "" = c).
  { unfold or_str. destruct (String.eqb_spec c ""); [contradiction | reflexivity]. }
  rewrite Hor. unfold try_catch, raise.
  destruct (JSON_parse (jsonText c)) as [e | parsed]; unfold throw, ret;
    cbn [fst]; [reflexivity |].
  do 2 f_equal. unfold truthy.
  destruct (parsed_summary parsed) as [[| ch s] |]; reflexivity.
Qed.

Lemma reply_becomes_analysis_witness :
  fst (generateAIAnalysis (fun _ => inr (Some fencedReply))
         (fun s => if String.eqb s "{'summary': 'ok', 'recommendations': []}"
                   then inr {| parsed_summary := Some "ok";
                               parsed_recommendations := Some [] |}
                   else inl "Unexpected token")
         sampleUrl allPending [] 0
         (modelWorld (page 200 [] "")))
  = inr {| summary := Some "ok"; recommendations := [] |}.
Proof.
  rewrite (reply_becomes_analysis _ _ sampleUrl allPending [] 0
             (modelWorld (page 200 [] "")) (page 200 [] "") []
             {| resp_status := 200; resp_headers := []; resp_text := inr "";
                resp_json := inl "Unexpected token" |} fencedReply);
    try reflexivity.
  discriminate.
Defined.

(** X20. A reply that is not JSON survives the round trip through
    the store: the summary step stores the text of the reply as the
    summary, and the report function, which unwraps and parses the stored
    summary once more, reads the same analysis back. *)
Theorem report_reads_raw_reply (replyText : Response -> exn + option string)
  (JSON_parse : string -> exn + ParsedReply) (url : string)
  (scanResults : PipelineResults) (topIssues : list TopIssue) (overallScore : Z)
  (w : world) (x : Exchange) (rest : list Exchange) (response : Response)
  (c : string) (e : exn) :
  truthy (assoc "GEMINI_API_KEY" (env w)) = true ->
  network w = x :: rest -> answer x = inr response -> ok response = true ->
  replyText response = inr (Some c) -> c <> "" ->
  JSON_parse (jsonText c) = inl e ->
  exists a,
    fst (generateAIAnalysis replyText JSON_parse url scanResults topIssues
           overallScore w) = inr a /\
    summary a = Some c /\ recommendations a = [] /\
    parseAISummary JSON_parse (summary a) = a.
Proof.
  intros K N A Ok T Hc Hp.
  assert (C : truthy (Some c) = true).
  { unfold truthy. destruct (String.eqb_spec c ""); [contradiction | reflexivity]. }
  assert (Hor : or_str (Some c) "" = c).
  { unfold or_str. destruct (String.eqb_spec c ""); [contradiction | reflexivity]. }
  exists {| summary := Some c; recommendations := [] |}. split.
  - unfold generateAIAnalysis, bind, getenv. rewrite K. cbn [negb].
    unfold try_catch at 1. unfold post. rewrite N, A, Ok. cbn [negb].
    rewrite T. unfold raise at 1. unfold ret at 1.
    rewrite C. cbn [negb]. rewrite Hor. unfold try_catch, raise.
    rewrite Hp. reflexivity.
  - cbn [summary recommendations]. repeat split.
    unfold parseAISummary. rewrite C, Hor, Hp. reflexivity.
Qed.

Lemma report_reads_raw_reply_witness :
  exists a,
    fst (generateAIAnalysis (fun _ => inr (Some "The site is slow."))
           (fun _ => inl "Unexpected token")
           sampleUrl allPending [] 0 (modelWorld (page 200 [] ""))) = inr a /\
    summary a = Some "The site is slow." /\
    parseAISummary (fun _ => inl "Unexpected token") (summary a) = a.
Proof.
  destruct (report_reads_raw_reply (fun _ => inr (Some "The site is slow."))
              (fun _ => inl "Unexpected token") sampleUrl allPending [] 0
              (modelWorld (page 200 [] "")) (page 200 [] "") []
              {| resp_status := 200; resp_headers := []; resp_text := inr "";
                 resp_json := inl "Unexpected token" |}
              "The site is slow." "Unexpected token")
    as (a & Hrun & Hs & _ & Hback); try reflexivity; [discriminate |].
  exists a. split; [exact Hrun |]. split; [exact Hs | exact Hback].
Defined.

(** ** The service *)

Section ServiceProperties.

Import Service.

Variable hostname : string -> exn + string.
Variable analyse : string -> PipelineResults -> list TopIssue -> Z -> M AIAnalysis.

(** What a scan does to the server, by the three ways it can go: the
    address is no URL, the rate limit applies, or the scan is made. *)
Lemma processScan_run (date_now : Z) (scanId url : string) (s : Server) :
  match hostname url with
  | inl e =>
      processScan hostname analyse date_now scanId url s
      = (inr None, closedAsFailed scanId s)
  | inr domain =>
      if rateLimited date_now (rate_limits s domain) then
        processScan hostname analyse date_now scanId url s
        = (inr (Some rateLimitExceeded), closedAsFailed scanId s)
      else
        exists r w1 o w2 s',
          performScan url (net s) = (inr r, w1) /\
          analyse url r (extractTopIssues r) (calculateOverallScore r) w1 = (o, w2) /\
          processScan hostname analyse date_now scanId url s = (inr None, s') /\
          net s' = w2 /\ updateError s' = updateError s /\
          (forall d, rate_limits s' d
                     = if String.eqb d domain
                       then Some (nextLimit date_now (rate_limits s domain))
                       else rate_limits s d) /\
          journal s'
          = journal s
            ++ [SetStatus scanId "processing";
                SetRow scanId
                  {| row := flatten r (extractTopIssues r) (calculateOverallScore r);
                     ai_summary := match o with
                                   | inr a => summary a
                                   | inl _ => None
                                   end;
                     ai_recommendations := match o with
                                           | inr a => recommendations a
                                           | inl _ => []
                                           end |}]
            ++ match updateError s with
               | Some _ => [SetStatus scanId "failed"]
               | None => []
               end
  end.
Proof.
  unfold processScan, rateLimited, closedAsFailed.
  unfold handle, andThen, update_status, pure, fail, select_rate_limit, lift,
    update_row, update_rate_limit, insert_rate_limit, with_rate_limits.
  cbn [journal rate_limits updateError net].
  change (60 * 60 * 1000)%Z with 3600000%Z.
  destruct (hostname url) as [e | domain].
  { cbn [journal rate_limits updateError net]. rewrite <- app_assoc. reflexivity. }
  destruct (performScan_run url (net s))
    as (s1 & w1 & s2 & w2 & s3 & w3 & s4 & w4 & s5 & w5 & s6 & w6
        & _ & _ & _ & _ & _ & _ & Hscan).
  set (r := {| e2e := Some s1; api := Some s2; security := Some s3;
               performance := Some s4; accessibility := Some s5;
               techStack := Some s6 |}) in *.
  destruct (analyse url r (extractTopIssues r) (calculateOverallScore r) w6)
    as [o wa] eqn:Ha.
  destruct (rate_limits s domain) as [limit |] eqn:Hrow;
    cbn [journal rate_limits updateError net]; rewrite ?Hrow;
    [destruct ((window_start limit >? date_now - 3600000)%Z
               && (scan_count limit >=? 5)%Z);
     [cbn [journal rate_limits updateError net]; rewrite <- app_assoc;
      reflexivity |] |];
    exists r, w6, o, wa; cbn [journal rate_limits updateError net];
    rewrite Hscan; cbn [journal rate_limits updateError net]; rewrite Ha;
    destruct o as [e | a]; cbn [journal rate_limits updateError net];
    destruct (updateError s) as [ue |] eqn:Hue;
    cbn [journal rate_limits updateError net];
    eexists; (split; [reflexivity |]); (split; [reflexivity |]);
    (split; [reflexivity |]); cbn [journal rate_limits updateError net];
    (split; [reflexivity |]); (split; [exact Hue || reflexivity |]);
    (split; [intros d; rewrite ?Hrow;
             destruct (String.eqb_spec d domain) as [-> |]; rewrite ?Hrow;
             reflexivity |]);
    rewrite <- ?app_assoc; reflexivity.
Qed.

(** X14. A scan of a host whose row counts 5 scans or more in a
    window that started less than an hour ago is refused: it makes no
    request, leaves the table of the rate limits as it is, and sends two
    updates, the status processing and then the status failed.  What it
    returns is the reply with the status 429. *)
Theorem rate_limit_refuses (date_now : Z) (scanId url domain : string)
  (limit : RateLimit) (s : Server) :
  hostname url = inr domain ->
  rate_limits s domain = Some limit ->
  (date_now - 3600000 < window_start limit)%Z ->
  (5 <= scan_count limit)%Z ->
  exists s',
    processScan hostname analyse date_now scanId url s
    = (inr (Some rateLimitExceeded), s') /\
    reply_status rateLimitExceeded = 429 /\
    net s' = net s /\
    (forall d, rate_limits s' d = rate_limits s d) /\
    journal s'
    = journal s ++ [SetStatus scanId "processing"; SetStatus scanId "failed"].
Proof.
  intros Hh Hrow Hw Hc.
  pose proof (processScan_run date_now scanId url s) as H.
  rewrite Hh, Hrow in H. unfold rateLimited in H.
  replace (window_start limit >? date_now - 3600000)%Z with true in H
    by (symmetry; apply Z.gtb_lt; lia).
  replace (scan_count limit >=? 5)%Z with true in H
    by (symmetry; apply Z.geb_le; lia).
  cbn [andb] in H. eexists. split; [exact H |]. repeat split.
Qed.

(** X15. A scan that is not refused is counted and stored: the row
    of its host gets one scan more and keeps the start of its window (a
    host without row gets a row that counts 1 and starts now), the rows
    of the other hosts stay as they are, and the row of the results is
    sent with the status completed, with the summary of the summary step
    or, when that step throws, with no summary and no recommendation. *)
Theorem accepted_scan_is_counted (date_now : Z) (scanId url domain : string)
  (s : Server) :
  hostname url = inr domain ->
  rateLimited date_now (rate_limits s domain) = false ->
  exists s' r w1 stored,
    processScan hostname analyse date_now scanId url s = (inr None, s') /\
    performScan url (net s) = (inr r, w1) /\
    rate_limits s' domain = Some (nextLimit date_now (rate_limits s domain)) /\
    (forall d, d <> domain -> rate_limits s' d = rate_limits s d) /\
    journal s'
    = journal s
      ++ [SetStatus scanId "processing"; SetRow scanId stored]
      ++ match updateError s with
         | Some _ => [SetStatus scanId "failed"]
         | None => []
         end /\
    row stored = flatten r (extractTopIssues r) (calculateOverallScore r) /\
    scan_status (row stored) = "completed" /\
    match fst (analyse url r (extractTopIssues r) (calculateOverallScore r) w1) with
    | inr a =>
        ai_summary stored = summary a
        /\ ai_recommendations stored = recommendations a
    | inl _ => ai_summary stored = None /\ ai_recommendations stored = []
    end.
Proof.
  intros Hh Hl.
  pose proof (processScan_run date_now scanId url s) as H.
  rewrite Hh, Hl in H.
  destruct H as (r & w1 & o & w2 & s' & Hscan & Ha & Hrun & _ & _ & Ht & Hj).
  do 4 eexists. split; [exact Hrun |]. split; [exact Hscan |].
  split; [rewrite Ht, String.eqb_refl; reflexivity |].
  split.
  { intros d Hd. rewrite Ht. destruct (String.eqb_spec d domain); [contradiction |].
    reflexivity. }
  split; [exact Hj |]. cbn [row ai_summary ai_recommendations].
  split; [reflexivity |]. split; [reflexivity |].
  rewrite Ha. cbn [fst]. destruct o; split; reflexivity.
Qed.

(** X16. A scan never throws and is always closed: whatever the
    address, the answers of the network and the summary step do, the
    updates it sends are the status processing followed either by the
    status failed, or by the row with the status completed, or, when the
    store answers the row with an error, by the row and then the status
    failed.  All of them are for the scan it was asked for. *)
Theorem processScan_closes_scan (date_now : Z) (scanId url : string) (s : Server) :
  exists reply s' tail,
    processScan hostname analyse date_now scanId url s = (inr reply, s') /\
    journal s' = journal s ++ SetStatus scanId "processing" :: tail /\
    (tail = [SetStatus scanId "failed"] \/
     exists stored,
       scan_status (row stored) = "completed" /\
       ((updateError s = None /\ tail = [SetRow scanId stored]) \/
        (updateError s <> None
         /\ tail = [SetRow scanId stored; SetStatus scanId "failed"]))).
Proof.
  pose proof (processScan_run date_now scanId url s) as H.
  destruct (hostname url) as [e | domain].
  { do 3 eexists. split; [exact H |]. split; [reflexivity |]. left. reflexivity. }
  destruct (rateLimited date_now (rate_limits s domain)).
  { do 3 eexists. split; [exact H |]. split; [reflexivity |]. left. reflexivity. }
  destruct H as (r & w1 & o & w2 & s' & _ & _ & Hrun & _ & _ & _ & Hj).
  destruct (updateError s) as [ue |]; cbn [app] in Hj;
    do 3 eexists; (split; [exact Hrun |]); (split; [exact Hj |]);
    right; eexists; (split; [| (right; split; [discriminate | reflexivity])
                                || (left; split; reflexivity)]);
    reflexivity.
Qed.

(** The row of a host after one request, whatever the request is. *)
Lemma row_after_scan (a : Arrival) (d : string) (s : Server) :
  rate_limits
    (snd (processScan hostname analyse (at_time a) (scan_id a) (scan_url a) s)) d
  = if forHost hostname d a && negb (rateLimited (at_time a) (rate_limits s d))
    then Some (nextLimit (at_time a) (rate_limits s d))
    else rate_limits s d.
Proof.
  pose proof (processScan_run (at_time a) (scan_id a) (scan_url a) s) as H.
  unfold forHost. destruct (hostname (scan_url a)) as [e | h].
  { rewrite H. reflexivity. }
  destruct (String.eqb_spec h d) as [-> | Hne]; cbn [andb].
  - destruct (rateLimited (at_time a) (rate_limits s d)); cbn [negb].
    + rewrite H. reflexivity.
    + destruct H as (r & w1 & o & w2 & s' & _ & _ & Hrun & _ & _ & Ht & _).
      rewrite Hrun. cbn [snd]. rewrite Ht, String.eqb_refl. reflexivity.
  - destruct (rateLimited (at_time a) (rate_limits s h)).
    + rewrite H. reflexivity.
    + destruct H as (r & w1 & o & w2 & s' & _ & _ & Hrun & _ & _ & Ht & _).
      rewrite Hrun. cbn [snd]. rewrite Ht.
      destruct (String.eqb_spec d h); [congruence | reflexivity].
Qed.

(** X17. The start of the window of a host is never renewed, so the
    limit holds for the first hour only: once the window of a host is an
    hour old, every later scan of that host is accepted and counted,
    whatever its row counts already (the requests being processed one
    after the other). *)
Theorem stale_window_never_limits (d : string) (l : list Arrival) (s : Server)
  (r : RateLimit) :
  rate_limits s d = Some r ->
  Forall (fun a => (window_start r + 3600000 <= at_time a)%Z) l ->
  exists r',
    rate_limits (scans hostname analyse l s) d = Some r' /\
    window_start r' = window_start r /\
    scan_count r' = (scan_count r + len (filter (forHost hostname d) l))%Z.
Proof.
  intros Hrow Hall. revert s r Hrow Hall.
  induction l as [| a l IH]; intros s r Hrow Hall.
  - exists r. cbn. repeat split; [exact Hrow | lia].
  - inversion Hall as [| ? ? Ha Hl]; subst. cbn [scans filter].
    pose proof (row_after_scan a d s) as Hstep. rewrite Hrow in Hstep.
    assert (Hfree : rateLimited (at_time a) (Some r) = false).
    { unfold rateLimited.
      destruct (Z.gtb_spec (window_start r) (at_time a - 3600000));
        [lia | reflexivity]. }
    rewrite Hfree in Hstep. cbn [negb] in Hstep. rewrite andb_true_r in Hstep.
    destruct (forHost hostname d a).
    + destruct (IH _ _ Hstep) as (r' & Hr' & Hw & Hc); [exact Hl |].
      exists r'. split; [exact Hr' |]. split; [exact Hw |].
      rewrite Hc. cbn [nextLimit scan_count]. unfold len. cbn [List.length]. lia.
    + destruct (IH _ _ Hstep Hl) as (r' & Hr' & Hw & Hc).
      exists r'. repeat split; assumption.
Qed.

(** Inside its window the count of a host stops at 5. *)
Lemma window_saturates (d : string) (l : list Arrival) (s : Server)
  (r : RateLimit) :
  rate_limits s d = Some r -> (scan_count r <= 5)%Z ->
  Forall (fun a => (at_time a - 3600000 < window_start r)%Z) l ->
  exists r',
    rate_limits (scans hostname analyse l s) d = Some r' /\
    window_start r' = window_start r /\
    scan_count r'
    = Z.min (scan_count r + len (filter (forHost hostname d) l)) 5.
Proof.
  intros Hrow Hc Hall. revert s r Hrow Hc Hall.
  induction l as [| a l IH]; intros s r Hrow Hc Hall.
  - exists r. cbn. repeat split; [exact Hrow | lia].
  - inversion Hall as [| ? ? Ha Hl]; subst. cbn [scans filter].
    pose proof (row_after_scan a d s) as Hstep. rewrite Hrow in Hstep.
    unfold rateLimited in Hstep.
    replace (window_start r >? at_time a - 3600000)%Z with true in Hstep
      by (symmetry; apply Z.gtb_lt; lia).
    cbn [andb] in Hstep.
    destruct (forHost hostname d a); cbn [andb] in Hstep.
    + destruct (Z.geb_spec (scan_count r) 5) as [Hfull | Hroom];
        cbn [negb] in Hstep.
      * destruct (IH _ _ Hstep Hc Hl) as (r' & Hr' & Hw & Hn).
        exists r'. split; [exact Hr' |]. split; [exact Hw |].
        rewrite Hn. unfold len. cbn [List.length].
        pose proof (len_nonneg (filter (forHost hostname d) l)). unfold len in *. lia.
      * destruct (IH _ _ Hstep) as (r' & Hr' & Hw & Hn);
          [cbn; lia | exact Hl |].
        exists r'. split; [exact Hr' |]. split; [exact Hw |].
        rewrite Hn. cbn [nextLimit scan_count]. unfold len. cbn [List.length]. lia.
    + destruct (IH _ _ Hstep Hc Hl) as (r' & Hr' & Hw & Hn).
      exists r'. repeat split; assumption.
Qed.

(** X18. Of the scans of a host that arrive within an hour of its
    first scan, five are accepted: after the first scan of a host without
    row and any number of further requests in that hour, processed one
    after the other, the row of the host starts at the time of the first
    scan and counts the requests made for the host, but no more than 5. *)
Theorem five_scans_a_window (d : string) (a : Arrival) (l : list Arrival)
  (s : Server) :
  rate_limits s d = None ->
  forHost hostname d a = true ->
  Forall (fun b => (at_time b - 3600000 < at_time a)%Z) l ->
  exists r',
    rate_limits (scans hostname analyse (a :: l) s) d = Some r' /\
    window_start r' = at_time a /\
    scan_count r' = Z.min (1 + len (filter (forHost hostname d) l)) 5.
Proof.
  intros Hnone Hfor Hall. cbn [scans].
  pose proof (row_after_scan a d s) as Hstep.
  rewrite Hnone, Hfor in Hstep. cbn in Hstep.
  destruct (window_saturates d l _ _ Hstep) as (r' & Hr' & Hw & Hn);
    [cbn; lia | exact Hall |].
  exists r'. split; [exact Hr' |]. split; [exact Hw | exact Hn].
Qed.

(** X19. The handler answers before the scan is done and drops what
    the scan returns: a request whose body can be read is answered with
    the status 200, also when the scan is refused by the rate limit, and
    the server is left as the scan leaves it; a request whose body cannot
    be read is answered with the status 400 and starts nothing; the
    method OPTIONS is answered with the status 200 and starts nothing. *)
Theorem serve_replies (date_now : Z) (req : Request) (s : Server) :
  exists reply s',
    serve hostname analyse date_now req s = (inr reply, s') /\
    if String.eqb (method req) "OPTIONS" then
      reply_status reply = 200 /\ s' = s
    else
      match body req with
      | inl e => reply = {| reply_status := 400; reply_message := e |} /\ s' = s
      | inr (scanId, url) =>
          reply = {| reply_status := 200; reply_message := "Scan started" |} /\
          s' = snd (processScan hostname analyse date_now scanId url s)
      end.
Proof.
  unfold serve. destruct (String.eqb (method req) "OPTIONS").
  { do 2 eexists. split; [reflexivity |]. split; reflexivity. }
  unfold handle at 1, andThen at 1.
  destruct (body req) as [e | [scanId url]].
  { do 2 eexists. split; [reflexivity |]. split; reflexivity. }
  unfold pure at 1, andThen at 1, handle, andThen.
  destruct (processScan hostname analyse date_now scanId url s) as [[e | reply] s1];
    do 2 eexists; (split; [reflexivity |]); split; reflexivity.
Qed.

End ServiceProperties.

Lemma rate_limit_refuses_witness :
  exists s',
    Service.processScan sampleHost noSummary 1000000 "scan" sampleUrl busyServer
    = (inr (Some Service.rateLimitExceeded), s') /\
    Service.net s' = sampleWorld /\
    Service.journal s'
    = [Service.SetStatus "scan" "processing"; Service.SetStatus "scan" "failed"].
Proof.
  destruct (rate_limit_refuses sampleHost noSummary 1000000 "scan" sampleUrl
              "example.com"
              {| Service.scan_count := 5; Service.window_start := 0;
                 Service.last_scan_at := 1000 |} busyServer)
    as (s' & Hrun & _ & Hn & _ & Hj);
    [reflexivity | reflexivity | cbn; lia | cbn; lia |].
  exists s'. split; [exact Hrun |]. split; [exact Hn | exact Hj].
Defined.

Lemma accepted_scan_is_counted_witness :
  exists s',
    fst (Service.processScan sampleHost noSummary 5000 "scan" sampleUrl freshServer)
    = inr None /\
    snd (Service.processScan sampleHost noSummary 5000 "scan" sampleUrl freshServer)
    = s' /\
    Service.rate_limits s' "example.com"
    = Some {| Service.scan_count := 1; Service.window_start := 5000;
              Service.last_scan_at := 5000 |}.
Proof.
  destruct (accepted_scan_is_counted sampleHost noSummary 5000 "scan" sampleUrl
              "example.com" freshServer)
    as (s' & r & w1 & stored & Hrun & _ & Ht & _);
    [reflexivity | reflexivity |].
  exists s'. rewrite Hrun. split; [reflexivity |]. split; [reflexivity | exact Ht].
Defined.

Lemma stale_window_never_limits_witness :
  exists r',
    Service.rate_limits
      (scans sampleHost noSummary [arrival 3600000; arrival 3600001] busyServer)
      "example.com" = Some r' /\
    Service.scan_count r' = 7.
Proof.
  destruct (stale_window_never_limits sampleHost noSummary "example.com"
              [arrival 3600000; arrival 3600001] busyServer
              {| Service.scan_count := 5; Service.window_start := 0;
                 Service.last_scan_at := 1000 |})
    as (r' & Hr & _ & Hc);
    [reflexivity | repeat constructor; cbn; lia |].
  exists r'. split; [exact Hr | rewrite Hc; reflexivity].
Defined.

Lemma five_scans_a_window_witness :
  exists r',
    Service.rate_limits
      (scans sampleHost noSummary
         (arrival 0 :: map arrival [1; 2; 3; 4; 5; 3599999]) freshServer)
      "example.com" = Some r' /\
    Service.window_start r' = 0 /\ Service.scan_count r' = 5.
Proof.
  destruct (five_scans_a_window sampleHost noSummary "example.com" (arrival 0)
              (map arrival [1; 2; 3; 4; 5; 3599999]) freshServer)
    as (r' & Hr & Hw & Hc);
    [reflexivity | reflexivity | repeat constructor; cbn; lia |].
  exists r'. split; [exact Hr |]. split; [exact Hw | rewrite Hc; reflexivity].
Defined.

(** ** A scan from end to end *)

Lemma analysis_without_key (replyText : Response -> exn + option string)
  (JSON_parse : string -> exn + ParsedReply) (url : string)
  (r : PipelineResults) (t : list TopIssue) (o : Z) (w : world) :
  truthy (assoc "GEMINI_API_KEY" (env w)) = false ->
  generateAIAnalysis replyText JSON_parse url r t o w = (inr noAnalysis, w).
Proof.
  intros K. unfold generateAIAnalysis, bind, getenv. rewrite K. reflexivity.
Qed.

(** X21. In a runtime without any key, neither of the page-speed
    service nor of the model, a scan that is not refused makes exactly
    six requests, all of them to the target, and its row is sent without
    summary and without recommendation. *)
Theorem scan_without_keys (hostname : string -> exn + string)
  (replyText : Response -> exn + option string)
  (JSON_parse : string -> exn + ParsedReply) (date_now : Z)
  (scanId url domain : string) (s : Service.Server) :
  hostname url = inr domain ->
  rateLimited date_now (Service.rate_limits s domain) = false ->
  no_pagespeed_key (Service.net s) = true ->
  truthy (assoc "GEMINI_API_KEY" (env (Service.net s))) = false ->
  exists s' stored,
    Service.processScan hostname (generateAIAnalysis replyText JSON_parse)
      date_now scanId url s = (inr None, s') /\
    requests 6 (Service.net s) (Service.net s') /\
    Service.journal s'
    = Service.journal s
      ++ [Service.SetStatus scanId "processing"; Service.SetRow scanId stored]
      ++ match Service.updateError s with
         | Some _ => [Service.SetStatus scanId "failed"]
         | None => []
         end /\
    Service.ai_summary stored = None /\ Service.ai_recommendations stored = [].
Proof.
  intros Hh Hl Hk Hg.
  pose proof (processScan_run hostname (generateAIAnalysis replyText JSON_parse)
                date_now scanId url s) as H.
  rewrite Hh, Hl in H.
  destruct H as (r & w1 & o & w2 & s' & Hscan & Ha & Hrun & Hn & _ & _ & Hj).
  destruct (performScan_world url (Service.net s)) as (w3 & n & R3 & _ & _ & K & R).
  rewrite Hscan in R. cbn [snd] in R.
  assert (Hn1 : n = 1%nat).
  { apply K. destruct R3 as (E & _). unfold no_pagespeed_key in *.
    rewrite E. exact Hk. }
  subst n. change (3 + 1 + 1 + 1)%nat with 6%nat in R.
  rewrite analysis_without_key in Ha
    by (destruct R as (E & _); rewrite E; exact Hg).
  injection Ha as <- <-.
  do 2 eexists. split; [exact Hrun |]. split; [rewrite Hn; exact R |].
  split; [exact Hj |]. split; reflexivity.
Qed.

Lemma scan_without_keys_witness :
  exists s',
    snd (Service.processScan sampleHost
           (generateAIAnalysis (fun _ => inl "no reply") (fun _ => inl "no text"))
           5000 "scan" sampleUrl freshServer) = s' /\
    network (Service.net s') = [].
Proof.
  destruct (scan_without_keys sampleHost (fun _ => inl "no reply")
              (fun _ => inl "no text") 5000 "scan" sampleUrl "example.com"
              freshServer)
    as (s' & stored & Hrun & (_ & _ & Hnet) & _); try reflexivity.
  exists s'. rewrite Hrun. split; [reflexivity | exact Hnet].
Defined.

